(** * sun: per-object health state machine, alert gate, webhook sink and
      GitOps drift comparison

    A shallow embedding of the Go sources of [sun] (package [main]):
    the state stores and their update functions, the alert gates, the
    webhook sink, the Longhorn volume classifier, the GitOps resource
    comparison and the [.env.example] copier, followed by the properties
    established about them. *)

From Stdlib Require Import ZArith Lia String Ascii List Bool Floats Uint63.
From stdpp Require Import base gmap strings list pretty sorting.

Local Open Scope string_scope.
Local Open Scope Z_scope.

(** ** Time

    A [time.Time] is modelled by the number of nanoseconds that separate it
    from the zero instant [time.Time{}]; a [time.Duration] is a signed
    64-bit count of nanoseconds. *)

Module GoTime.

Definition Time := Z.
Definition Duration := Z.

(** [time.Time{}] *)
Definition zeroTime : Time := 0.

Definition minDuration : Duration := - 2 ^ 63.
Definition maxDuration : Duration := 2 ^ 63 - 1.

(** Two's-complement wrap-around of 64-bit signed arithmetic. *)
Definition wrap64 (z : Z) : Z := (z + 2 ^ 63) mod 2 ^ 64 - 2 ^ 63.

(** [time.Minute] *)
Definition Minute : Duration := 60 * 1000000000.

(** [t.Sub(u)]: the difference, saturated to the range of [Duration]. *)
Definition Sub (t u : Time) : Duration :=
  let d := t - u in
  if d <? minDuration then minDuration
  else if maxDuration <? d then maxDuration
  else d.

(** [time.Since(t)], with the clock reading made explicit. *)
Definition Since (now t : Time) : Duration := Sub now t.

(** [time.Duration(n) * time.Minute] for an [int] [n]. *)
Definition minutes (n : Z) : Duration := wrap64 (wrap64 n * Minute).

End GoTime.
Import GoTime.

(** ** Data model (the type declarations of the package) *)

Record unitState := mkUnitState {
  hasError : bool;
  lastSeen : Time;
  lastMessage : string;
  firstError : Time;
  alertSent : bool
}.

Record longhornUnitState := mkLonghornUnitState {
  lh_unitState : unitState;
  lh_resourceType : string;
  lh_capacity : Z;
  lh_usage : Z;
  lh_robustness : string;
  lh_node : string;
  lh_namespace : string
}.

Record nodeResourceState := mkNodeResourceState {
  nr_unitState : unitState;
  nr_cpuCapacity : Z;
  nr_cpuRequests : Z;
  nr_cpuUsagePercent : float;
  nr_nodeName : string
}.

Record gitOpsState := mkGitOpsState {
  go_unitState : unitState;
  go_repositoryName : string;
  go_resourceKind : string;
  go_resourceName : string;
  go_namespace : string;
  go_mismatchType : string;
  go_expectedHash : string;
  go_actualHash : string
}.

(** The part of [Config] read by the modelled functions. *)

Record GitOpsRepository := mkGitOpsRepository {
  repo_Name : string;
  repo_AlertOnMismatch : bool
}.

Record Config := mkConfig {
  WebhookUrl : string;
  Interval : Z;
  VolumeUsagePercent : float;
  VolumeCapacityCritical : Z;
  GitOps_AlertOnMismatch : bool;
  GitOps_Repositories : list GitOpsRepository
}.

(** The package-level state maps. *)

Record Stores := mkStores {
  podStates : gmap string unitState;
  nodeStates : gmap string unitState;
  nodeResourceStates : gmap string nodeResourceState;
  longhornVolumeStates : gmap string longhornUnitState;
  longhornReplicaStates : gmap string longhornUnitState;
  longhornEngineStates : gmap string longhornUnitState;
  longhornNodeStates : gmap string longhornUnitState;
  longhornBackupStates : gmap string longhornUnitState;
  gitOpsStates : gmap string gitOpsState
}.

Definition emptyStores : Stores :=
  mkStores ∅ ∅ ∅ ∅ ∅ ∅ ∅ ∅ ∅.

Definition set_podStates (m : gmap string unitState) (s : Stores) : Stores :=
  mkStores m (nodeStates s) (nodeResourceStates s) (longhornVolumeStates s)
    (longhornReplicaStates s) (longhornEngineStates s) (longhornNodeStates s)
    (longhornBackupStates s) (gitOpsStates s).

Definition set_nodeStates (m : gmap string unitState) (s : Stores) : Stores :=
  mkStores (podStates s) m (nodeResourceStates s) (longhornVolumeStates s)
    (longhornReplicaStates s) (longhornEngineStates s) (longhornNodeStates s)
    (longhornBackupStates s) (gitOpsStates s).

Definition set_nodeResourceStates (m : gmap string nodeResourceState) (s : Stores) : Stores :=
  mkStores (podStates s) (nodeStates s) m (longhornVolumeStates s)
    (longhornReplicaStates s) (longhornEngineStates s) (longhornNodeStates s)
    (longhornBackupStates s) (gitOpsStates s).

Definition set_longhornVolumeStates (m : gmap string longhornUnitState) (s : Stores) : Stores :=
  mkStores (podStates s) (nodeStates s) (nodeResourceStates s) m
    (longhornReplicaStates s) (longhornEngineStates s) (longhornNodeStates s)
    (longhornBackupStates s) (gitOpsStates s).

Definition set_longhornReplicaStates (m : gmap string longhornUnitState) (s : Stores) : Stores :=
  mkStores (podStates s) (nodeStates s) (nodeResourceStates s) (longhornVolumeStates s)
    m (longhornEngineStates s) (longhornNodeStates s)
    (longhornBackupStates s) (gitOpsStates s).

Definition set_longhornEngineStates (m : gmap string longhornUnitState) (s : Stores) : Stores :=
  mkStores (podStates s) (nodeStates s) (nodeResourceStates s) (longhornVolumeStates s)
    (longhornReplicaStates s) m (longhornNodeStates s)
    (longhornBackupStates s) (gitOpsStates s).

Definition set_longhornNodeStates (m : gmap string longhornUnitState) (s : Stores) : Stores :=
  mkStores (podStates s) (nodeStates s) (nodeResourceStates s) (longhornVolumeStates s)
    (longhornReplicaStates s) (longhornEngineStates s) m
    (longhornBackupStates s) (gitOpsStates s).

Definition set_longhornBackupStates (m : gmap string longhornUnitState) (s : Stores) : Stores :=
  mkStores (podStates s) (nodeStates s) (nodeResourceStates s) (longhornVolumeStates s)
    (longhornReplicaStates s) (longhornEngineStates s) (longhornNodeStates s)
    m (gitOpsStates s).

Definition set_gitOpsStates (m : gmap string gitOpsState) (s : Stores) : Stores :=
  mkStores (podStates s) (nodeStates s) (nodeResourceStates s) (longhornVolumeStates s)
    (longhornReplicaStates s) (longhornEngineStates s) (longhornNodeStates s)
    (longhornBackupStates s) m.

(** ** State updates

    Every function reads the clock once ([now := time.Now()]); the reading
    is the argument [now]. *)

(** The pod and the node as far as the update functions look at them. *)
Record Pod := mkPod { pod_Namespace : string; pod_Name : string }.
Record Node := mkNode { node_Name : string }.

(** [fmt.Sprintf("%s/%s", a, b)] *)
Definition slashKey (a b : string) : string := a ++ "/" ++ b.

(** Pod watcher, [updatePodState] *)
Definition updatePodState (now : Time) (pod : Pod) (hasErr : bool)
    (errorMessage : string) (s : Stores) : Stores :=
  let podKey := slashKey (pod_Namespace pod) (pod_Name pod) in
  match podStates s !! podKey with
  | None =>
      set_podStates
        (<[podKey := mkUnitState hasErr now errorMessage now false]> (podStates s)) s
  | Some prevState =>
      let '(fe, sent) :=
        if hasErr && negb (hasError prevState) then (now, false)
        else if negb hasErr then (zeroTime, false)
        else (firstError prevState, alertSent prevState) in
      set_podStates
        (<[podKey := mkUnitState hasErr now errorMessage fe sent]> (podStates s)) s
  end.

(** nodes.go, [updateNodeState] *)
Definition updateNodeState (now : Time) (node : Node) (hasErr : bool)
    (errorMessage : string) (s : Stores) : Stores :=
  let nodeKey := node_Name node in
  match nodeStates s !! nodeKey with
  | None =>
      set_nodeStates
        (<[nodeKey := mkUnitState hasErr now errorMessage now false]> (nodeStates s)) s
  | Some prevState =>
      let '(fe, sent) :=
        if hasErr && negb (hasError prevState) then (now, false)
        else if negb hasErr then (zeroTime, false)
        else (firstError prevState, alertSent prevState) in
      set_nodeStates
        (<[nodeKey := mkUnitState hasErr now errorMessage fe sent]> (nodeStates s)) s
  end.

(** The branch shared by the node-resource and the Longhorn updates: the
    pair [(firstError, alertSent)] of the new entry. *)
Definition rearm (now : Time) (hasErr : bool) (prev : option unitState) : Time * bool :=
  match prev with
  | None => (now, false)
  | Some prevState =>
      if hasErr && negb (hasError prevState) then (now, false)
      else if negb hasErr then (zeroTime, false)
      else (firstError prevState, alertSent prevState)
  end.

(** Node resource calculator, [updateNodeResourceState] *)
Definition updateNodeResourceState (now : Time) (nodeName : string) (hasErr : bool)
    (errorMessage : string) (cpuCapacity cpuRequests : Z) (cpuUsagePercent : float)
    (s : Stores) : Stores :=
  let prev := nodeResourceStates s !! nodeName in
  let '(fe, sent) := rearm now hasErr (nr_unitState <$> prev) in
  let newState :=
    mkNodeResourceState (mkUnitState hasErr now errorMessage fe sent)
      cpuCapacity cpuRequests cpuUsagePercent nodeName in
  set_nodeResourceStates (<[nodeName := newState]> (nodeResourceStates s)) s.

(** longhorn_status.go, [updateLonghornVolumeState] *)
Definition updateLonghornVolumeState (now : Time) (key : string) (hasErr : bool)
    (errorMessage state robustness : string) (capacity actualSize : Z)
    (namespace : string) (s : Stores) : Stores :=
  let prev := longhornVolumeStates s !! key in
  let '(fe, sent) := rearm now hasErr (lh_unitState <$> prev) in
  let newState :=
    mkLonghornUnitState (mkUnitState hasErr now errorMessage fe sent)
      "volume" capacity actualSize robustness "" namespace in
  set_longhornVolumeStates (<[key := newState]> (longhornVolumeStates s)) s.

(** longhorn_status.go, [updateLonghornReplicaState] *)
Definition updateLonghornReplicaState (now : Time) (key : string) (hasErr : bool)
    (errorMessage currentState namespace : string) (s : Stores) : Stores :=
  let prev := longhornReplicaStates s !! key in
  let '(fe, sent) := rearm now hasErr (lh_unitState <$> prev) in
  let newState :=
    mkLonghornUnitState (mkUnitState hasErr now errorMessage fe sent)
      "replica" 0 0 "" "" namespace in
  set_longhornReplicaStates (<[key := newState]> (longhornReplicaStates s)) s.

(** longhorn_status.go, [updateLonghornEngineState] *)
Definition updateLonghornEngineState (now : Time) (key : string) (hasErr : bool)
    (errorMessage currentState namespace : string) (s : Stores) : Stores :=
  let prev := longhornEngineStates s !! key in
  let '(fe, sent) := rearm now hasErr (lh_unitState <$> prev) in
  let newState :=
    mkLonghornUnitState (mkUnitState hasErr now errorMessage fe sent)
      "engine" 0 0 "" "" namespace in
  set_longhornEngineStates (<[key := newState]> (longhornEngineStates s)) s.

(** longhorn_status.go, [updateLonghornNodeState] *)
Definition updateLonghornNodeState (now : Time) (key : string) (hasErr : bool)
    (errorMessage nodeName : string) (s : Stores) : Stores :=
  let prev := longhornNodeStates s !! key in
  let '(fe, sent) := rearm now hasErr (lh_unitState <$> prev) in
  let newState :=
    mkLonghornUnitState (mkUnitState hasErr now errorMessage fe sent)
      "node" 0 0 "" nodeName "" in
  set_longhornNodeStates (<[key := newState]> (longhornNodeStates s)) s.

(** longhorn_status.go, [updateLonghornBackupState] *)
Definition updateLonghornBackupState (now : Time) (key : string) (hasErr : bool)
    (errorMessage state namespace : string) (s : Stores) : Stores :=
  let prev := longhornBackupStates s !! key in
  let '(fe, sent) := rearm now hasErr (lh_unitState <$> prev) in
  let newState :=
    mkLonghornUnitState (mkUnitState hasErr now errorMessage fe sent)
      "backup" 0 0 "" "" namespace in
  set_longhornBackupStates (<[key := newState]> (longhornBackupStates s)) s.

(** Zero values of the state structs: what a map read yields for an absent
    key. *)
Definition zeroUnitState : unitState := mkUnitState false zeroTime "" zeroTime false.
Definition zeroLonghornUnitState : longhornUnitState :=
  mkLonghornUnitState zeroUnitState "" 0 0 "" "" "".
Definition zeroGitOpsState : gitOpsState :=
  mkGitOpsState zeroUnitState "" "" "" "" "" "" "".

(** [v, exists := m[key]] *)
Definition commaOk {A} (zero : A) (o : option A) : A * bool :=
  match o with
  | Some v => (v, true)
  | None => (zero, false)
  end.

(** gitops_status.go, [updateGitOpsState].  [newState] is built with the
    zero value in [firstError] and [alertSent]; the two branches overwrite
    them, and neither runs when the previous entry is healthy and the
    update is healthy. *)
Definition updateGitOpsState (now : Time) (key : string) (hasErr : bool)
    (errorMessage repositoryName resourceKind resourceName namespace
       mismatchType expectedHash actualHash : string) (s : Stores) : Stores :=
  let '(prevState, exists_) := commaOk zeroGitOpsState (gitOpsStates s !! key) in
  let prev := go_unitState prevState in
  let '(fe, sent) :=
    if negb exists_
       || (negb (hasError prev) && hasErr)
       || (hasError prev && negb (String.eqb (lastMessage prev) errorMessage))
    then (now, false)
    else if exists_ && hasError prev then (firstError prev, alertSent prev)
    else (zeroTime, false) in
  let newState :=
    mkGitOpsState (mkUnitState hasErr now errorMessage fe sent)
      repositoryName resourceKind resourceName namespace mismatchType
      expectedHash actualHash in
  set_gitOpsStates (<[key := newState]> (gitOpsStates s)) s.

(** ** Alert gates

    The three gate functions end with the same dwell test on the entry
    found; [now] is the clock reading taken by [time.Since]. *)

Definition dwellGate (cfg : Config) (now : Time) (state : unitState) : bool :=
  if Interval cfg =? 0 then true
  else minutes (Interval cfg) <=? Since now (firstError state).

(** main.go, [shouldSendAlert] *)
Definition shouldSendAlert (cfg : Config) (now : Time) (alertType key : string)
    (s : Stores) : bool :=
  let '(state, exists_) :=
    if String.eqb alertType "pod" then
      commaOk zeroUnitState (podStates s !! key)
    else if String.eqb alertType "node" then
      commaOk zeroUnitState (nodeStates s !! key)
    else if String.eqb alertType "node_resource" then
      match nodeResourceStates s !! key with
      | Some nodeState => (nr_unitState nodeState, true)
      | None => (zeroUnitState, false)
      end
    else if String.eqb alertType "gitops" then
      match gitOpsStates s !! key with
      | Some gitOpsSt => (go_unitState gitOpsSt, true)
      | None => (zeroUnitState, false)
      end
    else (zeroUnitState, false) in
  if negb exists_ || negb (hasError state) || alertSent state then false
  else dwellGate cfg now state.

(** longhorn.go, [shouldSendLonghornAlert] *)
Definition shouldSendLonghornAlert (cfg : Config) (now : Time)
    (resourceType key : string) (s : Stores) : bool :=
  let '(state, exists_) :=
    if String.eqb resourceType "volume" then
      commaOk zeroLonghornUnitState (longhornVolumeStates s !! key)
    else if String.eqb resourceType "replica" then
      commaOk zeroLonghornUnitState (longhornReplicaStates s !! key)
    else if String.eqb resourceType "engine" then
      commaOk zeroLonghornUnitState (longhornEngineStates s !! key)
    else if String.eqb resourceType "node" then
      commaOk zeroLonghornUnitState (longhornNodeStates s !! key)
    else if String.eqb resourceType "backup" then
      commaOk zeroLonghornUnitState (longhornBackupStates s !! key)
    else (zeroLonghornUnitState, false) in
  let u := lh_unitState state in
  if negb exists_ || negb (hasError u) || alertSent u then false
  else dwellGate cfg now u.

(** gitops_status.go, [shouldSendGitOpsAlert].  The loop over the
    configured repositories returns false at the first repository that
    bears the entry's repository name and has alerting switched off. *)
Definition shouldSendGitOpsAlert (cfg : Config) (now : Time) (key : string)
    (s : Stores) : bool :=
  let '(state, exists_) := commaOk zeroGitOpsState (gitOpsStates s !! key) in
  let u := go_unitState state in
  if negb exists_ || negb (hasError u) || alertSent u then false
  else if negb (GitOps_AlertOnMismatch cfg) then false
  else if existsb
            (fun repo => String.eqb (repo_Name repo) (go_repositoryName state)
                         && negb (repo_AlertOnMismatch repo))
            (GitOps_Repositories cfg)
       then false
  else dwellGate cfg now u.

(** ** Families

    The five object families of the state store, the entry each keeps for
    a key, and the gate that the classifiers of the family call. *)

Inductive longhornKind := LVolume | LReplica | LEngine | LNode | LBackup.

Inductive family :=
  | FPod | FNode | FNodeResource
  | FLonghorn (k : longhornKind)
  | FGitOps.

#[global] Instance longhornKind_eq_dec : EqDecision longhornKind.
Proof. solve_decision. Defined.

#[global] Instance family_eq_dec : EqDecision family.
Proof. solve_decision. Defined.

Definition longhornKindName (k : longhornKind) : string :=
  match k with
  | LVolume => "volume"
  | LReplica => "replica"
  | LEngine => "engine"
  | LNode => "node"
  | LBackup => "backup"
  end.

Definition longhornStore (k : longhornKind) (s : Stores) : gmap string longhornUnitState :=
  match k with
  | LVolume => longhornVolumeStates s
  | LReplica => longhornReplicaStates s
  | LEngine => longhornEngineStates s
  | LNode => longhornNodeStates s
  | LBackup => longhornBackupStates s
  end.

(** The [unitState] stored for [key] in the family's map, if any. *)
Definition familyEntry (f : family) (key : string) (s : Stores) : option unitState :=
  match f with
  | FPod => podStates s !! key
  | FNode => nodeStates s !! key
  | FNodeResource => nr_unitState <$> nodeResourceStates s !! key
  | FLonghorn k => lh_unitState <$> longhornStore k s !! key
  | FGitOps => go_unitState <$> gitOpsStates s !! key
  end.

(** The gate as the family's classifier calls it. *)
Definition alertGate (cfg : Config) (now : Time) (f : family) (key : string)
    (s : Stores) : bool :=
  match f with
  | FPod => shouldSendAlert cfg now "pod" key s
  | FNode => shouldSendAlert cfg now "node" key s
  | FNodeResource => shouldSendAlert cfg now "node_resource" key s
  | FLonghorn k => shouldSendLonghornAlert cfg now (longhornKindName k) key s
  | FGitOps => shouldSendGitOpsAlert cfg now key s
  end.

(** At least [Interval] minutes lie between [firstError] and [now], or the
    interval is 0. *)
Definition dwellElapsed (cfg : Config) (now : Time) (st : unitState) : Prop :=
  Interval cfg = 0 ∨ Interval cfg * Minute ≤ now - firstError st.

(** The GitOps filter: alerting is on globally and for every configured
    repository that bears the name recorded in the entry for [key]. *)
Definition gitOpsAlertsEnabled (cfg : Config) (key : string) (s : Stores) : Prop :=
  GitOps_AlertOnMismatch cfg = true ∧
  ∀ g repo, gitOpsStates s !! key = Some g →
            In repo (GitOps_Repositories cfg) →
            repo_Name repo = go_repositoryName g →
            repo_AlertOnMismatch repo = true.

(** ** Upserts, family by family

    One constructor per update function, with the arguments of the call. *)

Inductive upsertCall :=
  | UpsertPod (pod : Pod) (hasErr : bool) (errorMessage : string)
  | UpsertNode (node : Node) (hasErr : bool) (errorMessage : string)
  | UpsertNodeResource (nodeName : string) (hasErr : bool) (errorMessage : string)
      (cpuCapacity cpuRequests : Z) (cpuUsagePercent : float)
  | UpsertLonghornVolume (key : string) (hasErr : bool)
      (errorMessage state robustness : string) (capacity actualSize : Z)
      (namespace : string)
  | UpsertLonghornReplica (key : string) (hasErr : bool)
      (errorMessage currentState namespace : string)
  | UpsertLonghornEngine (key : string) (hasErr : bool)
      (errorMessage currentState namespace : string)
  | UpsertLonghornNode (key : string) (hasErr : bool) (errorMessage nodeName : string)
  | UpsertLonghornBackup (key : string) (hasErr : bool)
      (errorMessage state namespace : string)
  | UpsertGitOps (key : string) (hasErr : bool)
      (errorMessage repositoryName resourceKind resourceName namespace
         mismatchType expectedHash actualHash : string).

Definition upsert (now : Time) (c : upsertCall) (s : Stores) : Stores :=
  match c with
  | UpsertPod pod e m => updatePodState now pod e m s
  | UpsertNode node e m => updateNodeState now node e m s
  | UpsertNodeResource n e m cap req pct =>
      updateNodeResourceState now n e m cap req pct s
  | UpsertLonghornVolume k e m st rb cap sz ns =>
      updateLonghornVolumeState now k e m st rb cap sz ns s
  | UpsertLonghornReplica k e m cs ns => updateLonghornReplicaState now k e m cs ns s
  | UpsertLonghornEngine k e m cs ns => updateLonghornEngineState now k e m cs ns s
  | UpsertLonghornNode k e m n => updateLonghornNodeState now k e m n s
  | UpsertLonghornBackup k e m st ns => updateLonghornBackupState now k e m st ns s
  | UpsertGitOps k e m rn rk rnm ns mt eh ah =>
      updateGitOpsState now k e m rn rk rnm ns mt eh ah s
  end.

Definition upsertFamily (c : upsertCall) : family :=
  match c with
  | UpsertPod _ _ _ => FPod
  | UpsertNode _ _ _ => FNode
  | UpsertNodeResource _ _ _ _ _ _ => FNodeResource
  | UpsertLonghornVolume _ _ _ _ _ _ _ _ => FLonghorn LVolume
  | UpsertLonghornReplica _ _ _ _ _ => FLonghorn LReplica
  | UpsertLonghornEngine _ _ _ _ _ => FLonghorn LEngine
  | UpsertLonghornNode _ _ _ _ => FLonghorn LNode
  | UpsertLonghornBackup _ _ _ _ _ => FLonghorn LBackup
  | UpsertGitOps _ _ _ _ _ _ _ _ _ _ => FGitOps
  end.

Definition upsertKey (c : upsertCall) : string :=
  match c with
  | UpsertPod pod _ _ => slashKey (pod_Namespace pod) (pod_Name pod)
  | UpsertNode node _ _ => node_Name node
  | UpsertNodeResource n _ _ _ _ _ => n
  | UpsertLonghornVolume k _ _ _ _ _ _ _ => k
  | UpsertLonghornReplica k _ _ _ _ => k
  | UpsertLonghornEngine k _ _ _ _ => k
  | UpsertLonghornNode k _ _ _ => k
  | UpsertLonghornBackup k _ _ _ _ => k
  | UpsertGitOps k _ _ _ _ _ _ _ _ _ => k
  end.

Definition upsertHasError (c : upsertCall) : bool :=
  match c with
  | UpsertPod _ e _ => e
  | UpsertNode _ e _ => e
  | UpsertNodeResource _ e _ _ _ _ => e
  | UpsertLonghornVolume _ e _ _ _ _ _ _ => e
  | UpsertLonghornReplica _ e _ _ _ => e
  | UpsertLonghornEngine _ e _ _ _ => e
  | UpsertLonghornNode _ e _ _ => e
  | UpsertLonghornBackup _ e _ _ _ => e
  | UpsertGitOps _ e _ _ _ _ _ _ _ _ => e
  end.

Definition upsertMessage (c : upsertCall) : string :=
  match c with
  | UpsertPod _ _ m => m
  | UpsertNode _ _ m => m
  | UpsertNodeResource _ _ m _ _ _ => m
  | UpsertLonghornVolume _ _ m _ _ _ _ _ => m
  | UpsertLonghornReplica _ _ m _ _ => m
  | UpsertLonghornEngine _ _ m _ _ => m
  | UpsertLonghornNode _ _ m _ => m
  | UpsertLonghornBackup _ _ m _ _ => m
  | UpsertGitOps _ _ m _ _ _ _ _ _ _ => m
  end.

(** The first-insert rule as the specification words it: [firstError] is
    the clock reading for an error and the zero time otherwise. *)
Definition firstUpsertAsSpecified (now : Time) (c : upsertCall) (s : Stores) : Prop :=
  familyEntry (upsertFamily c) (upsertKey c) s = None →
  ∃ st, familyEntry (upsertFamily c) (upsertKey c) (upsert now c s) = Some st
        ∧ firstError st = (if upsertHasError c then now else zeroTime)
        ∧ alertSent st = false.

(** The recovery rule as the specification words it. *)
Definition healthyUpsertClears (now : Time) (c : upsertCall) (s : Stores) : Prop :=
  upsertHasError c = false →
  is_Some (familyEntry (upsertFamily c) (upsertKey c) s) →
  ∃ st, familyEntry (upsertFamily c) (upsertKey c) (upsert now c s) = Some st
        ∧ firstError st = zeroTime
        ∧ alertSent st = false.

(** ** A sample configuration and store *)

Definition cfgExample : Config :=
  mkConfig "http://hooks.example/sun" 3 85%float 1073741824 true
    [mkGitOpsRepository "infra" true].

Definition gitOpsEntryExample : gitOpsState :=
  mkGitOpsState (mkUnitState true 1000 "Resource missing: Deployment/web is missing from cluster" 1000 false)
    "infra" "Deployment" "web" "default" "missing" "" "".

Definition storesExample : Stores :=
  set_gitOpsStates {[ "infra/default/Deployment/web" := gitOpsEntryExample ]} emptyStores.

(** ** Alerts and the webhook sink (main.go) *)

Record Field := mkField {
  Name : string;
  Value : string;
  Inline : bool
}.

Record Alert := mkAlert {
  Title : string;
  Description : string;
  Fields : list Field;
  Logs : string
}.

(** [const version] *)
Definition version : string := "0.1.4".

(** Characters that a string literal of this file does not spell out. *)
Definition dq : string := String (ascii_of_nat 34) EmptyString.
Definition nl : string := String (ascii_of_nat 10) EmptyString.
Definition tab : string := String (ascii_of_nat 9) EmptyString.
Definition backslash : string := String (ascii_of_nat 92) EmptyString.

Definition bytes (l : list nat) : string := string_of_list_ascii (map ascii_of_nat l).

(** The emoji and check-mark literals, byte for byte as the source file
    has them. *)
Definition emojiRed : string := bytes [195; 176; 197; 184; 226; 128; 157; 194; 180]%nat.
Definition emojiGreen : string := bytes [195; 176; 197; 184; 197; 184; 194; 162]%nat.
Definition inSyncValue : string :=
  bytes [195; 162; 197; 147; 226; 128; 166]%nat ++ " In Sync".

(** What the model leaves to the libraries: whether [http.NewRequest]
    accepts the webhook URL, how [Format(time.RFC3339)] prints a clock
    reading, how [fmt] prints a float with a given precision and how
    [encoding/json] prints one. *)
Record Runtime := mkRuntime {
  rt_urlParses : string → bool;
  rt_formatRFC3339 : Time → string;
  rt_formatFloat : nat → float → string;
  rt_jsonFloat : float → string
}.

Record HttpRequest := mkHttpRequest {
  req_method : string;
  req_url : string;
  req_contentType : string;
  req_body : string
}.

(** The process: the state maps, the leader flag, and the requests handed
    to [client.Do] so far (oldest first). *)
Record World := mkWorld {
  stores : Stores;
  isLeader : bool;
  posts : list HttpRequest
}.

Definition set_stores (s : Stores) (w : World) : World :=
  mkWorld s (isLeader w) (posts w).

Definition on_stores (f : Stores → Stores) (w : World) : World :=
  set_stores (f (stores w)) w.

(** The callbacks of the leader election write the flag. *)
Definition set_isLeader (b : bool) (w : World) : World :=
  mkWorld (stores w) b (posts w).

(** [%t] *)
Definition fmtBool (b : bool) : string := if b then "true" else "false".

(** The success test on one field of the alert. *)
Definition isSuccessField (field : Field) : bool :=
  (String.eqb (Name field) "State"
   && (String.eqb (Value field) "Running" || String.eqb (Value field) "Completed"))
  || (String.eqb (Name field) "Status" && String.eqb (Value field) inSyncValue).

(** The loop that builds [fieldsJSON], without the closing bracket; [i] is
    the index of the first field of [fields]. *)
Fixpoint fieldsLoop (i : nat) (fields : list Field) (acc : string) : string :=
  match fields with
  | [] => acc
  | field :: rest =>
      let acc := if (0 <? i)%nat then acc ++ "," else acc in
      let acc := acc ++ "{" ++ dq ++ "name" ++ dq ++ ":" ++ dq ++ Name field ++ dq
                     ++ "," ++ dq ++ "value" ++ dq ++ ":" ++ dq ++ Value field ++ dq
                     ++ "," ++ dq ++ "inline" ++ dq ++ ":" ++ fmtBool (Inline field) ++ "}" in
      fieldsLoop (S i) rest acc
  end.

(** [s[:len(s)-1]] for a non-empty [s] *)
Fixpoint dropLast (s : string) : string :=
  match s with
  | EmptyString => EmptyString
  | String c EmptyString => EmptyString
  | String c rest => String c (dropLast rest)
  end.

Definition fieldsJSON (alert : Alert) : string :=
  let fj := fieldsLoop 0 (Fields alert) "[" ++ "]" in
  if negb (String.eqb (Logs alert) "") then
    dropLast fj ++ ",{" ++ dq ++ "name" ++ dq ++ ":" ++ dq ++ "Container Logs" ++ dq
      ++ "," ++ dq ++ "value" ++ dq ++ ":" ++ dq ++ Logs alert ++ dq
      ++ "," ++ dq ++ "inline" ++ dq ++ ":false}]"
  else fj.

(** The body of the request is the [Sprintf] of the payload template.
    [payloadHead] is the text up to the place of the timestamp verb,
    [payloadTail] the text after it. *)
Definition payloadHead (alert : Alert) : string :=
  let green := existsb isSuccessField (Fields alert) in
  let color := if green then 65280 else 16711680 in
  let emoji := if green then emojiGreen else emojiRed in
  let title := emoji ++ " " ++ Title alert in
  "{" ++ nl
  ++ tab ++ tab ++ dq ++ "embeds" ++ dq ++ ": [{" ++ nl
  ++ tab ++ tab ++ tab ++ dq ++ "title" ++ dq ++ ": " ++ dq ++ title ++ dq ++ "," ++ nl
  ++ tab ++ tab ++ tab ++ dq ++ "description" ++ dq ++ ": " ++ dq ++ Description alert ++ dq ++ "," ++ nl
  ++ tab ++ tab ++ tab ++ dq ++ "color" ++ dq ++ ": " ++ pretty color ++ "," ++ nl
  ++ tab ++ tab ++ tab ++ dq ++ "fields" ++ dq ++ ": " ++ fieldsJSON alert ++ "," ++ nl
  ++ tab ++ tab ++ tab ++ dq ++ "timestamp" ++ dq ++ ": " ++ dq.

Definition payloadTail : string :=
  dq ++ "," ++ nl
  ++ tab ++ tab ++ tab ++ dq ++ "footer" ++ dq ++ ": {" ++ nl
  ++ tab ++ tab ++ tab ++ tab ++ dq ++ "text" ++ dq ++ ": " ++ dq ++ "sun v" ++ version ++ dq ++ "," ++ nl
  ++ tab ++ tab ++ tab ++ tab ++ dq ++ "icon_url" ++ dq ++ ": " ++ dq
       ++ "https://avatars.githubusercontent.com/u/221393700" ++ dq ++ nl
  ++ tab ++ tab ++ tab ++ "}" ++ nl
  ++ tab ++ tab ++ "}]" ++ nl
  ++ tab ++ "}".

Definition jsonPayload (alert : Alert) (stamp : string) : string :=
  payloadHead alert ++ stamp ++ payloadTail.

(** main.go, [sendWebhookMessage]; [now] is the clock reading printed into
    the payload.  A request that [client.Do] receives is appended to
    [posts], whatever the outcome of the exchange. *)
Definition sendWebhookMessage (cfg : Config) (rt : Runtime) (now : Time)
    (alert : Alert) (w : World) : World :=
  if negb (isLeader w) then w
  else
    let body := jsonPayload alert (rt_formatRFC3339 rt now) in
    if negb (rt_urlParses rt (WebhookUrl cfg)) then w
    else
      mkWorld (stores w) (isLeader w)
        (posts w ++ [mkHttpRequest "POST" (WebhookUrl cfg) "application/json" body])%list.

(** ** Well-formed JSON texts (RFC 8259)

    A pushdown recogniser that reads the text one byte at a time: the
    stack holds the open containers, the mode says what may come next.
    Bytes from 128 upwards are taken as parts of UTF-8 sequences and are
    accepted inside strings only. *)

Module Json.

Inductive container := InObject | InArray.

Inductive mode :=
  | MValue                      (* a value must start *)
  | MArrayFirst                 (* after an opening bracket: a value or the closing one *)
  | MObjectFirst                (* after an opening brace: a key or the closing one *)
  | MObjectKey                  (* after a comma in an object: a key *)
  | MString (key : bool)        (* inside a string *)
  | MEscape (key : bool)        (* after a backslash *)
  | MHex (key : bool) (n : nat) (* [S n] hex digits to come *)
  | MColon                      (* after a key *)
  | MAfter                      (* after a value *)
  | MLiteral (rest : string)    (* the rest of true, false or null *)
  | MMinus                      (* number: after the minus sign *)
  | MZero                       (* number: after a leading 0 *)
  | MInt                        (* number: in the integer digits *)
  | MDot                        (* number: after the decimal point *)
  | MFrac                       (* number: in the fraction digits *)
  | MExp                        (* number: after e or E *)
  | MExpSign                    (* number: after the sign of the exponent *)
  | MExpDigits.                 (* number: in the exponent digits *)

Record state := mkState { st_mode : mode; st_stack : list container }.

Definition code (c : ascii) : N := N_of_ascii c.

Definition isWs (c : ascii) : bool :=
  let n := code c in ((n =? 32) || (n =? 9) || (n =? 10) || (n =? 13))%N.
Definition isDigit (c : ascii) : bool :=
  let n := code c in ((48 <=? n) && (n <=? 57))%N.
Definition isDigit19 (c : ascii) : bool :=
  let n := code c in ((49 <=? n) && (n <=? 57))%N.
Definition isHex (c : ascii) : bool :=
  let n := code c in
  (((48 <=? n) && (n <=? 57)) || ((65 <=? n) && (n <=? 70))
   || ((97 <=? n) && (n <=? 102)))%N.
Definition isByte (c : ascii) (n : N) : bool := (code c =? n)%N.

(** After a complete value: back to the enclosing container. *)
Definition afterValue (stack : list container) : option state :=
  Some (mkState MAfter stack).

(** The first byte of a value. *)
Definition startValue (c : ascii) (stack : list container) : option state :=
  if isByte c 123 then Some (mkState MObjectFirst (InObject :: stack))
  else if isByte c 91 then Some (mkState MArrayFirst (InArray :: stack))
  else if isByte c 34 then Some (mkState (MString false) stack)
  else if isByte c 45 then Some (mkState MMinus stack)
  else if isByte c 48 then Some (mkState MZero stack)
  else if isDigit19 c then Some (mkState MInt stack)
  else if isByte c 116 then Some (mkState (MLiteral "rue") stack)
  else if isByte c 102 then Some (mkState (MLiteral "alse") stack)
  else if isByte c 110 then Some (mkState (MLiteral "ull") stack)
  else None.

(** A byte that follows a complete value. *)
Definition afterStep (c : ascii) (stack : list container) : option state :=
  if isWs c then Some (mkState MAfter stack)
  else match stack with
       | InArray :: below =>
           if isByte c 44 then Some (mkState MValue stack)
           else if isByte c 93 then afterValue below
           else None
       | InObject :: below =>
           if isByte c 44 then Some (mkState MObjectKey stack)
           else if isByte c 125 then afterValue below
           else None
       | [] => None
       end.

Definition step (c : ascii) (st : state) : option state :=
  let stack := st_stack st in
  match st_mode st with
  | MValue => if isWs c then Some st else startValue c stack
  | MArrayFirst =>
      if isWs c then Some st
      else if isByte c 93 then afterValue (tail stack)
      else startValue c stack
  | MObjectFirst =>
      if isWs c then Some st
      else if isByte c 125 then afterValue (tail stack)
      else if isByte c 34 then Some (mkState (MString true) stack)
      else None
  | MObjectKey =>
      if isWs c then Some st
      else if isByte c 34 then Some (mkState (MString true) stack)
      else None
  | MString key =>
      if isByte c 34 then
        (if key then Some (mkState MColon stack) else afterValue stack)
      else if isByte c 92 then Some (mkState (MEscape key) stack)
      else if (code c <? 32)%N then None
      else Some st
  | MEscape key =>
      if isByte c 34 || isByte c 92 || isByte c 47 || isByte c 98 || isByte c 102
         || isByte c 110 || isByte c 114 || isByte c 116
      then Some (mkState (MString key) stack)
      else if isByte c 117 then Some (mkState (MHex key 3) stack)
      else None
  | MHex key n =>
      if isHex c then
        match n with
        | O => Some (mkState (MString key) stack)
        | S n' => Some (mkState (MHex key n') stack)
        end
      else None
  | MColon =>
      if isWs c then Some st
      else if isByte c 58 then Some (mkState MValue stack)
      else None
  | MAfter => afterStep c stack
  | MLiteral rest =>
      match rest with
      | String d rest' =>
          if Ascii.eqb c d then
            match rest' with
            | EmptyString => afterValue stack
            | _ => Some (mkState (MLiteral rest') stack)
            end
          else None
      | EmptyString => None
      end
  | MMinus =>
      if isByte c 48 then Some (mkState MZero stack)
      else if isDigit19 c then Some (mkState MInt stack)
      else None
  | MZero =>
      if isByte c 46 then Some (mkState MDot stack)
      else if isByte c 101 || isByte c 69 then Some (mkState MExp stack)
      else afterStep c stack
  | MInt =>
      if isDigit c then Some st
      else if isByte c 46 then Some (mkState MDot stack)
      else if isByte c 101 || isByte c 69 then Some (mkState MExp stack)
      else afterStep c stack
  | MDot => if isDigit c then Some (mkState MFrac stack) else None
  | MFrac =>
      if isDigit c then Some st
      else if isByte c 101 || isByte c 69 then Some (mkState MExp stack)
      else afterStep c stack
  | MExp =>
      if isByte c 43 || isByte c 45 then Some (mkState MExpSign stack)
      else if isDigit c then Some (mkState MExpDigits stack)
      else None
  | MExpSign => if isDigit c then Some (mkState MExpDigits stack) else None
  | MExpDigits => if isDigit c then Some st else afterStep c stack
  end.

(** Reading a text from a state; [None] is the dead state. *)
Fixpoint run (s : string) (st : option state) : option state :=
  match s with
  | EmptyString => st
  | String c rest => run rest (match st with Some x => step c x | None => None end)
  end.

(** The text ended: a complete value at top level. *)
Definition accepting (st : state) : bool :=
  match st_stack st, st_mode st with
  | [], (MAfter | MZero | MInt | MFrac | MExpDigits) => true
  | _, _ => false
  end.

Definition initial : state := mkState MValue [].

Definition wellFormed (s : string) : bool :=
  match run s (Some initial) with
  | Some st => accepting st
  | None => false
  end.

End Json.

(** ** Longhorn volumes (longhorn.go, longhorn_status.go, longhorn_alerts.go) *)

(** [float64(n)] for an [int64] [n]. *)
Definition float64_of_int64 (n : Z) : float :=
  if 0 <=? n then PrimFloat.of_uint63 (Uint63.of_Z n)
  else if n =? - 2 ^ 63 then (-9223372036854775808)%float
  else PrimFloat.opp (PrimFloat.of_uint63 (Uint63.of_Z (- n))).

(** [float64(actualSize) / float64(capacity) * 100] *)
Definition usagePercentOf (capacity actualSize : Z) : float :=
  PrimFloat.mul (PrimFloat.div (float64_of_int64 actualSize) (float64_of_int64 capacity))
    100%float.

(** [1024 * 1024 * 1024] as a float constant *)
Definition GiB : float := 1073741824%float.

(** longhorn.go, [markLonghornAlertSent] *)
Definition markSentIn (key : string) (m : gmap string longhornUnitState)
    : gmap string longhornUnitState :=
  match m !! key with
  | Some state =>
      let u := lh_unitState state in
      <[key := mkLonghornUnitState
                 (mkUnitState (hasError u) (lastSeen u) (lastMessage u) (firstError u) true)
                 (lh_resourceType state) (lh_capacity state) (lh_usage state)
                 (lh_robustness state) (lh_node state) (lh_namespace state)]> m
  | None => m
  end.

Definition markLonghornAlertSent (resourceType key : string) (s : Stores) : Stores :=
  if String.eqb resourceType "volume" then
    set_longhornVolumeStates (markSentIn key (longhornVolumeStates s)) s
  else if String.eqb resourceType "replica" then
    set_longhornReplicaStates (markSentIn key (longhornReplicaStates s)) s
  else if String.eqb resourceType "engine" then
    set_longhornEngineStates (markSentIn key (longhornEngineStates s)) s
  else if String.eqb resourceType "node" then
    set_longhornNodeStates (markSentIn key (longhornNodeStates s)) s
  else if String.eqb resourceType "backup" then
    set_longhornBackupStates (markSentIn key (longhornBackupStates s)) s
  else s.

(** longhorn_alerts.go, [sendLonghornVolumeAlert]: the alert it builds. *)
Definition longhornVolumeAlert (rt : Runtime) (name namespace state robustness : string)
    (capacity actualSize : Z) (errorMessage alertType : string) : Alert :=
  let usagePercent :=
    if (0 <? capacity) && (0 <? actualSize) then usagePercentOf capacity actualSize
    else 0%float in
  let capacityGB := PrimFloat.div (float64_of_int64 capacity) GiB in
  let usageGB := PrimFloat.div (float64_of_int64 actualSize) GiB in
  let fields :=
    [ mkField "Volume" name true;
      mkField "Namespace" namespace true;
      mkField "State" state true;
      mkField "Robustness" robustness true;
      mkField "Alert Type" alertType true ] in
  let fields :=
    if 0 <? capacity then
      (fields ++ [mkField "Capacity" (rt_formatFloat rt 2 capacityGB ++ " GB") true])%list
    else fields in
  let fields :=
    if 0 <? actualSize then
      (fields ++ [mkField "Usage"
                    (rt_formatFloat rt 2 usageGB ++ " GB ("
                     ++ rt_formatFloat rt 1 usagePercent ++ "%)") true])%list
    else fields in
  mkAlert ("Longhorn Volume Alert on " ++ namespace)
    ("Volume " ++ name ++ ": " ++ errorMessage) fields "".

Definition sendLonghornVolumeAlert (cfg : Config) (rt : Runtime) (now : Time)
    (name namespace state robustness : string) (capacity actualSize : Z)
    (errorMessage alertType : string) (w : World) : World :=
  sendWebhookMessage cfg rt now
    (longhornVolumeAlert rt name namespace state robustness capacity actualSize
       errorMessage alertType) w.

(** The alert of [checkLonghornVolumeRecovery]. *)
Definition longhornVolumeRecoveryAlert (name namespace : string) : Alert :=
  mkAlert "Longhorn Volume Recovery"
    ("Volume " ++ name ++ " in namespace " ++ namespace ++ " has recovered")
    [ mkField "Volume" name true;
      mkField "Namespace" namespace true;
      mkField "State" "Healthy" true ] "".

(** longhorn_alerts.go, [checkLonghornVolumeRecovery] *)
Definition checkLonghornVolumeRecovery (cfg : Config) (rt : Runtime) (now : Time)
    (key name namespace : string) (w : World) : World :=
  let '(prevState, exists_) :=
    commaOk zeroLonghornUnitState (longhornVolumeStates (stores w) !! key) in
  if exists_ && hasError (lh_unitState prevState) && alertSent (lh_unitState prevState)
  then sendWebhookMessage cfg rt now (longhornVolumeRecoveryAlert name namespace) w
  else w.

(** The verdict computed at the head of [processLonghornVolumeStatus]:
    [(hasError, errorMessage, alertType)]. *)
Definition volumeVerdict (cfg : Config) (rt : Runtime) (state robustness : string)
    (capacity actualSize : Z) : bool * string * string :=
  let verdict :=
    if String.eqb state "detached" || String.eqb state "attached" then
      if String.eqb robustness "healthy" then (false, "", "")
      else if String.eqb robustness "degraded" then (true, "Volume is degraded", "degraded")
      else if String.eqb robustness "faulted" then (true, "Volume is faulted", "faulted")
      else (false, "", "")
    else if String.eqb state "creating" || String.eqb state "attaching"
            || String.eqb state "detaching" then (false, "", "")
    else (true, "Volume in unknown state: " ++ state, "unknown_state") in
  if (0 <? capacity) && (0 <? actualSize) then
    let usagePercent := usagePercentOf capacity actualSize in
    let remaining := wrap64 (capacity - actualSize) in
    if PrimFloat.ltb (VolumeUsagePercent cfg) usagePercent then
      (true, "Volume usage critical: " ++ rt_formatFloat rt 1 usagePercent ++ "% used",
       "usage_critical")
    else if remaining <? VolumeCapacityCritical cfg then
      (true, "Volume capacity critical: " ++ pretty remaining ++ " bytes remaining",
       "capacity_critical")
    else verdict
  else verdict.

(** longhorn_status.go, [processLonghornVolumeStatus].  The clock is read
    by the update ([tUpdate]), by the gate ([tGate]) and when the payload
    is stamped ([tSend]). *)
Definition processLonghornVolumeStatus (cfg : Config) (rt : Runtime)
    (tUpdate tGate tSend : Time) (name namespace state robustness : string)
    (capacity actualSize : Z) (w : World) : World :=
  let key := slashKey namespace name in
  let '(hasErr, errorMessage, alertType) :=
    volumeVerdict cfg rt state robustness capacity actualSize in
  let w := on_stores (updateLonghornVolumeState tUpdate key hasErr errorMessage state
                        robustness capacity actualSize namespace) w in
  if hasErr && shouldSendLonghornAlert cfg tGate "volume" key (stores w) then
    let w := sendLonghornVolumeAlert cfg rt tSend name namespace state robustness
               capacity actualSize errorMessage alertType w in
    on_stores (markLonghornAlertSent "volume" key) w
  else if negb hasErr then
    checkLonghornVolumeRecovery cfg rt tSend key name namespace w
  else w.

(** The order the specification describes: the recovery check reads the
    entry before the upsert replaces it. *)
Definition processLonghornVolumeHealthyAsSpecified (cfg : Config) (rt : Runtime)
    (tUpdate tSend : Time) (name namespace state robustness : string)
    (capacity actualSize : Z) (w : World) : World :=
  let key := slashKey namespace name in
  let w := checkLonghornVolumeRecovery cfg rt tSend key name namespace w in
  on_stores (updateLonghornVolumeState tUpdate key false "" state robustness
               capacity actualSize namespace) w.

(** ** Sample alerts, runtime and worlds *)

Definition rtExample : Runtime :=
  mkRuntime (fun _ => true) (fun _ => "2026-10-30T12:00:00Z") (fun _ _ => "0.0")
    (fun _ => "0").

Definition podFailureAlert : Alert :=
  mkAlert "Pod Failure on default" "Pod web-0 in namespace default has failed"
    [ mkField "Container" "web" true;
      mkField "State" "Terminated" true;
      mkField "Exit Code" "137" true;
      mkField "Reason" "OOMKilled" true ] "".

(** A double quote in the title. *)
Definition quotedTitleAlert : Alert :=
  mkAlert ("Node " ++ dq ++ "n1" ++ dq ++ ": Ready") "Node n1 has condition Ready = False"
    [ mkField "Node" "n1" true ] "".

(** A backslash in a field value. *)
Definition backslashFieldAlert : Alert :=
  mkAlert "Node n1: Ready" "Node n1 has condition Ready = False"
    [ mkField "Node" "n1" true;
      mkField "Message" ("cannot stat C:" ++ backslash ++ "kubelet") false ] "".

(** Two lines of container logs. *)
Definition newlineLogsAlert : Alert :=
  mkAlert "Pod Failure on default" "Pod web-0 in namespace default has failed"
    [ mkField "Container" "web" true;
      mkField "State" "Terminated" true ]
    ("panic: boom" ++ nl ++ "exit status 2").

(** A leader whose volume [longhorn-system/vol-a] is in error, the alert
    sent. *)
Definition degradedVolumeWorld : World :=
  mkWorld
    (set_longhornVolumeStates
       {[ "longhorn-system/vol-a" :=
            mkLonghornUnitState (mkUnitState true 1000 "Volume is degraded" 1000 true)
              "volume" 0 0 "degraded" "" "longhorn-system" ]}
       emptyStores)
    true [].

(** ** Untyped objects (k8s.io/apimachinery, [unstructured])

    The values of a [map[string]interface{}] decoded from JSON.  A map is
    a list of bindings; the first binding of a key is the one a read
    finds. *)

#[local] Set Warnings "-register-all".

Inductive value :=
  | VNil
  | VBool (b : bool)
  | VInt (n : Z)
  | VFloat (f : float)
  | VString (s : string)
  | VSlice (items : list value)
  | VMap (bindings : list (string * value)).

(** [Unstructured.Object] *)
Definition Object := list (string * value).

(** [m[key]] *)
Fixpoint mapGet {A : Type} (key : string) (m : list (string * A)) : option A :=
  match m with
  | [] => None
  | (k, v) :: rest => if String.eqb k key then Some v else mapGet key rest
  end.

(** The three outcomes [(val, found, err)] of the nested accessors. *)
Inductive nested (A : Type) :=
  | Found (val : A)
  | NotFound
  | NestedError.
Arguments Found {A} val.
Arguments NotFound {A}.
Arguments NestedError {A}.

(** [unstructured.NestedFieldNoCopy] *)
Fixpoint NestedFieldNoCopy (val : value) (fields : list string) : nested value :=
  match fields with
  | [] => Found val
  | field :: rest =>
      match val with
      | VNil => NotFound
      | VMap m =>
          match mapGet field m with
          | Some val' => NestedFieldNoCopy val' rest
          | None => NotFound
          end
      | _ => NestedError
      end
  end.

(** [unstructured.NestedString] *)
Definition NestedString (obj : Object) (fields : list string) : nested string :=
  match NestedFieldNoCopy (VMap obj) fields with
  | Found (VString s) => Found s
  | Found _ => NestedError
  | NotFound => NotFound
  | NestedError => NestedError
  end.

(** [unstructured.NestedMap]; the deep copy it returns is the value. *)
Definition NestedMap (obj : Object) (fields : list string) : nested Object :=
  match NestedFieldNoCopy (VMap obj) fields with
  | Found (VMap m) => Found m
  | Found _ => NestedError
  | NotFound => NotFound
  | NestedError => NestedError
  end.

(** The conversion loop of [NestedStringMap]: [strMap[k] = str] for every
    binding, given up at the first value that is not a string. *)
Fixpoint toStringMap (m : list (string * value)) : option (gmap string string) :=
  match m with
  | [] => Some ∅
  | (k, VString str) :: rest =>
      match toStringMap rest with
      | Some strMap => Some (<[k := str]> strMap)
      | None => None
      end
  | _ :: _ => None
  end.

(** [unstructured.NestedStringMap] *)
Definition NestedStringMap (obj : Object) (fields : list string)
    : nested (gmap string string) :=
  match NestedMap obj fields with
  | Found m =>
      match toStringMap m with
      | Some strMap => Found strMap
      | None => NestedError
      end
  | NotFound => NotFound
  | NestedError => NestedError
  end.

(** The string of a [val, _, _ := NestedString(...)] read: empty unless
    found. *)
Definition stringOr (r : nested string) : string :=
  match r with
  | Found s => s
  | _ => ""
  end.

(** [u.GetKind()], [u.GetName()], [u.GetNamespace()] *)
Definition GetKind (u : Object) : string := stringOr (NestedString u ["kind"]).
Definition GetName (u : Object) : string := stringOr (NestedString u ["metadata"; "name"]).
Definition GetNamespace (u : Object) : string :=
  stringOr (NestedString u ["metadata"; "namespace"]).

(** ** [json.Marshal] on untyped objects

    Strings are quoted as [encoding/json] does with HTML escaping on: the
    quote and the backslash get a backslash, the control characters their
    short or [\u00XX] form, and [<], [>], [&] the [\u00XX] form.  Strings
    are taken to be valid UTF-8 without U+2028 and U+2029, so bytes from
    128 upwards are copied.  The keys of a map are written in byte
    order. *)

Module Marshal.

Definition hexDigit (n : N) : ascii :=
  ascii_of_N (if (n <? 10)%N then 48 + n else 87 + n)%N.

(** The text written for one byte of a string. *)
Definition escByte (c : ascii) : string :=
  let n := N_of_ascii c in
  if (128 <=? n)%N then String c ""
  else if (n =? 34)%N || (n =? 92)%N then backslash ++ String c ""
  else if (n =? 8)%N then backslash ++ "b"
  else if (n =? 12)%N then backslash ++ "f"
  else if (n =? 10)%N then backslash ++ "n"
  else if (n =? 13)%N then backslash ++ "r"
  else if (n =? 9)%N then backslash ++ "t"
  else if (n <? 32)%N || (n =? 60)%N || (n =? 62)%N || (n =? 38)%N then
    backslash ++ "u00" ++ String (hexDigit (n / 16)) (String (hexDigit (n mod 16)) "")
  else String c "".

Fixpoint escape (s : string) : string :=
  match s with
  | EmptyString => EmptyString
  | String c rest => escByte c ++ escape rest
  end.

Definition quote (s : string) : string := dq ++ escape s ++ dq.

(** The bindings of an object, each value already printed, joined by
    commas. *)
Fixpoint joinBindings (l : list (string * string)) : string :=
  match l with
  | [] => ""
  | [(k, text)] => quote k ++ ":" ++ text
  | (k, text) :: rest => quote k ++ ":" ++ text ++ "," ++ joinBindings rest
  end.

Fixpoint joinItems (l : list string) : string :=
  match l with
  | [] => ""
  | [text] => text
  | text :: rest => text ++ "," ++ joinItems rest
  end.

(** Bindings in the byte order of their keys. *)
Definition keyLe (a b : string * string) : Prop := String.le (fst a) (fst b).

#[global] Instance keyLe_dec : RelDecision keyLe.
Proof. intros a b. unfold keyLe. apply _. Defined.

Definition sortByKey (l : list (string * string)) : list (string * string) :=
  merge_sort keyLe l.

Section WithFloats.
Variable floatText : float → string.

Fixpoint marshal (v : value) : string :=
    match v with
    | VNil => "null"
    | VBool b => fmtBool b
    | VInt n => pretty n
    | VFloat f => floatText f
    | VString s => quote s
    | VSlice items => "[" ++ joinItems (map marshal items) ++ "]"
    | VMap bindings =>
        "{" ++ joinBindings
                 (sortByKey (map (fun kv => (fst kv, marshal (snd kv))) bindings))
            ++ "}"
    end.
End WithFloats.

(** [json.Marshal] of a [map[string]string]. *)
Definition marshalStringMap (m : gmap string string) : string :=
  "{" ++ joinBindings
           (sortByKey (map (fun kv => (fst kv, quote (snd kv))) (map_to_list m)))
      ++ "}".

End Marshal.

(** ** Comparing the dry-run result with the live object (gitops_compare.go) *)



(** The closure [cleanLabels] *)
Definition cleanLabels (labels : gmap string string) : gmap string string :=
  filter (fun kv => ¬ (kv.1 = "app.kubernetes.io/managed-by"
                       ∨ kv.1 = "helm.sh/chart"
                       ∨ kv.1 = "app.kubernetes.io/instance"
                       ∨ kv.1 = "app.kubernetes.io/version")) labels.

(** The closure [cleanAnnotations] *)
Definition cleanAnnotations (annotations : gmap string string) : gmap string string :=
  filter (fun kv => ¬ (kv.1 = "kubectl.kubernetes.io/last-applied-configuration"
                       ∨ kv.1 = "deployment.kubernetes.io/revision"
                       ∨ kv.1 = "meta.helm.sh/release-name"
                       ∨ kv.1 = "meta.helm.sh/release-namespace")) annotations.

(** The first two results of a nested read whose error is dropped
    ([m, found, _ := ...]): the zero value and [false] unless found. *)
Definition foundOr {A : Type} (zero : A) (r : nested A) : A * bool :=
  match r with
  | Found v => (v, true)
  | _ => (zero, false)
  end.

(** gitops_compare.go, [resourcesEqual]; a nil pointer is [None]. *)
Definition resourcesEqual (rt : Runtime) (dryRunResult actual : option Object) : bool :=
  match dryRunResult, actual with
  | None, None => true
  | None, Some _ | Some _, None => false
  | Some dryRun, Some act =>
      let '(dryRunSpec, dryRunSpecExists) := foundOr [] (NestedMap dryRun ["spec"]) in
      let '(actualSpec, actualSpecExists) := foundOr [] (NestedMap act ["spec"]) in
      if negb (Bool.eqb dryRunSpecExists actualSpecExists) then false
      else if dryRunSpecExists
              && negb (String.eqb (Marshal.marshal (rt_jsonFloat rt) (VMap dryRunSpec))
                                  (Marshal.marshal (rt_jsonFloat rt) (VMap actualSpec)))
      then false
      else
        let '(dryRunMeta, dryRunMetaExists) := foundOr [] (NestedMap dryRun ["metadata"]) in
        let '(actualMeta, actualMetaExists) := foundOr [] (NestedMap act ["metadata"]) in
        if dryRunMetaExists && actualMetaExists then
          let dryRunLabels := fst (foundOr ∅ (NestedStringMap dryRunMeta ["labels"])) in
          let actualLabels := fst (foundOr ∅ (NestedStringMap actualMeta ["labels"])) in
          if negb (String.eqb (Marshal.marshalStringMap (cleanLabels dryRunLabels))
                              (Marshal.marshalStringMap (cleanLabels actualLabels)))
          then false
          else
            let dryRunAnnotations :=
              fst (foundOr ∅ (NestedStringMap dryRunMeta ["annotations"])) in
            let actualAnnotations :=
              fst (foundOr ∅ (NestedStringMap actualMeta ["annotations"])) in
            if negb (String.eqb
                       (Marshal.marshalStringMap (cleanAnnotations dryRunAnnotations))
                       (Marshal.marshalStringMap (cleanAnnotations actualAnnotations)))
            then false
            else true
        else true
  end.

(** ** GitOps verdict handling (gitops_status.go, gitops_compare.go) *)

(** [schema.GroupVersionResource] *)
Record GroupVersionResource := mkGVR {
  gvr_Group : string;
  gvr_Version : string;
  gvr_Resource : string
}.

(** The outcome of a [Get] on the dynamic client. *)
Inductive getResult :=
  | GetOk (obj : Object)
  | GetNotFound          (* an error for which [errors.IsNotFound] holds *)
  | GetFailed.           (* any other error *)

(** The cluster as the comparison sees it: the discovery cache once it is
    initialised, the [Get] of a live object and the server-side apply in
    dry-run mode ([None] when it returns an error).  The namespace argument
    is [Some ns] for a call through [.Namespace(ns)] and [None] for a
    cluster-scoped call. *)
Record Cluster := mkCluster {
  gvrCache : gmap string GroupVersionResource;
  clusterGet : GroupVersionResource → option string → string → getResult;
  applyDryRun : GroupVersionResource → option string → string → Object → option Object
}.

(** The fields of [gitOpsRepositoryState] that the comparison reads. *)
Record gitOpsRepositoryState := mkRepoState {
  rs_name : string;
  rs_url : string;
  rs_path : string;
  rs_branch : string;
  rs_localPath : string
}.

(** gitops_compare.go, [getGVRForKind] *)
Definition getGVRForKind (cl : Cluster) (kind : string) : option GroupVersionResource :=
  gvrCache cl !! kind.

(** gitops_status.go, [markGitOpsAlertSent] *)
Definition markGitOpsAlertSent (key : string) (s : Stores) : Stores :=
  match gitOpsStates s !! key with
  | Some state =>
      let u := go_unitState state in
      set_gitOpsStates
        (<[key := mkGitOpsState
                    (mkUnitState (hasError u) (lastSeen u) (lastMessage u) (firstError u) true)
                    (go_repositoryName state) (go_resourceKind state)
                    (go_resourceName state) (go_namespace state) (go_mismatchType state)
                    (go_expectedHash state) (go_actualHash state)]> (gitOpsStates s)) s
  | None => s
  end.

(** The alert built by [sendGitOpsMismatchAlert]; a nil pointer is
    [None]. *)
Definition gitOpsMismatchAlert (repositoryName : string) (expected actual : option Object)
    (mismatchType : string) : Alert :=
  let '(resourceName, resourceKind, namespace) :=
    match expected, actual with
    | Some e, _ => (GetName e, GetKind e, GetNamespace e)
    | None, Some a => (GetName a, GetKind a, GetNamespace a)
    | None, None => ("", "", "")
    end in
  let res := resourceKind ++ "/" ++ resourceName in
  let '(title, description) :=
    if String.eqb mismatchType "missing" then
      ("GitOps Alert: Missing Resource in " ++ repositoryName,
       "Resource " ++ res ++ " is defined in Git but missing from cluster")
    else if String.eqb mismatchType "different" then
      ("GitOps Alert: Resource Drift in " ++ repositoryName,
       "Resource " ++ res ++ " differs between Git and cluster")
    else if String.eqb mismatchType "extra" then
      ("GitOps Alert: Extra Resource in " ++ repositoryName,
       "Resource " ++ res ++ " exists in cluster but not in Git")
    else
      ("GitOps Alert: Unknown Issue in " ++ repositoryName,
       "Unknown mismatch type " ++ mismatchType ++ " for resource " ++ res) in
  let fields :=
    [ mkField "Repository" repositoryName true;
      mkField "Resource Kind" resourceKind true;
      mkField "Resource Name" resourceName true ] in
  let fields :=
    if negb (String.eqb namespace "") then
      (fields ++ [mkField "Namespace" namespace true])%list
    else fields in
  let fields := (fields ++ [mkField "Mismatch Type" mismatchType true])%list in
  let fields :=
    if String.eqb mismatchType "missing" then
      (fields ++ [mkField "Action Required"
                    "Apply the resource to the cluster or remove from Git" false])%list
    else if String.eqb mismatchType "different" then
      (fields ++ [mkField "Action Required"
                    "Review differences and either update Git or apply changes to cluster"
                    false])%list
    else if String.eqb mismatchType "extra" then
      (fields ++ [mkField "Action Required"
                    "Remove resource from cluster or add to Git repository" false])%list
    else fields in
  mkAlert title description fields "".

Definition sendGitOpsMismatchAlert (cfg : Config) (rt : Runtime) (now : Time)
    (repositoryName : string) (expected actual : option Object) (mismatchType : string)
    (w : World) : World :=
  sendWebhookMessage cfg rt now
    (gitOpsMismatchAlert repositoryName expected actual mismatchType) w.

(** The alert built by [checkGitOpsRecovery]. *)
Definition gitOpsRecoveryAlert (repositoryName resourceKind resourceName namespace : string)
    : Alert :=
  let fields :=
    [ mkField "Repository" repositoryName true;
      mkField "Resource Kind" resourceKind true;
      mkField "Resource Name" resourceName true ] in
  let fields :=
    if negb (String.eqb namespace "") then
      (fields ++ [mkField "Namespace" namespace true])%list
    else fields in
  let fields := (fields ++ [mkField "Status" inSyncValue true])%list in
  mkAlert ("GitOps Recovery: " ++ repositoryName)
    ("Resource " ++ resourceKind ++ "/" ++ resourceName
     ++ " is now in sync between Git and cluster") fields "".

(** gitops_status.go, [checkGitOpsRecovery] *)
Definition checkGitOpsRecovery (cfg : Config) (rt : Runtime) (now : Time)
    (key repositoryName resourceKind resourceName namespace : string) (w : World) : World :=
  let '(prevState, exists_) :=
    commaOk zeroGitOpsState (gitOpsStates (stores w) !! key) in
  if exists_ && hasError (go_unitState prevState) && alertSent (go_unitState prevState)
  then sendWebhookMessage cfg rt now
         (gitOpsRecoveryAlert repositoryName resourceKind resourceName namespace) w
  else w.

(** gitops_compare.go, [getResourceDescription].  The case [extra] reads
    the live object; no caller passes it a nil one. *)
Definition getResourceDescription (expected : Object) (actual : option Object)
    (mismatchType : string) : string :=
  if String.eqb mismatchType "missing" then
    GetKind expected ++ "/" ++ GetName expected ++ " is missing from cluster"
  else if String.eqb mismatchType "different" then
    GetKind expected ++ "/" ++ GetName expected ++ " differs between Git and cluster"
  else if String.eqb mismatchType "extra" then
    match actual with
    | Some a => GetKind a ++ "/" ++ GetName a ++ " exists in cluster but not in Git"
    | None => "/ exists in cluster but not in Git"
    end
  else "Unknown mismatch type: " ++ mismatchType.

(** [fmt.Sprintf("%s/%s/%s/%s", repo, namespace, kind, name)] *)
Definition gitOpsKey (repo namespace kind name : string) : string :=
  repo ++ "/" ++ namespace ++ "/" ++ kind ++ "/" ++ name.

(** gitops_compare.go, [processGitOpsMismatch] *)
Definition processGitOpsMismatch (cfg : Config) (rt : Runtime)
    (tUpdate tGate tSend : Time) (repoState : gitOpsRepositoryState)
    (expected : Object) (actual : option Object) (mismatchType : string)
    (w : World) : World :=
  let kind := GetKind expected in
  let name := GetName expected in
  let namespace := GetNamespace expected in
  let key := gitOpsKey (rs_name repoState) namespace kind name in
  let w := on_stores
             (updateGitOpsState tUpdate key true
                ("Resource " ++ mismatchType ++ ": "
                 ++ getResourceDescription expected actual mismatchType)
                (rs_name repoState) kind name namespace mismatchType "" "") w in
  if shouldSendGitOpsAlert cfg tGate key (stores w) then
    let w := sendGitOpsMismatchAlert cfg rt tSend (rs_name repoState) (Some expected)
               actual mismatchType w in
    on_stores (markGitOpsAlertSent key) w
  else w.

(** gitops_compare.go, [processGitOpsMatch] *)
Definition processGitOpsMatch (cfg : Config) (rt : Runtime) (tUpdate tSend : Time)
    (repoState : gitOpsRepositoryState) (manifest : Object) (w : World) : World :=
  let kind := GetKind manifest in
  let name := GetName manifest in
  let namespace := GetNamespace manifest in
  let key := gitOpsKey (rs_name repoState) namespace kind name in
  let w := checkGitOpsRecovery cfg rt tSend key (rs_name repoState) kind name namespace w in
  on_stores (updateGitOpsState tUpdate key false "" (rs_name repoState) kind name
               namespace "" "" "") w.

(** The server-side apply of [expected] in dry-run mode, namespaced or
    cluster-scoped after the namespace of the manifest. *)
Definition dryRunApply (cl : Cluster) (gvr : GroupVersionResource) (expected : Object)
    : option Object :=
  if negb (String.eqb (GetNamespace expected) "") then
    applyDryRun cl gvr (Some (GetNamespace expected)) (GetName expected) expected
  else
    applyDryRun cl gvr None (GetName expected) expected.

(** gitops_compare.go, [resourcesAreDifferent] *)
Definition resourcesAreDifferent (rt : Runtime) (cl : Cluster) (expected actual : Object)
    : bool :=
  match getGVRForKind cl (GetKind expected) with
  | None => false
  | Some gvr =>
      match dryRunApply cl gvr expected with
      | None => false
      | Some result => negb (resourcesEqual rt (Some result) (Some actual))
      end
  end.

(** The read of the live object, namespaced or cluster-scoped after the
    namespace of the manifest. *)
Definition liveGet (cl : Cluster) (gvr : GroupVersionResource) (manifest : Object)
    : getResult :=
  if negb (String.eqb (GetNamespace manifest) "") then
    clusterGet cl gvr (Some (GetNamespace manifest)) (GetName manifest)
  else
    clusterGet cl gvr None (GetName manifest).

(** The errors that [compareManifestWithCluster] returns. *)
Inductive compareError :=
  | ErrGVR (kind : string)
  | ErrGet (kind name : string).

(** gitops_compare.go, [compareManifestWithCluster] *)
Definition compareManifestWithCluster (cfg : Config) (rt : Runtime) (cl : Cluster)
    (tUpdate tGate tSend : Time) (repoState : gitOpsRepositoryState) (manifest : Object)
    (w : World) : World * option compareError :=
  let kind := GetKind manifest in
  let name := GetName manifest in
  let namespace := GetNamespace manifest in
  match getGVRForKind cl kind with
  | None => (w, Some (ErrGVR kind))
  | Some gvr =>
      match liveGet cl gvr manifest with
      | GetNotFound =>
          (processGitOpsMismatch cfg rt tUpdate tGate tSend repoState manifest None
             "missing" w, None)
      | GetFailed => (w, Some (ErrGet kind name))
      | GetOk clusterResource =>
          if resourcesAreDifferent rt cl manifest clusterResource then
            (processGitOpsMismatch cfg rt tUpdate tGate tSend repoState manifest
               (Some clusterResource) "different" w, None)
          else
            (processGitOpsMatch cfg rt tUpdate tSend repoState manifest w, None)
      end
  end.

(** ** A sample manifest, live object and cluster *)

Definition deploymentManifest : Object :=
  [ ("apiVersion", VString "apps/v1");
    ("kind", VString "Deployment");
    ("metadata", VMap [ ("name", VString "web"); ("namespace", VString "default");
                        ("labels", VMap [("app", VString "web")]) ]);
    ("spec", VMap [("replicas", VInt 3)]) ].

Definition deploymentLive : Object :=
  [ ("apiVersion", VString "apps/v1");
    ("kind", VString "Deployment");
    ("metadata", VMap [ ("name", VString "web"); ("namespace", VString "default");
                        ("labels", VMap [("app", VString "web")]) ]);
    ("spec", VMap [("replicas", VInt 5)]);
    ("status", VMap [("readyReplicas", VInt 5)]) ].

Definition deploymentsGVR : GroupVersionResource := mkGVR "apps" "v1" "deployments".

(** The live object is found; every dry-run apply is refused. *)
Definition refusingCluster : Cluster :=
  mkCluster {[ "Deployment" := deploymentsGVR ]}
    (fun _ _ _ => GetOk deploymentLive)
    (fun _ _ _ _ => None).

Definition infraRepo : gitOpsRepositoryState :=
  mkRepoState "infra" "https://git.example/infra.git" "apps/web" "main" "/tmp/sun-gitops-1/infra".

Definition leaderWorld : World := mkWorld emptyStores true [].

(** Reading back the first byte of an escaped text: the inverse of
    [Marshal.escByte], undefined at the closing quote. *)
Definition hexVal (c : ascii) : N :=
  let n := N_of_ascii c in
  if (n <? 58)%N then (n - 48)%N else (n - 87)%N.

Definition decodeByte (s : string) : option (ascii * string) :=
  match s with
  | EmptyString => None
  | String c rest =>
      let n := N_of_ascii c in
      if (n =? 34)%N then None
      else if (n =? 92)%N then
        match rest with
        | EmptyString => None
        | String e rest' =>
            let k := N_of_ascii e in
            if (k =? 34)%N || (k =? 92)%N then Some (e, rest')
            else if (k =? 98)%N then Some (ascii_of_N 8, rest')
            else if (k =? 102)%N then Some (ascii_of_N 12, rest')
            else if (k =? 110)%N then Some (ascii_of_N 10, rest')
            else if (k =? 114)%N then Some (ascii_of_N 13, rest')
            else if (k =? 116)%N then Some (ascii_of_N 9, rest')
            else if (k =? 117)%N then
              match rest' with
              | String _ (String _ (String h1 (String h2 r))) =>
                  Some (ascii_of_N (16 * hexVal h1 + hexVal h2), r)
              | _ => None
              end
            else None
        end
      else Some (c, rest)
  end.

(** ** The comparison as the specification words it *)






Definition hasMetadata (o : Object) : Prop :=
  ∃ m, NestedMap o ["metadata"] = Found m.






(** ** Copying [.env.example] files (gitops_kustomize.go)

    The directory tree below [rootPath].  A directory lists its entries in
    the order in which [filepath.Walk] reads them, the byte order of their
    names.  A file may be unreadable and a directory may refuse new files;
    these are the two failures of the callback. *)

Inductive fsnode :=
  | File (readable : bool) (data : string)
  | Dir (writable : bool) (entries : list (string * fsnode)).

Inductive copyError :=
  | ErrRead (path : list string)    (* failed to read .env.example file *)
  | ErrWrite (path : list string).  (* failed to write .env file *)

(** What [os.Stat] finds at the sibling [.env] of the files of one
    directory while that directory is walked. *)
Inductive envState :=
  | EnvAbsent
  | EnvPresent
  | EnvCopied (data : string).   (* written during this walk *)

Definition hasName (name : string) (entries : list (string * fsnode)) : bool :=
  existsb (fun e => String.eqb e.1 name) entries.

(** A new entry takes its place in the byte order of the names. *)
Fixpoint insertEntry (name : string) (n : fsnode) (entries : list (string * fsnode))
    : list (string * fsnode) :=
  match entries with
  | [] => [(name, n)]
  | (k, v) :: rest =>
      if String.leb name k then (name, n) :: entries
      else (k, v) :: insertEntry name n rest
  end.

(** The callback of the walk at a regular file [name] of the directory
    [dir], which has the given write permission. *)
Definition visitFile (dir : list string) (writable : bool) (name : string)
    (readable : bool) (data : string) (env : envState)
    : envState * option copyError :=
  if negb (String.eqb name ".env.example") then (env, None)
  else
    match env with
    | EnvAbsent =>
        if negb readable then (env, Some (ErrRead (dir ++ [name])))
        else if negb writable then (env, Some (ErrWrite (dir ++ [".env"])))
        else (EnvCopied data, None)
    | _ => (env, None)
    end.

(** The directory after the walk has left it. *)
Definition settleEntries (env : envState) (entries : list (string * fsnode))
    : list (string * fsnode) :=
  match env with
  | EnvCopied data => insertEntry ".env" (File true data) entries
  | _ => entries
  end.

Definition initialEnv (entries : list (string * fsnode)) : envState :=
  if hasName ".env" entries then EnvPresent else EnvAbsent.

(** [filepath.Walk] with the callback of [copyEnvExampleFiles], from the
    node found at [path]: the tree after the walk and the error that
    stopped it, if any.  The callback returns nil at a directory; the walk
    then visits the entries in order and stops at the first error. *)
Fixpoint walk (path : list string) (n : fsnode) : fsnode * option copyError :=
  match n with
  | File _ _ => (n, None)
  | Dir writable entries =>
      let fix visit (todo : list (string * fsnode)) (env : envState)
          : list (string * fsnode) * envState * option copyError :=
        match todo with
        | [] => ([], env, None)
        | (name, child) :: rest =>
            match child with
            | Dir _ _ =>
                let '(child', err) := walk (path ++ [name]) child in
                match err with
                | Some e => ((name, child') :: rest, env, Some e)
                | None =>
                    let '(rest', env', err') := visit rest env in
                    ((name, child') :: rest', env', err')
                end
            | File readable data =>
                let '(env1, err) := visitFile path writable name readable data env in
                match err with
                | Some e => (todo, env1, Some e)
                | None =>
                    let '(rest', env', err') := visit rest env1 in
                    ((name, child) :: rest', env', err')
                end
            end
        end in
      let '(entries', env, err) := visit entries (initialEnv entries) in
      (Dir writable (settleEntries env entries'), err)
  end.

(** The visit of the entries of one directory, as a function of its own. *)
Fixpoint visitEntries (path : list string) (writable : bool)
    (todo : list (string * fsnode)) (env : envState)
    : list (string * fsnode) * envState * option copyError :=
  match todo with
  | [] => ([], env, None)
  | (name, child) :: rest =>
      match child with
      | Dir _ _ =>
          let '(child', err) := walk (path ++ [name]) child in
          match err with
          | Some e => ((name, child') :: rest, env, Some e)
          | None =>
              let '(rest', env', err') := visitEntries path writable rest env in
              ((name, child') :: rest', env', err')
          end
      | File readable data =>
          let '(env1, err) := visitFile path writable name readable data env in
          match err with
          | Some e => (todo, env1, Some e)
          | None =>
              let '(rest', env', err') := visitEntries path writable rest env1 in
              ((name, child) :: rest', env', err')
          end
      end
  end.

(** gitops_kustomize.go, [copyEnvExampleFiles]: the walk from [rootPath],
    where the tree [root] is found. *)
Definition copyEnvExampleFiles (rootPath : list string) (root : fsnode)
    : fsnode * option copyError :=
  walk rootPath root.

(** The node at a path below a node. *)
Fixpoint lookupPath (path : list string) (n : fsnode) : option fsnode :=
  match path with
  | [] => Some n
  | name :: rest =>
      match n with
      | Dir _ entries =>
          match mapGet name entries with
          | Some child => lookupPath rest child
          | None => None
          end
      | File _ _ => None
      end
  end.

(** A sample repository checkout. *)
Definition checkoutExample : fsnode :=
  Dir true
    [ ("base", Dir true
         [ (".env.example", File true "TOKEN=changeme");
           ("kustomization.yaml", File true "resources: []") ]);
      ("kustomization.yaml", File true "resources: [base, prod]");
      ("prod", Dir true
         [ (".env", File true "TOKEN=s3cret");
           (".env.example", File true "TOKEN=changeme");
           ("kustomization.yaml", File true "resources: []") ]) ].

(** What [os.Stat] finds at the sibling [.env] on a later walk. *)
Definition settled (env : envState) : envState :=
  match env with
  | EnvCopied _ => EnvPresent
  | _ => env
  end.

(** A second walk of the tree left by a first one changes nothing and
    ends as the first. *)
Definition walkIdempotent (n : fsnode) : Prop :=
  ∀ p, walk p (walk p n).1 = walk p n.

(** The sample configuration with immediate alerts. *)
Definition cfgImmediate : Config :=
  mkConfig "http://hooks.example/sun" 0 85%float 1073741824 true
    [mkGitOpsRepository "infra" true].

(** The live object of the sample in sync with the manifest, with a label
    set by the chart tooling. *)
Definition deploymentInSync : Object :=
  [ ("apiVersion", VString "apps/v1");
    ("kind", VString "Deployment");
    ("metadata", VMap [ ("name", VString "web"); ("namespace", VString "default");
                        ("labels", VMap [ ("app", VString "web");
                                          ("helm.sh/chart", VString "web-1.2.0") ]);
                        ("resourceVersion", VString "4711") ]);
    ("spec", VMap [("replicas", VInt 3)]);
    ("status", VMap [("readyReplicas", VInt 3)]) ].

(** A text holds a double quote, a backslash or a newline. *)
Fixpoint hasSpecial (s : string) : bool :=
  match s with
  | EmptyString => false
  | String c rest =>
      let n := N_of_ascii c in
      (n =? 34)%N || (n =? 92)%N || (n =? 10)%N || hasSpecial rest
  end.

(** The title, a field value or the logs of the alert hold one. *)
Definition hasSpecialText (alert : Alert) : bool :=
  hasSpecial (Title alert)
  || existsb (fun field => hasSpecial (Value field)) (Fields alert)
  || hasSpecial (Logs alert).

(** Two more clusters for the sample manifest: one without the live
    object, one in sync whose dry-run apply returns the live object. *)
Definition emptyCluster : Cluster :=
  mkCluster {[ "Deployment" := deploymentsGVR ]}
    (fun _ _ _ => GetNotFound)
    (fun _ _ _ obj => Some obj).

Definition inSyncCluster : Cluster :=
  mkCluster {[ "Deployment" := deploymentsGVR ]}
    (fun _ _ _ => GetOk deploymentInSync)
    (fun _ _ _ _ => Some deploymentInSync).

(** ** Marking an alert as sent (main.go, nodes.go, node resources) *)

(** The entry with [alertSent] set. *)
Definition withAlertSent (state : unitState) : unitState :=
  mkUnitState (hasError state) (lastSeen state) (lastMessage state) (firstError state) true.

(** main.go, [markAlertSent] *)
Definition markAlertSent (podKey : string) (s : Stores) : Stores :=
  match podStates s !! podKey with
  | Some state => set_podStates (<[podKey := withAlertSent state]> (podStates s)) s
  | None => s
  end.

(** nodes.go, [markNodeAlertSent] *)
Definition markNodeAlertSent (nodeKey : string) (s : Stores) : Stores :=
  match nodeStates s !! nodeKey with
  | Some state => set_nodeStates (<[nodeKey := withAlertSent state]> (nodeStates s)) s
  | None => s
  end.

(** Node resource calculator, [markNodeResourceAlertSent] *)
Definition markNodeResourceAlertSent (nodeName : string) (s : Stores) : Stores :=
  match nodeResourceStates s !! nodeName with
  | Some state =>
      set_nodeResourceStates
        (<[nodeName := mkNodeResourceState (withAlertSent (nr_unitState state))
                         (nr_cpuCapacity state) (nr_cpuRequests state)
                         (nr_cpuUsagePercent state) (nr_nodeName state)]>
           (nodeResourceStates s)) s
  | None => s
  end.

(** The mark function that the classifiers of the family call. *)
Definition markSent (f : family) (key : string) (s : Stores) : Stores :=
  match f with
  | FPod => markAlertSent key s
  | FNode => markNodeAlertSent key s
  | FNodeResource => markNodeResourceAlertSent key s
  | FLonghorn k => markLonghornAlertSent (longhornKindName k) key s
  | FGitOps => markGitOpsAlertSent key s
  end.

(** ** Longhorn replicas, engines, backups and nodes
    (longhorn_status.go, longhorn_alerts.go) *)

(** The verdict at the head of [processLonghornReplicaStatus]:
    [(hasError, errorMessage)]. *)
Definition replicaVerdict (currentState : string) : bool * string :=
  if String.eqb currentState "running" then (false, "")
  else if String.eqb currentState "stopped" || String.eqb currentState "error" then
    (true, "Replica in " ++ currentState ++ " state")
  else if String.eqb currentState "starting" || String.eqb currentState "stopping" then
    (false, "")
  else (true, "Replica in unknown state: " ++ currentState).

(** The alert of [sendLonghornReplicaAlert]. *)
Definition longhornReplicaAlert (name namespace currentState errorMessage : string) : Alert :=
  mkAlert ("Longhorn Replica Alert on " ++ namespace)
    ("Replica " ++ name ++ ": " ++ errorMessage)
    [ mkField "Replica" name true;
      mkField "Namespace" namespace true;
      mkField "State" currentState true ] "".

Definition sendLonghornReplicaAlert (cfg : Config) (rt : Runtime) (now : Time)
    (name namespace currentState errorMessage : string) (w : World) : World :=
  sendWebhookMessage cfg rt now
    (longhornReplicaAlert name namespace currentState errorMessage) w.

(** The alert of [checkLonghornReplicaRecovery]. *)
Definition longhornReplicaRecoveryAlert (name namespace : string) : Alert :=
  mkAlert "Longhorn Replica Recovery"
    ("Replica " ++ name ++ " in namespace " ++ namespace ++ " has recovered")
    [ mkField "Replica" name true;
      mkField "Namespace" namespace true;
      mkField "State" "Running" true ] "".

(** longhorn_alerts.go, [checkLonghornReplicaRecovery] *)
Definition checkLonghornReplicaRecovery (cfg : Config) (rt : Runtime) (now : Time)
    (key name namespace : string) (w : World) : World :=
  let '(prevState, exists_) :=
    commaOk zeroLonghornUnitState (longhornReplicaStates (stores w) !! key) in
  if exists_ && hasError (lh_unitState prevState) && alertSent (lh_unitState prevState)
  then sendWebhookMessage cfg rt now (longhornReplicaRecoveryAlert name namespace) w
  else w.

(** longhorn_status.go, [processLonghornReplicaStatus] *)
Definition processLonghornReplicaStatus (cfg : Config) (rt : Runtime)
    (tUpdate tGate tSend : Time) (name namespace currentState : string)
    (w : World) : World :=
  let key := slashKey namespace name in
  let '(hasErr, errorMessage) := replicaVerdict currentState in
  let w := on_stores (updateLonghornReplicaState tUpdate key hasErr errorMessage
                        currentState namespace) w in
  if hasErr && shouldSendLonghornAlert cfg tGate "replica" key (stores w) then
    let w := sendLonghornReplicaAlert cfg rt tSend name namespace currentState
               errorMessage w in
    on_stores (markLonghornAlertSent "replica" key) w
  else if negb hasErr then
    checkLonghornReplicaRecovery cfg rt tSend key name namespace w
  else w.

(** The verdict at the head of [processLonghornEngineStatus]. *)
Definition engineVerdict (currentState : string) : bool * string :=
  if String.eqb currentState "running" then (false, "")
  else if String.eqb currentState "stopped" || String.eqb currentState "error" then
    (true, "Engine in " ++ currentState ++ " state")
  else if String.eqb currentState "starting" || String.eqb currentState "stopping" then
    (false, "")
  else (true, "Engine in unknown state: " ++ currentState).

(** The alert of [sendLonghornEngineAlert]. *)
Definition longhornEngineAlert (name namespace currentState errorMessage : string) : Alert :=
  mkAlert ("Longhorn Engine Alert on " ++ namespace)
    ("Engine " ++ name ++ ": " ++ errorMessage)
    [ mkField "Engine" name true;
      mkField "Namespace" namespace true;
      mkField "State" currentState true ] "".

Definition sendLonghornEngineAlert (cfg : Config) (rt : Runtime) (now : Time)
    (name namespace currentState errorMessage : string) (w : World) : World :=
  sendWebhookMessage cfg rt now
    (longhornEngineAlert name namespace currentState errorMessage) w.

(** The alert of [checkLonghornEngineRecovery]. *)
Definition longhornEngineRecoveryAlert (name namespace : string) : Alert :=
  mkAlert "Longhorn Engine Recovery"
    ("Engine " ++ name ++ " in namespace " ++ namespace ++ " has recovered")
    [ mkField "Engine" name true;
      mkField "Namespace" namespace true;
      mkField "State" "Running" true ] "".

(** longhorn_alerts.go, [checkLonghornEngineRecovery] *)
Definition checkLonghornEngineRecovery (cfg : Config) (rt : Runtime) (now : Time)
    (key name namespace : string) (w : World) : World :=
  let '(prevState, exists_) :=
    commaOk zeroLonghornUnitState (longhornEngineStates (stores w) !! key) in
  if exists_ && hasError (lh_unitState prevState) && alertSent (lh_unitState prevState)
  then sendWebhookMessage cfg rt now (longhornEngineRecoveryAlert name namespace) w
  else w.

(** longhorn_status.go, [processLonghornEngineStatus] *)
Definition processLonghornEngineStatus (cfg : Config) (rt : Runtime)
    (tUpdate tGate tSend : Time) (name namespace currentState : string)
    (w : World) : World :=
  let key := slashKey namespace name in
  let '(hasErr, errorMessage) := engineVerdict currentState in
  let w := on_stores (updateLonghornEngineState tUpdate key hasErr errorMessage
                        currentState namespace) w in
  if hasErr && shouldSendLonghornAlert cfg tGate "engine" key (stores w) then
    let w := sendLonghornEngineAlert cfg rt tSend name namespace currentState
               errorMessage w in
    on_stores (markLonghornAlertSent "engine" key) w
  else if negb hasErr then
    checkLonghornEngineRecovery cfg rt tSend key name namespace w
  else w.

(** The verdict at the head of [processLonghornBackupStatus]. *)
Definition backupVerdict (state : string) : bool * string :=
  if String.eqb state "Completed" then (false, "")
  else if String.eqb state "Error" then (true, "Backup failed")
  else if String.eqb state "InProgress" || String.eqb state "Pending" then (false, "")
  else (true, "Backup in unknown state: " ++ state).

(** The alert of [sendLonghornBackupAlert]. *)
Definition longhornBackupAlert (name namespace state errorMessage : string) : Alert :=
  mkAlert ("Longhorn Backup Alert on " ++ namespace)
    ("Backup " ++ name ++ ": " ++ errorMessage)
    [ mkField "Backup" name true;
      mkField "Namespace" namespace true;
      mkField "State" state true ] "".

Definition sendLonghornBackupAlert (cfg : Config) (rt : Runtime) (now : Time)
    (name namespace state errorMessage : string) (w : World) : World :=
  sendWebhookMessage cfg rt now (longhornBackupAlert name namespace state errorMessage) w.

(** The alert of [checkLonghornBackupRecovery]. *)
Definition longhornBackupRecoveryAlert (name namespace : string) : Alert :=
  mkAlert "Longhorn Backup Recovery"
    ("Backup " ++ name ++ " in namespace " ++ namespace ++ " has completed successfully")
    [ mkField "Backup" name true;
      mkField "Namespace" namespace true;
      mkField "State" "Completed" true ] "".

(** longhorn_alerts.go, [checkLonghornBackupRecovery] *)
Definition checkLonghornBackupRecovery (cfg : Config) (rt : Runtime) (now : Time)
    (key name namespace : string) (w : World) : World :=
  let '(prevState, exists_) :=
    commaOk zeroLonghornUnitState (longhornBackupStates (stores w) !! key) in
  if exists_ && hasError (lh_unitState prevState) && alertSent (lh_unitState prevState)
  then sendWebhookMessage cfg rt now (longhornBackupRecoveryAlert name namespace) w
  else w.

(** longhorn_status.go, [processLonghornBackupStatus] *)
Definition processLonghornBackupStatus (cfg : Config) (rt : Runtime)
    (tUpdate tGate tSend : Time) (name namespace state : string) (w : World) : World :=
  let key := slashKey namespace name in
  let '(hasErr, errorMessage) := backupVerdict state in
  let w := on_stores (updateLonghornBackupState tUpdate key hasErr errorMessage
                        state namespace) w in
  if hasErr && shouldSendLonghornAlert cfg tGate "backup" key (stores w) then
    let w := sendLonghornBackupAlert cfg rt tSend name namespace state errorMessage w in
    on_stores (markLonghornAlertSent "backup" key) w
  else if negb hasErr && String.eqb state "Completed" then
    checkLonghornBackupRecovery cfg rt tSend key name namespace w
  else w.

(** The loop over the conditions in [processLonghornNodeStatus]; [acc] is
    [(hasError, errorMessage)] so far.  An item that is not a map is
    skipped. *)
Fixpoint longhornNodeVerdict (conditions : list value) (acc : bool * string)
    : bool * string :=
  match conditions with
  | [] => acc
  | VMap condition :: rest =>
      let condType := stringOr (NestedString condition ["type"]) in
      let status := stringOr (NestedString condition ["status"]) in
      let reason := stringOr (NestedString condition ["reason"]) in
      let acc :=
        if String.eqb condType "Ready" then
          if negb (String.eqb status "True") then (true, "Node not ready: " ++ reason)
          else acc
        else if String.eqb condType "Schedulable" then
          if negb (String.eqb status "True") then (true, "Node not schedulable: " ++ reason)
          else acc
        else acc in
      longhornNodeVerdict rest acc
  | _ :: rest => longhornNodeVerdict rest acc
  end.

(** The loop that builds [conditionDetails] in [sendLonghornNodeAlert];
    [i] is the index of the first item of [conditions]. *)
Fixpoint conditionDetailsLoop (i : nat) (conditions : list value) (acc : string) : string :=
  match conditions with
  | [] => acc
  | conditionInterface :: rest =>
      let acc :=
        match conditionInterface with
        | VMap condition =>
            match mapGet "type" condition with
            | Some (VString condType) =>
                match mapGet "status" condition with
                | Some (VString status) =>
                    let acc := if (0 <? i)%nat then acc ++ ", " else acc in
                    acc ++ condType ++ "=" ++ status
                | _ => acc
                end
            | _ => acc
            end
        | _ => acc
        end in
      conditionDetailsLoop (S i) rest acc
  end.

(** The alert of [sendLonghornNodeAlert]. *)
Definition longhornNodeAlert (name errorMessage : string) (conditions : list value) : Alert :=
  let fields :=
    [ mkField "Node" name true;
      mkField "Issue" errorMessage false ] in
  let fields :=
    if (0 <? length conditions)%nat then
      let conditionDetails := conditionDetailsLoop 0 conditions "" in
      if negb (String.eqb conditionDetails "") then
        (fields ++ [mkField "Conditions" conditionDetails false])%list
      else fields
    else fields in
  mkAlert "Longhorn Node Alert" ("Node " ++ name ++ ": " ++ errorMessage) fields "".

Definition sendLonghornNodeAlert (cfg : Config) (rt : Runtime) (now : Time)
    (name errorMessage : string) (conditions : list value) (w : World) : World :=
  sendWebhookMessage cfg rt now (longhornNodeAlert name errorMessage conditions) w.

(** The alert of [checkLonghornNodeRecovery]. *)
Definition longhornNodeRecoveryAlert (name : string) : Alert :=
  mkAlert "Longhorn Node Recovery" ("Node " ++ name ++ " has recovered")
    [ mkField "Node" name true;
      mkField "State" "Ready" true ] "".

(** longhorn_alerts.go, [checkLonghornNodeRecovery] *)
Definition checkLonghornNodeRecovery (cfg : Config) (rt : Runtime) (now : Time)
    (key name : string) (w : World) : World :=
  let '(prevState, exists_) :=
    commaOk zeroLonghornUnitState (longhornNodeStates (stores w) !! key) in
  if exists_ && hasError (lh_unitState prevState) && alertSent (lh_unitState prevState)
  then sendWebhookMessage cfg rt now (longhornNodeRecoveryAlert name) w
  else w.

(** longhorn_status.go, [processLonghornNodeStatus] *)
Definition processLonghornNodeStatus (cfg : Config) (rt : Runtime)
    (tUpdate tGate tSend : Time) (name : string) (conditions : list value)
    (w : World) : World :=
  let key := name in
  let '(hasErr, errorMessage) := longhornNodeVerdict conditions (false, "") in
  let w := on_stores (updateLonghornNodeState tUpdate key hasErr errorMessage "") w in
  if hasErr && shouldSendLonghornAlert cfg tGate "node" key (stores w) then
    let w := sendLonghornNodeAlert cfg rt tSend name errorMessage conditions w in
    on_stores (markLonghornAlertSent "node" key) w
  else if negb hasErr then
    checkLonghornNodeRecovery cfg rt tSend key name w
  else w.

(** ** The Longhorn informer handlers (longhorn.go) *)

(** [unstructured.NestedInt64] *)
Definition NestedInt64 (obj : Object) (fields : list string) : nested Z :=
  match NestedFieldNoCopy (VMap obj) fields with
  | Found (VInt n) => Found n
  | Found _ => NestedError
  | NotFound => NotFound
  | NestedError => NestedError
  end.

(** [unstructured.NestedSlice]; the deep copy it returns is the value. *)
Definition NestedSlice (obj : Object) (fields : list string) : nested (list value) :=
  match NestedFieldNoCopy (VMap obj) fields with
  | Found (VSlice items) => Found items
  | Found _ => NestedError
  | NotFound => NotFound
  | NestedError => NestedError
  end.

(** The number of a [n, _, _ := NestedInt64(...)] read: 0 unless found. *)
Definition intOr (r : nested Z) : Z :=
  match r with
  | Found n => n
  | _ => 0
  end.

(** [strconv.ParseInt(s, 10, 64)], [None] for an error: an optional sign,
    then one decimal digit or more, the value within the range of an
    [int64]. *)
Definition digitOf (c : ascii) : option Z :=
  let n := Z.of_N (N_of_ascii c) in
  if (48 <=? n) && (n <=? 57) then Some (n - 48) else None.

Fixpoint parseDigits (s : string) (acc : Z) : option Z :=
  match s with
  | EmptyString => Some acc
  | String c rest =>
      match digitOf c with
      | Some d => parseDigits rest (acc * 10 + d)
      | None => None
      end
  end.

Definition ParseInt10 (s : string) : option Z :=
  match s with
  | EmptyString => None
  | String c rest =>
      let '(neg, body) :=
        if Ascii.eqb c "+" then (false, rest)
        else if Ascii.eqb c "-" then (true, rest)
        else (false, s) in
      match body with
      | EmptyString => None
      | _ =>
          match parseDigits body 0 with
          | None => None
          | Some un =>
              if neg then (if un <=? 2 ^ 63 then Some (- un) else None)
              else (if un <? 2 ^ 63 then Some un else None)
          end
      end
  end.

(** longhorn.go, [parseSize] *)
Definition parseSize (sizeStr : string) : Z :=
  if String.eqb sizeStr "" then 0
  else
    match ParseInt10 sizeStr with
    | Some size => size
    | None => 0
    end.

(** What an informer hands to a handler: an [*unstructured.Unstructured]
    or a value of another type (a tombstone of the cache, for one). *)
Inductive informerObject :=
  | Unstructured (u : Object)
  | Foreign.

(** The calls of the five process functions. *)
Inductive longhornEvent :=
  | VolumeStatus (name namespace state robustness : string) (capacity actualSize : Z)
  | ReplicaStatus (name namespace currentState : string)
  | EngineStatus (name namespace currentState : string)
  | NodeConditions (name : string) (conditions : list value)
  | BackupStatus (name namespace state : string).

Definition processLonghorn (cfg : Config) (rt : Runtime) (tUpdate tGate tSend : Time)
    (e : longhornEvent) (w : World) : World :=
  match e with
  | VolumeStatus name namespace state robustness capacity actualSize =>
      processLonghornVolumeStatus cfg rt tUpdate tGate tSend name namespace state
        robustness capacity actualSize w
  | ReplicaStatus name namespace currentState =>
      processLonghornReplicaStatus cfg rt tUpdate tGate tSend name namespace currentState w
  | EngineStatus name namespace currentState =>
      processLonghornEngineStatus cfg rt tUpdate tGate tSend name namespace currentState w
  | NodeConditions name conditions =>
      processLonghornNodeStatus cfg rt tUpdate tGate tSend name conditions w
  | BackupStatus name namespace state =>
      processLonghornBackupStatus cfg rt tUpdate tGate tSend name namespace state w
  end.

(** The kind, the key and the [hasError] verdict of a call. *)
Definition eventKind (e : longhornEvent) : longhornKind :=
  match e with
  | VolumeStatus _ _ _ _ _ _ => LVolume
  | ReplicaStatus _ _ _ => LReplica
  | EngineStatus _ _ _ => LEngine
  | NodeConditions _ _ => LNode
  | BackupStatus _ _ _ => LBackup
  end.

Definition eventKey (e : longhornEvent) : string :=
  match e with
  | VolumeStatus name namespace _ _ _ _ => slashKey namespace name
  | ReplicaStatus name namespace _ => slashKey namespace name
  | EngineStatus name namespace _ => slashKey namespace name
  | NodeConditions name _ => name
  | BackupStatus name namespace _ => slashKey namespace name
  end.

Definition eventHasError (cfg : Config) (rt : Runtime) (e : longhornEvent) : bool :=
  match e with
  | VolumeStatus _ _ state robustness capacity actualSize =>
      (volumeVerdict cfg rt state robustness capacity actualSize).1.1
  | ReplicaStatus _ _ currentState => (replicaVerdict currentState).1
  | EngineStatus _ _ currentState => (engineVerdict currentState).1
  | NodeConditions _ conditions => (longhornNodeVerdict conditions (false, "")).1
  | BackupStatus _ _ state => (backupVerdict state).1
  end.

(** longhorn.go, the five add and update handlers. *)
Definition handleLonghornVolume (cfg : Config) (rt : Runtime) (tUpdate tGate tSend : Time)
    (obj : informerObject) (w : World) : World :=
  match obj with
  | Foreign => w
  | Unstructured unstructuredObj =>
      let name := GetName unstructuredObj in
      let namespace := GetNamespace unstructuredObj in
      match NestedMap unstructuredObj ["status"] with
      | Found status =>
          let state := stringOr (NestedString status ["state"]) in
          let robustness := stringOr (NestedString status ["robustness"]) in
          match NestedMap unstructuredObj ["spec"] with
          | Found spec =>
              let sizeStr := stringOr (NestedString spec ["size"]) in
              let capacity := parseSize sizeStr in
              let actualSize := intOr (NestedInt64 status ["actualSize"]) in
              processLonghornVolumeStatus cfg rt tUpdate tGate tSend name namespace
                state robustness capacity actualSize w
          | _ => w
          end
      | _ => w
      end
  end.

Definition handleLonghornReplica (cfg : Config) (rt : Runtime) (tUpdate tGate tSend : Time)
    (obj : informerObject) (w : World) : World :=
  match obj with
  | Foreign => w
  | Unstructured unstructuredObj =>
      let name := GetName unstructuredObj in
      let namespace := GetNamespace unstructuredObj in
      match NestedMap unstructuredObj ["status"] with
      | Found status =>
          let currentState := stringOr (NestedString status ["currentState"]) in
          processLonghornReplicaStatus cfg rt tUpdate tGate tSend name namespace
            currentState w
      | _ => w
      end
  end.

Definition handleLonghornEngine (cfg : Config) (rt : Runtime) (tUpdate tGate tSend : Time)
    (obj : informerObject) (w : World) : World :=
  match obj with
  | Foreign => w
  | Unstructured unstructuredObj =>
      let name := GetName unstructuredObj in
      let namespace := GetNamespace unstructuredObj in
      match NestedMap unstructuredObj ["status"] with
      | Found status =>
          let currentState := stringOr (NestedString status ["currentState"]) in
          processLonghornEngineStatus cfg rt tUpdate tGate tSend name namespace
            currentState w
      | _ => w
      end
  end.

Definition handleLonghornNode (cfg : Config) (rt : Runtime) (tUpdate tGate tSend : Time)
    (obj : informerObject) (w : World) : World :=
  match obj with
  | Foreign => w
  | Unstructured unstructuredObj =>
      let name := GetName unstructuredObj in
      match NestedMap unstructuredObj ["status"] with
      | Found status =>
          match NestedSlice status ["conditions"] with
          | Found conditions =>
              processLonghornNodeStatus cfg rt tUpdate tGate tSend name conditions w
          | _ => w
          end
      | _ => w
      end
  end.

Definition handleLonghornBackup (cfg : Config) (rt : Runtime) (tUpdate tGate tSend : Time)
    (obj : informerObject) (w : World) : World :=
  match obj with
  | Foreign => w
  | Unstructured unstructuredObj =>
      let name := GetName unstructuredObj in
      let namespace := GetNamespace unstructuredObj in
      match NestedMap unstructuredObj ["status"] with
      | Found status =>
          let state := stringOr (NestedString status ["state"]) in
          processLonghornBackupStatus cfg rt tUpdate tGate tSend name namespace state w
      | _ => w
      end
  end.

(** longhorn.go, the five delete handlers. *)
Definition handleLonghornVolumeDelete (obj : informerObject) (s : Stores) : Stores :=
  match obj with
  | Foreign => s
  | Unstructured unstructuredObj =>
      let key := slashKey (GetNamespace unstructuredObj) (GetName unstructuredObj) in
      set_longhornVolumeStates (delete key (longhornVolumeStates s)) s
  end.

Definition handleLonghornReplicaDelete (obj : informerObject) (s : Stores) : Stores :=
  match obj with
  | Foreign => s
  | Unstructured unstructuredObj =>
      let key := slashKey (GetNamespace unstructuredObj) (GetName unstructuredObj) in
      set_longhornReplicaStates (delete key (longhornReplicaStates s)) s
  end.

Definition handleLonghornEngineDelete (obj : informerObject) (s : Stores) : Stores :=
  match obj with
  | Foreign => s
  | Unstructured unstructuredObj =>
      let key := slashKey (GetNamespace unstructuredObj) (GetName unstructuredObj) in
      set_longhornEngineStates (delete key (longhornEngineStates s)) s
  end.

Definition handleLonghornNodeDelete (obj : informerObject) (s : Stores) : Stores :=
  match obj with
  | Foreign => s
  | Unstructured unstructuredObj =>
      let key := GetName unstructuredObj in
      set_longhornNodeStates (delete key (longhornNodeStates s)) s
  end.

Definition handleLonghornBackupDelete (obj : informerObject) (s : Stores) : Stores :=
  match obj with
  | Foreign => s
  | Unstructured unstructuredObj =>
      let key := slashKey (GetNamespace unstructuredObj) (GetName unstructuredObj) in
      set_longhornBackupStates (delete key (longhornBackupStates s)) s
  end.

(** The handlers by kind, and the key under which a kind files an
    object. *)
Definition handleLonghorn (k : longhornKind) (cfg : Config) (rt : Runtime)
    (tUpdate tGate tSend : Time) (obj : informerObject) (w : World) : World :=
  match k with
  | LVolume => handleLonghornVolume cfg rt tUpdate tGate tSend obj w
  | LReplica => handleLonghornReplica cfg rt tUpdate tGate tSend obj w
  | LEngine => handleLonghornEngine cfg rt tUpdate tGate tSend obj w
  | LNode => handleLonghornNode cfg rt tUpdate tGate tSend obj w
  | LBackup => handleLonghornBackup cfg rt tUpdate tGate tSend obj w
  end.

Definition handleLonghornDelete (k : longhornKind) (obj : informerObject) (s : Stores)
    : Stores :=
  match k with
  | LVolume => handleLonghornVolumeDelete obj s
  | LReplica => handleLonghornReplicaDelete obj s
  | LEngine => handleLonghornEngineDelete obj s
  | LNode => handleLonghornNodeDelete obj s
  | LBackup => handleLonghornBackupDelete obj s
  end.

Definition longhornObjectKey (k : longhornKind) (u : Object) : string :=
  match k with
  | LNode => GetName u
  | _ => slashKey (GetNamespace u) (GetName u)
  end.

(** A run of timed calls, oldest first. *)
Fixpoint processLonghornAll (cfg : Config) (rt : Runtime)
    (calls : list (Time * Time * Time * longhornEvent)) (w : World) : World :=
  match calls with
  | [] => w
  | (tUpdate, tGate, tSend, e) :: rest =>
      processLonghornAll cfg rt rest (processLonghorn cfg rt tUpdate tGate tSend e w)
  end.

(** The shape shared by the erroring path of the process functions that
    update first: the upsert, then the gate, then the alert and the
    mark. *)
Definition alertStep (cfg : Config) (rt : Runtime) (tUpdate tGate tSend : Time)
    (c : upsertCall) (alert : Alert) (w : World) : World :=
  let w := on_stores (upsert tUpdate c) w in
  if alertGate cfg tGate (upsertFamily c) (upsertKey c) (stores w) then
    let w := sendWebhookMessage cfg rt tSend alert w in
    on_stores (markSent (upsertFamily c) (upsertKey c)) w
  else w.

(** The upsert and the alert of an erroring Longhorn call. *)
Definition eventUpsert (cfg : Config) (rt : Runtime) (e : longhornEvent) : upsertCall :=
  match e with
  | VolumeStatus name namespace state robustness capacity actualSize =>
      let '(hasErr, errorMessage, _) :=
        volumeVerdict cfg rt state robustness capacity actualSize in
      UpsertLonghornVolume (slashKey namespace name) hasErr errorMessage state robustness
        capacity actualSize namespace
  | ReplicaStatus name namespace currentState =>
      let '(hasErr, errorMessage) := replicaVerdict currentState in
      UpsertLonghornReplica (slashKey namespace name) hasErr errorMessage currentState
        namespace
  | EngineStatus name namespace currentState =>
      let '(hasErr, errorMessage) := engineVerdict currentState in
      UpsertLonghornEngine (slashKey namespace name) hasErr errorMessage currentState
        namespace
  | NodeConditions name conditions =>
      let '(hasErr, errorMessage) := longhornNodeVerdict conditions (false, "") in
      UpsertLonghornNode name hasErr errorMessage ""
  | BackupStatus name namespace state =>
      let '(hasErr, errorMessage) := backupVerdict state in
      UpsertLonghornBackup (slashKey namespace name) hasErr errorMessage state namespace
  end.

Definition eventAlert (cfg : Config) (rt : Runtime) (e : longhornEvent) : Alert :=
  match e with
  | VolumeStatus name namespace state robustness capacity actualSize =>
      let '(_, errorMessage, alertType) :=
        volumeVerdict cfg rt state robustness capacity actualSize in
      longhornVolumeAlert rt name namespace state robustness capacity actualSize
        errorMessage alertType
  | ReplicaStatus name namespace currentState =>
      longhornReplicaAlert name namespace currentState (replicaVerdict currentState).2
  | EngineStatus name namespace currentState =>
      longhornEngineAlert name namespace currentState (engineVerdict currentState).2
  | NodeConditions name conditions =>
      longhornNodeAlert name (longhornNodeVerdict conditions (false, "")).2 conditions
  | BackupStatus name namespace state =>
      longhornBackupAlert name namespace state (backupVerdict state).2
  end.

(** Calls of one kind for one key, all of them in error. *)
Definition erroringCallsFor (cfg : Config) (rt : Runtime) (k : longhornKind) (key : string)
    (calls : list (Time * Time * Time * longhornEvent)) : Prop :=
  Forall (fun call => eventKind call.2 = k ∧ eventKey call.2 = key
                      ∧ eventHasError cfg rt call.2 = true) calls.

(** A leader whose backup [longhorn-system/b-1] has failed, the alert
    sent. *)
Definition failedBackupWorld : World :=
  mkWorld
    (set_longhornBackupStates
       {[ "longhorn-system/b-1" :=
            mkLonghornUnitState (mkUnitState true 1000 "Backup failed" 1000 true)
              "backup" 0 0 "" "" "longhorn-system" ]}
       emptyStores)
    true [].

(** A replica in error as the informer delivers it. *)
Definition replicaObject : Object :=
  [ ("metadata", VMap [ ("name", VString "r-1");
                        ("namespace", VString "longhorn-system") ]);
    ("status", VMap [("currentState", VString "error")]) ].

(** ** Pods (main.go and the pod watcher) *)

(** [corev1.ContainerStatus] as the watcher reads it: the name and the
    three states, each nil or set. *)
Record ContainerStateTerminated := mkTerminated {
  term_ExitCode : Z;
  term_Reason : string
}.

Record ContainerStateWaiting := mkWaiting { wait_Reason : string }.

Record ContainerStatus := mkContainerStatus {
  cs_Name : string;
  cs_Terminated : option ContainerStateTerminated;
  cs_Waiting : option ContainerStateWaiting;
  cs_Running : bool
}.

(** The pod with [Status.ContainerStatuses]. *)
Record PodObject := mkPodObject {
  po_meta : Pod;
  po_ContainerStatuses : list ContainerStatus
}.

(** The log request of [getContainerLogs] on the API server: the bytes
    returned, or the text of the error. *)
Definition LogsAPI := Pod → string → string + string.

Definition getContainerLogs (api : LogsAPI) (pod : Pod) (containerName : string) : string :=
  match api pod containerName with
  | inl logs => logs
  | inr err => "Failed to fetch logs, error: " ++ err
  end.

(** The alert of [handleTerminatedContainer]. *)
Definition podFailedAlert (pod : Pod) (container : ContainerStatus)
    (terminated : ContainerStateTerminated) (containerLogs : string) : Alert :=
  mkAlert ("Pod Failure on " ++ pod_Namespace pod)
    ("Pod " ++ pod_Name pod ++ " in namespace " ++ pod_Namespace pod ++ " has failed")
    [ mkField "Container" (cs_Name container) true;
      mkField "State" "Terminated" true;
      mkField "Exit Code" (pretty (term_ExitCode terminated)) true;
      mkField "Reason" (term_Reason terminated) true ]
    containerLogs.

(** [handleTerminatedContainer]; it reads [State.Terminated], which its
    caller has found set. *)
Definition handleTerminatedContainer (api : LogsAPI) (cfg : Config) (rt : Runtime)
    (now : Time) (pod : Pod) (container : ContainerStatus) (w : World) : World :=
  match cs_Terminated container with
  | Some terminated =>
      let containerLogs := getContainerLogs api pod (cs_Name container) in
      sendWebhookMessage cfg rt now (podFailedAlert pod container terminated containerLogs) w
  | None => w
  end.

(** The alert of [handleWaitingContainer]. *)
Definition podWaitingAlert (pod : Pod) (container : ContainerStatus)
    (waiting : ContainerStateWaiting) (containerLogs : string) : Alert :=
  mkAlert ("Pod Waiting on " ++ pod_Namespace pod)
    ("Pod " ++ pod_Name pod ++ " in namespace " ++ pod_Namespace pod ++ " is waiting")
    [ mkField "Container" (cs_Name container) true;
      mkField "State" (wait_Reason waiting) true;
      mkField "Reason" (wait_Reason waiting) true ]
    containerLogs.

(** [handleWaitingContainer]; it reads [State.Waiting], which its caller
    has found set. *)
Definition handleWaitingContainer (api : LogsAPI) (cfg : Config) (rt : Runtime)
    (now : Time) (pod : Pod) (container : ContainerStatus) (w : World) : World :=
  match cs_Waiting container with
  | Some waiting =>
      let containerLogs :=
        if String.eqb (wait_Reason waiting) "PodInitializing"
        then "Pod is initializing - logs not available yet"
        else getContainerLogs api pod (cs_Name container) in
      sendWebhookMessage cfg rt now (podWaitingAlert pod container waiting containerLogs) w
  | None => w
  end.

(** The alert of [handleRunningContainer]. *)
Definition podRecoveryAlert (pod : Pod) (container : ContainerStatus) : Alert :=
  mkAlert "Pod Recovery Alert"
    ("Pod " ++ pod_Name pod ++ " in namespace " ++ pod_Namespace pod ++ " has recovered")
    [ mkField "Container" (cs_Name container) true;
      mkField "State" "Running" true ] "".

(** [handleRunningContainer] *)
Definition handleRunningContainer (cfg : Config) (rt : Runtime) (now : Time)
    (pod : Pod) (container : ContainerStatus) (w : World) : World :=
  let podKey := slashKey (pod_Namespace pod) (pod_Name pod) in
  let '(prevState, exists_) := commaOk zeroUnitState (podStates (stores w) !! podKey) in
  if exists_ && hasError prevState
  then sendWebhookMessage cfg rt now (podRecoveryAlert pod container) w
  else w.

(** The clock readings of one [processContainerStatus] call: by the gate
    and the sink of the terminated branch, by those of the waiting branch,
    and by the sink of the recovery. *)
Record containerClock := mkContainerClock {
  tGateTerminated : Time;
  tSendTerminated : Time;
  tGateWaiting : Time;
  tSendWaiting : Time;
  tSendRunning : Time
}.

(** [processContainerStatus]: the process after the call and
    [(hasError, errorMessage)]. *)
Definition processContainerStatus (api : LogsAPI) (cfg : Config) (rt : Runtime)
    (t : containerClock) (pod : Pod) (container : ContainerStatus) (w : World)
    : World * (bool * string) :=
  let podKey := slashKey (pod_Namespace pod) (pod_Name pod) in
  let '(w, verdict) :=
    match cs_Terminated container with
    | Some terminated =>
        if negb (term_ExitCode terminated =? 0) then
          let w :=
            if shouldSendAlert cfg (tGateTerminated t) "pod" podKey (stores w) then
              let w := handleTerminatedContainer api cfg rt (tSendTerminated t) pod
                         container w in
              on_stores (markAlertSent podKey) w
            else w in
          (w, (true, "Container " ++ cs_Name container ++ " has failed"))
        else (w, (false, ""))
    | None => (w, (false, ""))
    end in
  let '(w, verdict) :=
    match cs_Waiting container with
    | Some _ =>
        let w :=
          if shouldSendAlert cfg (tGateWaiting t) "pod" podKey (stores w) then
            let w := handleWaitingContainer api cfg rt (tSendWaiting t) pod container w in
            on_stores (markAlertSent podKey) w
          else w in
        (w, (true, "Container " ++ cs_Name container ++ " is waiting"))
    | None => (w, verdict)
    end in
  let w :=
    if cs_Running container then
      let '(state, exists_) := commaOk zeroUnitState (podStates (stores w) !! podKey) in
      if exists_ && hasError state && alertSent state
      then handleRunningContainer cfg rt (tSendRunning t) pod container w
      else w
    else w in
  (w, verdict).

(** The loop of [handlePod] over the container statuses; [acc] is
    [(hasError, errorMessage)] so far, [i] the index of the first status
    of [containers], and [clock i] the clock readings of the call for the
    status at index [i]. *)
Fixpoint containersLoop (api : LogsAPI) (cfg : Config) (rt : Runtime)
    (clock : nat → containerClock) (i : nat) (pod : Pod)
    (containers : list ContainerStatus) (acc : bool * string) (w : World)
    : World * (bool * string) :=
  match containers with
  | [] => (w, acc)
  | container :: rest =>
      let '(w, (containerHasError, containerErrorMessage)) :=
        processContainerStatus api cfg rt (clock i) pod container w in
      let acc := if containerHasError then (true, containerErrorMessage) else acc in
      containersLoop api cfg rt clock (S i) pod rest acc w
  end.

(** What the pod informer hands to [handlePod]. *)
Inductive podInformerObject :=
  | APod (pod : PodObject)
  | NotAPod.

(** main.go, [handlePod]; [tUpdate] is the clock reading of
    [updatePodState]. *)
Definition handlePod (api : LogsAPI) (cfg : Config) (rt : Runtime)
    (clock : nat → containerClock) (tUpdate : Time) (obj : podInformerObject)
    (w : World) : World :=
  match obj with
  | NotAPod => w
  | APod pod =>
      let '(w, (hasErr, errorMessage)) :=
        containersLoop api cfg rt clock 0 (po_meta pod) (po_ContainerStatuses pod)
          (false, "") w in
      on_stores (updatePodState tUpdate (po_meta pod) hasErr errorMessage) w
  end.

(** The status shows a failure: terminated with an exit code other than
    0, or waiting. *)
Definition containerFailing (container : ContainerStatus) : bool :=
  match cs_Terminated container with
  | Some terminated => negb (term_ExitCode terminated =? 0)
  | None => false
  end
  || match cs_Waiting container with
     | Some _ => true
     | None => false
     end.

(** The recovery requests of one [handlePod] call on a leader: one for
    each status with [State.Running] set, in the order of the statuses. *)
Fixpoint recoveryRequests (cfg : Config) (rt : Runtime) (clock : nat → containerClock)
    (i : nat) (pod : Pod) (containers : list ContainerStatus) : list HttpRequest :=
  match containers with
  | [] => []
  | container :: rest =>
      ((if cs_Running container then
          [mkHttpRequest "POST" (WebhookUrl cfg) "application/json"
             (jsonPayload (podRecoveryAlert pod container)
                (rt_formatRFC3339 rt (tSendRunning (clock i))))]
        else [])
       ++ recoveryRequests cfg rt clock (S i) pod rest)%list
  end.

(** A run of pod events, oldest first, each with its clock readings. *)
Fixpoint handlePods (api : LogsAPI) (cfg : Config) (rt : Runtime)
    (events : list ((nat → containerClock) * Time * PodObject)) (w : World) : World :=
  match events with
  | [] => w
  | (clock, tUpdate, pod) :: rest =>
      handlePods api cfg rt rest (handlePod api cfg rt clock tUpdate (APod pod) w)
  end.

(** Events of one pod in which a container fails and none runs. *)
Definition failingEventsOf (pod : Pod)
    (events : list ((nat → containerClock) * Time * PodObject)) : Prop :=
  Forall (fun ev => po_meta ev.2 = pod
                    ∧ existsb containerFailing (po_ContainerStatuses ev.2) = true
                    ∧ existsb cs_Running (po_ContainerStatuses ev.2) = false) events.

(** A pod whose only container waits with its image missing. *)
Definition waitingPod : PodObject :=
  mkPodObject (mkPod "default" "web-0")
    [mkContainerStatus "web" None (Some (mkWaiting "ImagePullBackOff")) false].

(** A pod with a crashing container beside a running one. *)
Definition sidecarPod : PodObject :=
  mkPodObject (mkPod "default" "web-0")
    [ mkContainerStatus "web" (Some (mkTerminated 137 "OOMKilled")) None false;
      mkContainerStatus "proxy" None None true ].

Definition noLogs : LogsAPI := fun _ _ => inl "".

Definition clockAt (t : Time) : nat → containerClock :=
  fun _ => mkContainerClock t t t t t.

(** A leader on which the pod [default/web-0] is in error, the alert
    sent. *)
Definition alertedPodWorld : World :=
  mkWorld
    (set_podStates
       {[ "default/web-0" := mkUnitState true 1000 "Container web has failed" 1000 true ]}
       emptyStores)
    true [].

(** ** Nodes (nodes.go) *)

(** [corev1.NodeCondition] and the node with [Status.Conditions]. *)
Record NodeCondition := mkNodeCondition {
  cond_Type : string;
  cond_Status : string;
  cond_Reason : string;
  cond_Message : string
}.

Record NodeObject := mkNodeObject {
  no_meta : Node;
  no_Conditions : list NodeCondition
}.

(** nodes.go, [getNodeCondition]: the first condition of the type. *)
Definition getNodeCondition (node : NodeObject) (condType : string) : option NodeCondition :=
  find (fun c => String.eqb (cond_Type c) condType) (no_Conditions node).

(** The alert of [handleNodeAlert]. *)
Definition nodeConditionAlert (node : NodeObject) (cond : NodeCondition) : Alert :=
  let name := node_Name (no_meta node) in
  mkAlert ("Node " ++ name ++ ": " ++ cond_Type cond)
    ("Node " ++ name ++ " has condition " ++ cond_Type cond ++ " = " ++ cond_Status cond)
    [ mkField "Node" name true;
      mkField "Condition" (cond_Type cond) true;
      mkField "Status" (cond_Status cond) true;
      mkField "Reason" (cond_Reason cond) false;
      mkField "Message" (cond_Message cond) false ] "".

Definition handleNodeAlert (cfg : Config) (rt : Runtime) (now : Time) (node : NodeObject)
    (cond : NodeCondition) (w : World) : World :=
  sendWebhookMessage cfg rt now (nodeConditionAlert node cond) w.

(** The alert of [handleNodeRecovery]. *)
Definition nodeRecoveryAlert (node : NodeObject) : Alert :=
  let name := node_Name (no_meta node) in
  mkAlert ("Node " ++ name ++ " Recovery")
    ("Node " ++ name ++ " has recovered all conditions")
    [ mkField "Node" name true;
      mkField "State" "Ready" true ] "".

Definition handleNodeRecovery (cfg : Config) (rt : Runtime) (now : Time)
    (node : NodeObject) (w : World) : World :=
  sendWebhookMessage cfg rt now (nodeRecoveryAlert node) w.

(** The clock readings of one [processNodeStatus] call: by the gate and
    the sink for each of the three conditions, and by the sink of the
    recovery. *)
Record nodeClock := mkNodeClock {
  tGateReady : Time;
  tSendReady : Time;
  tGateMemory : Time;
  tSendMemory : Time;
  tGateDisk : Time;
  tSendDisk : Time;
  tSendRecovery : Time
}.

(** The block repeated for each unhealthy condition: the gate, the alert
    and the mark. *)
Definition nodeAlertIfDue (cfg : Config) (rt : Runtime) (tGate tSend : Time)
    (node : NodeObject) (cond : NodeCondition) (w : World) : World :=
  let nodeKey := node_Name (no_meta node) in
  if shouldSendAlert cfg tGate "node" nodeKey (stores w) then
    let w := handleNodeAlert cfg rt tSend node cond w in
    on_stores (markNodeAlertSent nodeKey) w
  else w.

(** The three tests of [processNodeStatus] on the conditions found. *)
Definition readyUnhealthy (cond : option NodeCondition) : bool :=
  match cond with
  | Some c => String.eqb (cond_Status c) "False" || String.eqb (cond_Status c) "Unknown"
  | None => false
  end.

Definition conditionTrue (cond : option NodeCondition) : bool :=
  match cond with
  | Some c => String.eqb (cond_Status c) "True"
  | None => false
  end.

Definition nilOrFalse (cond : option NodeCondition) : bool :=
  match cond with
  | Some c => String.eqb (cond_Status c) "False"
  | None => true
  end.

(** nodes.go, [processNodeStatus]: the process after the call and
    [(hasError, errorMessage)]. *)
Definition processNodeStatus (cfg : Config) (rt : Runtime) (t : nodeClock)
    (node : NodeObject) (w : World) : World * (bool * string) :=
  let nodeKey := node_Name (no_meta node) in
  let readyCond := getNodeCondition node "Ready" in
  let memoryCond := getNodeCondition node "MemoryPressure" in
  let diskCond := getNodeCondition node "DiskPressure" in
  let '(w, verdict) :=
    match readyCond with
    | Some cond =>
        if readyUnhealthy readyCond then
          (nodeAlertIfDue cfg rt (tGateReady t) (tSendReady t) node cond w,
           (true, "Node not Ready"))
        else (w, (false, ""))
    | None => (w, (false, ""))
    end in
  let '(w, verdict) :=
    match memoryCond with
    | Some cond =>
        if conditionTrue memoryCond then
          (nodeAlertIfDue cfg rt (tGateMemory t) (tSendMemory t) node cond w,
           (true, "Node under MemoryPressure"))
        else (w, verdict)
    | None => (w, verdict)
    end in
  let '(w, verdict) :=
    match diskCond with
    | Some cond =>
        if conditionTrue diskCond then
          (nodeAlertIfDue cfg rt (tGateDisk t) (tSendDisk t) node cond w,
           (true, "Node under DiskPressure"))
        else (w, verdict)
    | None => (w, verdict)
    end in
  let w :=
    if conditionTrue readyCond && nilOrFalse memoryCond && nilOrFalse diskCond then
      let '(state, exists_) := commaOk zeroUnitState (nodeStates (stores w) !! nodeKey) in
      if exists_ && hasError state && alertSent state
      then handleNodeRecovery cfg rt (tSendRecovery t) node w
      else w
    else w in
  (w, verdict).

(** ** Node resources (the resource calculator) *)

(** [config.NodeMonitoring] *)
Record NodeMonitoringConfig := mkNodeMonitoring {
  nm_Enabled : bool;
  nm_CPUThresholdPercent : float
}.

(** A pod of the list returned for a node: its phase and, for each
    container of its spec, the CPU request in millicores if the container
    has one. *)
Record PodOnNode := mkPodOnNode {
  pn_Phase : string;
  pn_cpuRequests : list (option Z)
}.

(** The two requests of [calculateNodeResourceUsage] on the API server,
    [None] for an error: the allocatable CPU of the node in millicores,
    and the pods on the node. *)
Record NodesAPI := mkNodesAPI {
  api_allocatableCPU : string → option Z;
  api_podsOnNode : string → option (list PodOnNode)
}.

(** [calculateNodeResourceUsage], [None] for an error. *)
Definition calculateNodeResourceUsage (api : NodesAPI) (nodeName : string)
    : option (Z * Z) :=
  match api_allocatableCPU api nodeName with
  | None => None
  | Some cpuCapacity =>
      match api_podsOnNode api nodeName with
      | None => None
      | Some pods =>
          let cpuRequests :=
            fold_left
              (fun acc pod =>
                 if negb (String.eqb (pn_Phase pod) "Running")
                    && negb (String.eqb (pn_Phase pod) "Pending")
                 then acc
                 else
                   fold_left
                     (fun acc request =>
                        match request with
                        | Some milli => wrap64 (acc + milli)
                        | None => acc
                        end)
                     (pn_cpuRequests pod) acc)
              pods 0 in
          Some (cpuCapacity, cpuRequests)
      end
  end.

(** The alerts of [processNodeResourceUsage]. *)
Definition nodeCPUAlert (rt : Runtime) (nm : NodeMonitoringConfig) (nodeName : string)
    (cpuUsagePercent : float) : Alert :=
  mkAlert ("Node " ++ nodeName ++ " CPU Alert")
    ("Node " ++ nodeName ++ " CPU usage is above threshold")
    [ mkField "Node" nodeName true;
      mkField "CPU Usage" (rt_formatFloat rt 1 cpuUsagePercent ++ "%") true;
      mkField "Threshold" (rt_formatFloat rt 1 (nm_CPUThresholdPercent nm) ++ "%") true ]
    "".

Definition nodeCPURecoveryAlert (rt : Runtime) (nodeName : string)
    (cpuUsagePercent : float) : Alert :=
  mkAlert ("Node " ++ nodeName ++ " CPU Recovery")
    ("Node " ++ nodeName ++ " CPU usage has returned to normal levels")
    [ mkField "Node" nodeName true;
      mkField "Current CPU Usage" (rt_formatFloat rt 1 cpuUsagePercent ++ "%") true ]
    "".

(** The clock readings of one [processNodeResourceUsage] call. *)
Record resourceClock := mkResourceClock {
  tGateCPU : Time;
  tSendCPU : Time;
  tSendCPURecovery : Time;
  tUpdateCPU : Time
}.

(** [processNodeResourceUsage] *)
Definition processNodeResourceUsage (nm : NodeMonitoringConfig) (api : NodesAPI)
    (cfg : Config) (rt : Runtime) (t : resourceClock) (nodeName : string) (w : World)
    : World :=
  if negb (nm_Enabled nm) then w
  else
    match calculateNodeResourceUsage api nodeName with
    | None => w
    | Some (cpuCapacity, cpuRequests) =>
        let cpuUsagePercent :=
          if 0 <? cpuCapacity then usagePercentOf cpuCapacity cpuRequests else 0%float in
        let hasErr := PrimFloat.ltb (nm_CPUThresholdPercent nm) cpuUsagePercent in
        let errorMessage :=
          if hasErr then
            "CPU usage " ++ rt_formatFloat rt 1 cpuUsagePercent ++ "% exceeds threshold "
            ++ rt_formatFloat rt 1 (nm_CPUThresholdPercent nm) ++ "%"
          else "" in
        let w :=
          if hasErr && shouldSendAlert cfg (tGateCPU t) "node_resource" nodeName (stores w)
          then
            let w := sendWebhookMessage cfg rt (tSendCPU t)
                       (nodeCPUAlert rt nm nodeName cpuUsagePercent) w in
            on_stores (markNodeResourceAlertSent nodeName) w
          else w in
        let w :=
          if negb hasErr then
            match nodeResourceStates (stores w) !! nodeName with
            | Some prevState =>
                if hasError (nr_unitState prevState) && alertSent (nr_unitState prevState)
                   && PrimFloat.ltb (nm_CPUThresholdPercent nm) (nr_cpuUsagePercent prevState)
                then sendWebhookMessage cfg rt (tSendCPURecovery t)
                       (nodeCPURecoveryAlert rt nodeName cpuUsagePercent) w
                else w
            | None => w
            end
          else w in
        on_stores (updateNodeResourceState (tUpdateCPU t) nodeName hasErr errorMessage
                     cpuCapacity cpuRequests cpuUsagePercent) w
    end.

(** What the node informer hands to [handleNode]. *)
Inductive nodeInformerObject :=
  | ANode (node : NodeObject)
  | NotANode.

(** main.go, [handleNode]; [tUpdate] is the clock reading of
    [updateNodeState]. *)
Definition handleNode (nm : NodeMonitoringConfig) (api : NodesAPI) (cfg : Config)
    (rt : Runtime) (t : nodeClock) (tUpdate : Time) (tr : resourceClock)
    (obj : nodeInformerObject) (w : World) : World :=
  match obj with
  | NotANode => w
  | ANode node =>
      let '(w, (hasErr, errorMessage)) := processNodeStatus cfg rt t node w in
      let w := on_stores (updateNodeState tUpdate (no_meta node) hasErr errorMessage) w in
      processNodeResourceUsage nm api cfg rt tr (node_Name (no_meta node)) w
  end.

(** The node is unhealthy for [processNodeStatus]: [Ready] is [False] or
    [Unknown], or a pressure condition is [True]. *)
Definition nodeUnhealthy (node : NodeObject) : bool :=
  readyUnhealthy (getNodeCondition node "Ready")
  || conditionTrue (getNodeCondition node "MemoryPressure")
  || conditionTrue (getNodeCondition node "DiskPressure").

(** The process [w] is [w0], or [w0] after one alert for the key and its
    mark. *)
Definition afterAtMostOneAlert (cfg : Config) (rt : Runtime) (f : family) (key : string)
    (w0 w : World) : Prop :=
  w = w0
  ∨ ∃ now alert, w = on_stores (markSent f key) (sendWebhookMessage cfg rt now alert w0).

(** A node whose three conditions are all unhealthy, and a leader that
    holds it in error with no alert sent yet. *)
Definition sickNode : NodeObject :=
  mkNodeObject (mkNode "n1")
    [ mkNodeCondition "MemoryPressure" "True" "KubeletHasInsufficientMemory" "low memory";
      mkNodeCondition "DiskPressure" "True" "KubeletHasDiskPressure" "disk full";
      mkNodeCondition "Ready" "False" "KubeletNotReady" "runtime down" ].

Definition sickNodeWorld : World :=
  mkWorld
    (set_nodeStates {[ "n1" := mkUnitState true 1000 "Node not Ready" 1000 false ]}
       emptyStores)
    true [].

Definition nodeClockAt (t : Time) : nodeClock := mkNodeClock t t t t t t t.
Definition resourceClockAt (t : Time) : resourceClock := mkResourceClock t t t t.

(** An API server on which node [n1] has 4 cores and a single running pod
    requesting 1 core. *)
Definition smallNodeAPI : NodesAPI :=
  mkNodesAPI (fun _ => Some 4000)
    (fun _ => Some [mkPodOnNode "Running" [Some 1000]]).

Definition nodeMonitoringDefault : NodeMonitoringConfig := mkNodeMonitoring true 80%float.

(** A leader that holds node [n1] over the CPU threshold, the alert
    sent. *)
Definition busyNodeWorld : World :=
  mkWorld
    (set_nodeResourceStates
       {[ "n1" := mkNodeResourceState
                    (mkUnitState true 1000 "CPU usage 90.0% exceeds threshold 80.0%" 1000 true)
                    4000 3600 90%float "n1" ]}
       emptyStores)
    true [].

(** ** Runs of GitOps verdicts (gitops_compare.go) *)

(** The message that [processGitOpsMismatch] stores. *)
Definition mismatchMessage (expected : Object) (actual : option Object)
    (mismatchType : string) : string :=
  "Resource " ++ mismatchType ++ ": " ++ getResourceDescription expected actual mismatchType.

(** The upsert of [processGitOpsMismatch]. *)
Definition mismatchUpsert (repoState : gitOpsRepositoryState) (expected : Object)
    (actual : option Object) (mismatchType : string) : upsertCall :=
  UpsertGitOps
    (gitOpsKey (rs_name repoState) (GetNamespace expected) (GetKind expected)
       (GetName expected))
    true (mismatchMessage expected actual mismatchType)
    (rs_name repoState) (GetKind expected) (GetName expected) (GetNamespace expected)
    mismatchType "" "".

(** A run of [processGitOpsMismatch] calls for one manifest of one
    repository with one mismatch type, oldest first; each call has its
    clock readings and the live object it was given. *)
Fixpoint processGitOpsMismatches (cfg : Config) (rt : Runtime)
    (repoState : gitOpsRepositoryState) (expected : Object) (mismatchType : string)
    (calls : list (Time * Time * Time * option Object)) (w : World) : World :=
  match calls with
  | [] => w
  | (tUpdate, tGate, tSend, actual) :: rest =>
      processGitOpsMismatches cfg rt repoState expected mismatchType rest
        (processGitOpsMismatch cfg rt tUpdate tGate tSend repoState expected actual
           mismatchType w)
  end.

(** A leader that holds the sample deployment as missing, the alert
    sent. *)
Definition missingAlertedWorld : World :=
  mkWorld
    (set_gitOpsStates
       {[ "infra/default/Deployment/web" :=
            mkGitOpsState
              (mkUnitState true 1000
                 "Resource missing: Deployment/web is missing from cluster" 1000 true)
              "infra" "Deployment" "web" "default" "missing" "" "" ]}
       emptyStores)
    true [].

(** ** Filtering and discovery (gitops_kustomize.go, gitops_compare.go) *)

(** [GitOpsFilter], and the two filters of [config.GitOps]. *)
Record GitOpsFilter := mkGitOpsFilter {
  gf_Namespaces : list string;
  gf_Kinds : list string
}.

Record GitOpsFilters := mkGitOpsFilters {
  Allowlist : GitOpsFilter;
  Denylist : GitOpsFilter
}.

(** gitops_kustomize.go, [shouldFilterResource] *)
Definition shouldFilterResource (filters : GitOpsFilters) (obj : Object) : bool :=
  let kind := GetKind obj in
  let namespace := GetNamespace obj in
  if (0 <? length (gf_Kinds (Denylist filters)))%nat
     && existsb (fun deniedKind => String.eqb kind deniedKind)
          (gf_Kinds (Denylist filters))
  then true
  else if (0 <? length (gf_Namespaces (Denylist filters)))%nat
          && existsb (fun deniedNamespace => String.eqb namespace deniedNamespace)
               (gf_Namespaces (Denylist filters))
  then true
  else if (0 <? length (gf_Kinds (Allowlist filters)))%nat
          && negb (existsb (fun allowedKind => String.eqb kind allowedKind)
                     (gf_Kinds (Allowlist filters)))
  then true
  else if (0 <? length (gf_Namespaces (Allowlist filters)))%nat
          && negb (existsb (fun allowedNamespace => String.eqb namespace allowedNamespace)
                     (gf_Namespaces (Allowlist filters)))
  then true
  else false.

(** [metav1.APIResource] and [metav1.APIResourceList] as the cache reads
    them. *)
Record APIResource := mkAPIResource {
  ar_Name : string;
  ar_Kind : string;
  ar_Namespaced : bool
}.

Record APIResourceList := mkAPIResourceList {
  rl_GroupVersion : string;
  rl_APIResources : list APIResource
}.

(** [strings.Contains(s, "/")] *)
Fixpoint containsSlash (s : string) : bool :=
  match s with
  | EmptyString => false
  | String c rest => Ascii.eqb c "/" || containsSlash rest
  end.

(** The inner loop of [initializeGVRCache] over the resources of one
    list; [gv] is the parsed group and version. *)
Definition cacheResources (gv : string * string) (resources : list APIResource)
    (cache : gmap string GroupVersionResource) : gmap string GroupVersionResource :=
  fold_left
    (fun cache apiResource =>
       if containsSlash (ar_Name apiResource) then cache
       else <[ar_Kind apiResource := mkGVR gv.1 gv.2 (ar_Name apiResource)]> cache)
    resources cache.

(** gitops_compare.go, [initializeGVRCache], once the discovery client has
    answered: the loop over the lists, a nil list being [None].
    [parseGroupVersion] is [schema.ParseGroupVersion], [None] for an
    error. *)
Definition initializeGVRCache (parseGroupVersion : string → option (string * string))
    (apiResourceLists : list (option APIResourceList))
    (cache : gmap string GroupVersionResource) : gmap string GroupVersionResource :=
  fold_left
    (fun cache apiResourceList =>
       match apiResourceList with
       | None => cache
       | Some l =>
           match parseGroupVersion (rl_GroupVersion l) with
           | None => cache
           | Some gv => cacheResources gv (rl_APIResources l) cache
           end
       end)
    apiResourceLists cache.

(** The resources that discovery offers for caching, in the order of the
    lists: the kind with its group, version and resource, for every
    resource that is not a subresource, of every list whose group version
    parses. *)
Definition discovered (parseGroupVersion : string → option (string * string))
    (apiResourceLists : list (option APIResourceList))
    : list (string * GroupVersionResource) :=
  flat_map
    (fun apiResourceList =>
       match apiResourceList with
       | None => []
       | Some l =>
           match parseGroupVersion (rl_GroupVersion l) with
           | None => []
           | Some gv =>
               flat_map
                 (fun r => if containsSlash (ar_Name r) then []
                           else [(ar_Kind r, mkGVR gv.1 gv.2 (ar_Name r))])
                 (rl_APIResources l)
           end
       end)
    apiResourceLists.

(** Filters that deny secrets and the system namespace and allow two
    namespaces. *)
Definition filtersExample : GitOpsFilters :=
  mkGitOpsFilters (mkGitOpsFilter ["default"; "prod"] [])
    (mkGitOpsFilter ["kube-system"] ["Secret"]).

(** A cluster-scoped manifest: it has no namespace. *)
Definition clusterRoleManifest : Object :=
  [ ("apiVersion", VString "rbac.authorization.k8s.io/v1");
    ("kind", VString "ClusterRole");
    ("metadata", VMap [("name", VString "reader")]) ].

(** ** Generating and comparing the manifests of a repository
    (gitops_kustomize.go, gitops_compare.go) *)

(** [GitOpsRepository] with all its settings. *)
Record RepositoryConfig := mkRepositoryConfig {
  rc_Name : string;
  rc_URL : string;
  rc_Path : string;
  rc_Branch : string;
  rc_AlertOnMismatch : bool;
  rc_AutoFix : bool;
  rc_SyncIntervalMinutes : Z;
  rc_HelmCommand : string;
  rc_CopyEnvExample : bool
}.

(** The run of Kustomize on a directory tree with a Helm command, [None]
    for an error; each resource of the result comes converted to an
    object, or as [None] when neither conversion succeeds. *)
Definition Kustomizer := string → fsnode → option (list (option Object)).

Inductive generateError :=
  | ErrNoRepositoryConfig   (* repository configuration not found *)
  | ErrNoKustomization      (* no kustomization file found *)
  | ErrKustomizeRun.        (* failed to run kustomize *)

(** One of the three file names is found in the directory. *)
Definition hasKustomization (checkout : option fsnode) : bool :=
  match checkout with
  | Some (Dir _ entries) =>
      hasName "kustomization.yaml" entries
      || hasName "kustomization.yml" entries
      || hasName "Kustomization" entries
  | _ => false
  end.

(** The loop that converts and filters the resources. *)
Fixpoint collectManifests (filters : GitOpsFilters) (resources : list (option Object))
    : list Object :=
  match resources with
  | [] => []
  | None :: rest => collectManifests filters rest
  | Some obj :: rest =>
      if shouldFilterResource filters obj then collectManifests filters rest
      else obj :: collectManifests filters rest
  end.

(** gitops_kustomize.go, [generateKustomizeManifests].  [checkout] is what
    lies at the path of the kustomization in the local clone, [None] if
    nothing does; the function returns it as it leaves it, with the
    manifests or the error. *)
Definition generateKustomizeManifests (repositories : list RepositoryConfig)
    (filters : GitOpsFilters) (kustomize : Kustomizer)
    (repoState : gitOpsRepositoryState) (checkout : option fsnode)
    : option fsnode * (generateError + list Object) :=
  match find (fun repo => String.eqb (rc_Name repo) (rs_name repoState)) repositories with
  | None => (checkout, inl ErrNoRepositoryConfig)
  | Some repoConfig =>
      let kustomizePath := [rs_localPath repoState; rs_path repoState] in
      let helmCommand :=
        if String.eqb (rc_HelmCommand repoConfig) "" then "helm"
        else rc_HelmCommand repoConfig in
      match checkout with
      | Some tree =>
          if hasKustomization checkout then
            let tree :=
              if rc_CopyEnvExample repoConfig
              then (copyEnvExampleFiles kustomizePath tree).1
              else tree in
            match kustomize helmCommand tree with
            | None => (Some tree, inl ErrKustomizeRun)
            | Some resources => (Some tree, inr (collectManifests filters resources))
            end
          else (checkout, inl ErrNoKustomization)
      | None => (checkout, inl ErrNoKustomization)
      end
  end.

(** The loop of [compareManifests]: the error of a comparison is logged
    and the loop goes on.  [clock i] holds the three clock readings of the
    comparison of the manifest at index [i]. *)
Fixpoint compareLoop (cfg : Config) (rt : Runtime) (cl : Cluster)
    (clock : nat → Time * Time * Time) (i : nat) (repoState : gitOpsRepositoryState)
    (manifests : list Object) (w : World) : World :=
  match manifests with
  | [] => w
  | manifest :: rest =>
      let '(tUpdate, tGate, tSend) := clock i in
      let '(w, _) :=
        compareManifestWithCluster cfg rt cl tUpdate tGate tSend repoState manifest w in
      compareLoop cfg rt cl clock (S i) repoState rest w
  end.

(** gitops_compare.go, [compareManifests] *)
Definition compareManifests (repositories : list RepositoryConfig)
    (filters : GitOpsFilters) (kustomize : Kustomizer) (cfg : Config) (rt : Runtime)
    (cl : Cluster) (clock : nat → Time * Time * Time) (repoState : gitOpsRepositoryState)
    (checkout : option fsnode) (w : World)
    : option fsnode * World * option generateError :=
  match generateKustomizeManifests repositories filters kustomize repoState checkout with
  | (checkout, inl err) => (checkout, w, Some err)
  | (checkout, inr manifests) =>
      (checkout, compareLoop cfg rt cl clock 0 repoState manifests w, None)
  end.

(** The key under which a manifest of a repository is filed. *)
Definition manifestKey (repoState : gitOpsRepositoryState) (manifest : Object) : string :=
  gitOpsKey (rs_name repoState) (GetNamespace manifest) (GetKind manifest)
    (GetName manifest).

(** A secret of the sample repository, and a Kustomize run that renders
    the deployment, the secret and one resource that does not convert. *)
Definition secretManifest : Object :=
  [ ("apiVersion", VString "v1");
    ("kind", VString "Secret");
    ("metadata", VMap [("name", VString "db"); ("namespace", VString "default")]) ].

Definition repositoriesExample : list RepositoryConfig :=
  [mkRepositoryConfig "infra" "https://git.example/infra.git" "apps/web" "main" true false 0
     "" true].

Definition kustomizeExample : Kustomizer :=
  fun _ _ => Some [Some deploymentManifest; Some secretManifest; None].

(** ** Registering the repositories (gitops.go) *)

(** The loop of [setupGitOpsMonitoring] that fills [gitOpsRepositories]:
    for every repository the state with its sync interval.  [joinPath] is
    [filepath.Join], [tempDir] the directory made for the clones and
    [globalSyncIntervalMinutes] the interval of [config.GitOps]. *)
Definition registerRepositories (joinPath : string → string → string) (tempDir : string)
    (globalSyncIntervalMinutes : Z) (repositories : list RepositoryConfig)
    (registry : gmap string (gitOpsRepositoryState * Duration))
    : gmap string (gitOpsRepositoryState * Duration) :=
  fold_left
    (fun registry repo =>
       if String.eqb (rc_Name repo) "" || String.eqb (rc_URL repo) "" then registry
       else
         let path := if String.eqb (rc_Path repo) "" then "." else rc_Path repo in
         let branch := if String.eqb (rc_Branch repo) "" then "main" else rc_Branch repo in
         let localPath := joinPath tempDir (rc_Name repo) in
         let syncIntervalMinutes := rc_SyncIntervalMinutes repo in
         let syncIntervalMinutes :=
           if syncIntervalMinutes <=? 0 then globalSyncIntervalMinutes
           else syncIntervalMinutes in
         let syncIntervalMinutes :=
           if syncIntervalMinutes <=? 0 then 5 else syncIntervalMinutes in
         let syncInterval := minutes syncIntervalMinutes in
         <[rc_Name repo :=
             (mkRepoState (rc_Name repo) (rc_URL repo) path branch localPath, syncInterval)]>
           registry)
    repositories registry.

(** gitops.go, [setupGitOpsMonitoring] up to the start of the monitors:
    the registry it leaves, or [None] for its error.  [mkdirTemp] is the
    outcome of [os.MkdirTemp]. *)
Definition setupGitOpsMonitoring (enabled : bool) (mkdirTemp : option string)
    (joinPath : string → string → string) (globalSyncIntervalMinutes : Z)
    (repositories : list RepositoryConfig)
    (registry : gmap string (gitOpsRepositoryState * Duration))
    : option (gmap string (gitOpsRepositoryState * Duration)) :=
  if negb enabled then Some registry
  else if (length repositories =? 0)%nat then Some registry
  else
    match mkdirTemp with
    | None => None
    | Some tempDir =>
        Some (registerRepositories joinPath tempDir globalSyncIntervalMinutes
                repositories registry)
    end.

(** The largest number of minutes that fits a [time.Duration]. *)
Definition maxMinutes : Z := 153722867.

(** The minutes between two syncs: the value of the repository if it is
    above 0, else the global value if it is above 0, else 5. *)
Definition chosenSyncMinutes (repositoryMinutes globalMinutes : Z) : Z :=
  if 0 <? repositoryMinutes then repositoryMinutes
  else if 0 <? globalMinutes then globalMinutes
  else 5.

(** What [setupGitOpsMonitoring] guarantees of the state registered under
    [name]: it comes from the last configured repository of that name
    that has a URL, with the defaults filled in. *)
Definition wellRegistered (joinPath : string → string → string) (tempDir : string)
    (globalSyncIntervalMinutes : Z) (repositories : list RepositoryConfig)
    (name : string) (entry : gitOpsRepositoryState * Duration) : Prop :=
  name ≠ ""
  ∧ rs_name entry.1 = name
  ∧ rs_url entry.1 ≠ ""
  ∧ rs_path entry.1 ≠ ""
  ∧ rs_branch entry.1 ≠ ""
  ∧ rs_localPath entry.1 = joinPath tempDir name
  ∧ (∃ before repo after,
       repositories = (before ++ repo :: after)%list
       ∧ (∀ later, In later after → rc_Name later = name → rc_URL later = "")
       ∧ rc_Name repo = name
       ∧ rs_url entry.1 = rc_URL repo
       ∧ rs_path entry.1 = (if decide (rc_Path repo = "") then "." else rc_Path repo)
       ∧ rs_branch entry.1
         = (if decide (rc_Branch repo = "") then "main" else rc_Branch repo)
       ∧ entry.2
         = minutes (chosenSyncMinutes (rc_SyncIntervalMinutes repo)
                      globalSyncIntervalMinutes)
       ∧ (rc_SyncIntervalMinutes repo ≤ maxMinutes →
          globalSyncIntervalMinutes ≤ maxMinutes →
          0 < entry.2)).

(** ** Texts that need no escaping *)

(** Printable ASCII without the double quote and the backslash: a text
    that stands for itself inside a JSON string. *)
Fixpoint plainText (s : string) : bool :=
  match s with
  | EmptyString => true
  | String c rest =>
      let n := N_of_ascii c in
      (32 <=? n)%N && (n <? 127)%N && negb (n =? 34)%N && negb (n =? 92)%N
      && plainText rest
  end.

Definition plainField (field : Field) : bool :=
  plainText (Name field) && plainText (Value field).

Definition plainAlert (alert : Alert) : bool :=
  plainText (Title alert) && plainText (Description alert)
  && forallb plainField (Fields alert) && plainText (Logs alert).

(** The text that the loop of [fieldsJSON] appends for the fields from
    index [i] on. *)
Fixpoint fieldsText (i : nat) (fields : list Field) : string :=
  match fields with
  | [] => ""
  | field :: rest =>
      (if (0 <? i)%nat then "," else "")
      ++ "{" ++ dq ++ "name" ++ dq ++ ":" ++ dq ++ Name field ++ dq
      ++ "," ++ dq ++ "value" ++ dq ++ ":" ++ dq ++ Value field ++ dq
      ++ "," ++ dq ++ "inline" ++ dq ++ ":" ++ fmtBool (Inline field) ++ "}"
      ++ fieldsText (S i) rest
  end.

(** An alert with logs and no fields. *)
Definition logsOnlyAlert : Alert := mkAlert "Pod Failure on default" "failed" [] "boom".

(** The constant parts of the text of one field, and of the field that
    carries the logs. *)
Definition fieldOpen : string := "{" ++ dq ++ "name" ++ dq ++ ":" ++ dq.
Definition fieldMid : string := dq ++ "," ++ dq ++ "value" ++ dq ++ ":" ++ dq.
Definition fieldClose (inline : bool) : string :=
  dq ++ "," ++ dq ++ "inline" ++ dq ++ ":" ++ fmtBool inline ++ "}".
Definition logsOpen : string :=
  ",{" ++ dq ++ "name" ++ dq ++ ":" ++ dq ++ "Container Logs" ++ dq
  ++ "," ++ dq ++ "value" ++ dq ++ ":" ++ dq.
Definition logsClose : string := dq ++ "," ++ dq ++ "inline" ++ dq ++ ":false}]".

(** The constant parts of the payload template around the title, the
    description, the colour, the fields and the timestamp. *)
Definition payloadOpen : string :=
  "{" ++ nl
  ++ tab ++ tab ++ dq ++ "embeds" ++ dq ++ ": [{" ++ nl
  ++ tab ++ tab ++ tab ++ dq ++ "title" ++ dq ++ ": " ++ dq.
Definition payloadAfterTitle : string :=
  dq ++ "," ++ nl ++ tab ++ tab ++ tab ++ dq ++ "description" ++ dq ++ ": " ++ dq.
Definition payloadAfterDescription (color : Z) : string :=
  dq ++ "," ++ nl
  ++ tab ++ tab ++ tab ++ dq ++ "color" ++ dq ++ ": " ++ pretty color ++ "," ++ nl
  ++ tab ++ tab ++ tab ++ dq ++ "fields" ++ dq ++ ": ".
Definition payloadAfterFields : string :=
  "," ++ nl ++ tab ++ tab ++ tab ++ dq ++ "timestamp" ++ dq ++ ": " ++ dq.

(** ** Whole entries

    The entry of a family with all of its fields: the maps of the pods
    and of the nodes hold a [unitState], the other maps a record around
    one. *)

Inductive stateRecord :=
  | UnitRecord (u : unitState)
  | NodeResourceRecord (n : nodeResourceState)
  | LonghornRecord (l : longhornUnitState)
  | GitOpsRecord (g : gitOpsState).

(** What the map of the family holds for [key], if anything. *)
Definition familyRecord (f : family) (key : string) (s : Stores) : option stateRecord :=
  match f with
  | FPod => UnitRecord <$> podStates s !! key
  | FNode => UnitRecord <$> nodeStates s !! key
  | FNodeResource => NodeResourceRecord <$> nodeResourceStates s !! key
  | FLonghorn k => LonghornRecord <$> longhornStore k s !! key
  | FGitOps => GitOpsRecord <$> gitOpsStates s !! key
  end.

Definition recordState (r : stateRecord) : unitState :=
  match r with
  | UnitRecord u => u
  | NodeResourceRecord n => nr_unitState n
  | LonghornRecord l => lh_unitState l
  | GitOpsRecord g => go_unitState g
  end.

(** The entry with [alertSent] set and every other field as it is. *)
Definition recordSent (r : stateRecord) : stateRecord :=
  match r with
  | UnitRecord u => UnitRecord (withAlertSent u)
  | NodeResourceRecord n =>
      NodeResourceRecord
        (mkNodeResourceState (withAlertSent (nr_unitState n)) (nr_cpuCapacity n)
           (nr_cpuRequests n) (nr_cpuUsagePercent n) (nr_nodeName n))
  | LonghornRecord l =>
      LonghornRecord
        (mkLonghornUnitState (withAlertSent (lh_unitState l)) (lh_resourceType l)
           (lh_capacity l) (lh_usage l) (lh_robustness l) (lh_node l) (lh_namespace l))
  | GitOpsRecord g =>
      GitOpsRecord
        (mkGitOpsState (withAlertSent (go_unitState g)) (go_repositoryName g)
           (go_resourceKind g) (go_resourceName g) (go_namespace g) (go_mismatchType g)
           (go_expectedHash g) (go_actualHash g))
  end.

(** ** The gate as the specification words it

    The equivalence of the gate with the four conditions on the entry
    (and the GitOps filter), for every interval. *)
Definition alertGateAsSpecified (cfg : Config) (now : Time) (f : family) (key : string)
    (s : Stores) : Prop :=
  alertGate cfg now f key s = true ↔
  ∃ st, familyEntry f key s = Some st
        ∧ hasError st = true
        ∧ alertSent st = false
        ∧ dwellElapsed cfg now st
        ∧ (f = FGitOps → gitOpsAlertsEnabled cfg key s).

(** An interval of 153722868 minutes, one more than a [time.Duration]
    holds, and a pod in error since the instant 1000. *)
Definition cfgLongInterval : Config :=
  mkConfig "http://hooks.example/sun" 153722868 85%float 1073741824 true [].

Definition failingPodStores : Stores :=
  set_podStates
    {[ "default/web-0" := mkUnitState true 1000 "CrashLoopBackOff" 1000 false ]}
    emptyStores.

(** A process that still holds the entry of the secret of the sample
    repository, written before secrets were put on the denylist. *)
Definition secretEntryWorld : World :=
  mkWorld
    (set_gitOpsStates
       {[ "infra/default/Secret/db" :=
            mkGitOpsState
              (mkUnitState true 1000
                 "Resource different: Secret/db differs between Git and cluster" 1000 true)
              "infra" "Secret" "db" "default" "different" "" "" ]}
       emptyStores)
    true [].

(** * Properties *)

(** ** Properties of the alert gate *)

Lemma wrap64_small z : minDuration ≤ z ≤ maxDuration → wrap64 z = z.
Proof.
  unfold wrap64, minDuration, maxDuration. intros H.
  rewrite Z.mod_small; lia.
Qed.

Lemma dwellGate_spec cfg now st :
  minDuration ≤ Interval cfg * Minute ≤ maxDuration →
  dwellGate cfg now st = true ↔ dwellElapsed cfg now st.
Proof.
  intros Hrange. unfold dwellGate, dwellElapsed.
  destruct (Z.eqb_spec (Interval cfg) 0) as [H0 | H0]; [tauto |].
  assert (Hi : minDuration ≤ Interval cfg ≤ maxDuration)
    by (unfold minDuration, maxDuration, Minute in *; lia).
  unfold minutes. rewrite (wrap64_small _ Hi), (wrap64_small _ Hrange).
  rewrite Z.leb_le. unfold Since, Sub.
  unfold minDuration, maxDuration, Minute in *.
  repeat match goal with |- context [if ?b then _ else _] =>
    let E := fresh in destruct b eqn:E;
    [apply Z.ltb_lt in E | apply Z.ltb_ge in E] end; lia.
Qed.

Lemma gate_prefix_spec (b : unitState → bool) (o : option unitState)
    (P : unitState → Prop) :
  (∀ st, b st = true ↔ P st) →
  (let '(state, exists_) := commaOk zeroUnitState o in
   if negb exists_ || negb (hasError state) || alertSent state then false
   else b state) = true
  ↔ ∃ st, o = Some st ∧ hasError st = true ∧ alertSent st = false ∧ P st.
Proof.
  intros HP. destruct o as [st |]; simpl.
  - destruct (hasError st) eqn:He, (alertSent st) eqn:Hs; simpl.
    + split; [discriminate | intros (st' & [= <-] & _ & Hs' & _); congruence].
    + rewrite (HP st). split.
      * intros HPst. exists st. by rewrite He, Hs.
      * by intros (st' & [= <-] & _ & _ & HPst).
    + split; [discriminate | intros (st' & [= <-] & He' & _); congruence].
    + split; [discriminate | intros (st' & [= <-] & He' & _); congruence].
  - split; [discriminate | by intros (st' & [=] & _)].
Qed.

Lemma repoFilter_spec (repos : list GitOpsRepository) (name : string) :
  existsb (fun repo => String.eqb (repo_Name repo) name && negb (repo_AlertOnMismatch repo))
    repos = false
  ↔ ∀ repo, In repo repos → repo_Name repo = name → repo_AlertOnMismatch repo = true.
Proof.
  induction repos as [| r repos IH]; simpl.
  - split; [intros _ repo [] | done].
  - rewrite orb_false_iff, IH. split.
    + intros [Hr Hrest] repo [<- | Hin] Hname; [| by apply Hrest].
      apply String.eqb_eq in Hname. rewrite Hname in Hr. simpl in Hr.
      by destruct (repo_AlertOnMismatch r).
    + intros Hall. split; [| intros repo Hin; apply Hall; by right].
      destruct (String.eqb_spec (repo_Name r) name) as [Hname | _]; [| done].
      simpl. by rewrite (Hall r (or_introl eq_refl) Hname).
Qed.

(** C1, amended.  As long as the configured interval, counted in minutes,
    fits a [time.Duration], for every family and key the gate returns true
    exactly when the family holds an entry for the key that is in error,
    has no alert sent yet, and whose dwell interval is 0 or has elapsed
    since [firstError]; the GitOps gate requires in addition that alerting
    is enabled globally and for the repository that owns the entry. *)
Theorem alertGate_iff (cfg : Config) (now : Time) (f : family) (key : string)
    (s : Stores) :
  minDuration ≤ Interval cfg * Minute ≤ maxDuration →
  alertGate cfg now f key s = true ↔
  ∃ st, familyEntry f key s = Some st
        ∧ hasError st = true
        ∧ alertSent st = false
        ∧ dwellElapsed cfg now st
        ∧ (f = FGitOps → gitOpsAlertsEnabled cfg key s).
Proof.
  intros Hrange.
  assert (Hplain : ∀ o : option unitState,
    (let '(state, exists_) := commaOk zeroUnitState o in
     if negb exists_ || negb (hasError state) || alertSent state then false
     else dwellGate cfg now state) = true
    ↔ ∃ st, o = Some st ∧ hasError st = true ∧ alertSent st = false
            ∧ dwellElapsed cfg now st).
  { intros o. apply (gate_prefix_spec (dwellGate cfg now)).
    intros st. by apply dwellGate_spec. }
  destruct f as [| | | k |]; simpl.
  - unfold shouldSendAlert; simpl. rewrite Hplain.
    split; intros (st & ? & ? & ? & ?); exists st; intuition discriminate.
  - unfold shouldSendAlert; simpl. rewrite Hplain.
    split; intros (st & ? & ? & ? & ?); exists st; intuition discriminate.
  - unfold shouldSendAlert; simpl.
    specialize (Hplain (nr_unitState <$> nodeResourceStates s !! key)).
    destruct (nodeResourceStates s !! key) as [ns |]; simpl in *; rewrite Hplain;
      split; intros (st & ? & ? & ? & ?); exists st; intuition discriminate.
  - unfold shouldSendLonghornAlert.
    specialize (Hplain (lh_unitState <$> longhornStore k s !! key)).
    destruct k; simpl in *;
      match goal with |- context [commaOk _ (?m !! key)] =>
        destruct (m !! key) as [ls |] end; simpl in *; rewrite Hplain;
      split; intros (st & ? & ? & ? & ?); exists st; intuition discriminate.
  - unfold shouldSendGitOpsAlert, gitOpsAlertsEnabled.
    destruct (gitOpsStates s !! key) as [g |] eqn:Hg; simpl.
    2: { split; [discriminate | by intros (st & [=] & _)]. }
    destruct (hasError (go_unitState g)) eqn:He; simpl.
    2: { split; [discriminate | intros (st & [= <-] & ? & _); congruence]. }
    destruct (alertSent (go_unitState g)) eqn:Hs; simpl.
    { split; [discriminate | intros (st & [= <-] & _ & ? & _); congruence]. }
    destruct (GitOps_AlertOnMismatch cfg) eqn:Hglob; simpl.
    2: { split; [discriminate |].
         intros (st & _ & _ & _ & _ & Hen). by destruct (Hen eq_refl). }
    destruct (existsb _ (GitOps_Repositories cfg)) eqn:Hrepos.
    + split; [discriminate |]. intros (st & _ & _ & _ & _ & Hen).
      destruct (Hen eq_refl) as [_ Hall].
      assert (Hnone : existsb (fun repo =>
                String.eqb (repo_Name repo) (go_repositoryName g)
                && negb (repo_AlertOnMismatch repo)) (GitOps_Repositories cfg) = false).
      { apply repoFilter_spec. intros repo Hin Hname. by apply (Hall g repo). }
      congruence.
    + rewrite (dwellGate_spec _ _ _ Hrange). split.
      * intros Hd. exists (go_unitState g). repeat split; try done.
        intros g' repo [= <-] Hin Hname.
        by apply (proj1 (repoFilter_spec _ _) Hrepos).
      * by intros (st & [= <-] & _ & _ & Hd & _).
Qed.

Lemma alertGate_iff_witness :
  minDuration ≤ Interval cfgExample * Minute ≤ maxDuration
  ∧ (alertGate cfgExample 180000001000 FGitOps "infra/default/Deployment/web"
       storesExample = true
     ↔ ∃ st, familyEntry FGitOps "infra/default/Deployment/web" storesExample = Some st
             ∧ hasError st = true
             ∧ alertSent st = false
             ∧ dwellElapsed cfgExample 180000001000 st
             ∧ (FGitOps = FGitOps →
                gitOpsAlertsEnabled cfgExample "infra/default/Deployment/web"
                  storesExample)).
Proof.
  assert (H : minDuration ≤ Interval cfgExample * Minute ≤ maxDuration)
    by (vm_compute; split; discriminate).
  split; [exact H |].
  exact (alertGate_iff cfgExample 180000001000 FGitOps
           "infra/default/Deployment/web" storesExample H).
Defined.

(** C1 as stated fails.  With an interval of 153722868 minutes the
    product [time.Duration(config.Interval) * time.Minute] wraps around to
    a negative duration, and the gate of a pod in error opens one
    nanosecond after [firstError]. *)
Lemma alertGate_counterexample :
  ¬ alertGateAsSpecified cfgLongInterval 1001 FPod "default/web-0" failingPodStores.
Proof.
  intros H. destruct (proj1 H eq_refl) as (st & Hst & _ & _ & Hd & _).
  vm_compute in Hst. injection Hst as <-.
  destruct Hd as [H0 | Hle]; [discriminate H0 |].
  vm_compute in Hle. by apply Hle.
Qed.

Example minutes_wraps_around : minutes 153722868 = -9223371993709551616.
Proof. reflexivity. Qed.

Example alertGate_example_fires :
  alertGate cfgExample 180000001000 FGitOps "infra/default/Deployment/web"
    storesExample = true.
Proof. reflexivity. Qed.

Example alertGate_example_dwells :
  alertGate cfgExample 180000000999 FGitOps "infra/default/Deployment/web"
    storesExample = false.
Proof. reflexivity. Qed.

(** The [gitops] case of [shouldSendAlert], which no classifier calls,
    is the plain gate: it does not look at the alerting flags. *)
Lemma shouldSendAlert_gitops_iff (cfg : Config) (now : Time) (key : string)
    (s : Stores) :
  minDuration ≤ Interval cfg * Minute ≤ maxDuration →
  shouldSendAlert cfg now "gitops" key s = true ↔
  ∃ st, familyEntry FGitOps key s = Some st
        ∧ hasError st = true
        ∧ alertSent st = false
        ∧ dwellElapsed cfg now st.
Proof.
  intros Hrange. unfold shouldSendAlert; simpl.
  pose proof (gate_prefix_spec (dwellGate cfg now)
                (go_unitState <$> gitOpsStates s !! key) (dwellElapsed cfg now)
                (fun st => dwellGate_spec cfg now st Hrange)) as H.
  destruct (gitOpsStates s !! key) as [g |]; exact H.
Qed.

(** ** Properties of the state updates *)

(** What an upsert of a family other than GitOps stores for its key. *)
Lemma upsert_entry_plain (now : Time) (c : upsertCall) (s : Stores) :
  upsertFamily c ≠ FGitOps →
  familyEntry (upsertFamily c) (upsertKey c) (upsert now c s)
  = Some (let '(fe, sent) :=
            rearm now (upsertHasError c)
              (familyEntry (upsertFamily c) (upsertKey c) s) in
          mkUnitState (upsertHasError c) now (upsertMessage c) fe sent).
Proof.
  intros Hf. destruct c; simpl in *; try done.
  - unfold updatePodState.
    destruct (podStates s !! slashKey (pod_Namespace pod) (pod_Name pod))
      as [prev |]; simpl.
    + destruct (hasErr && negb (hasError prev)), (negb hasErr); simpl;
        by rewrite lookup_insert_eq.
    + by rewrite lookup_insert_eq.
  - unfold updateNodeState.
    destruct (nodeStates s !! node_Name node) as [prev |]; simpl.
    + destruct (hasErr && negb (hasError prev)), (negb hasErr); simpl;
        by rewrite lookup_insert_eq.
    + by rewrite lookup_insert_eq.
  - unfold updateNodeResourceState.
    destruct (rearm now hasErr (nr_unitState <$> nodeResourceStates s !! nodeName));
      simpl. by rewrite lookup_insert_eq.
  - unfold updateLonghornVolumeState.
    destruct (rearm now hasErr (lh_unitState <$> longhornVolumeStates s !! key));
      simpl. by rewrite lookup_insert_eq.
  - unfold updateLonghornReplicaState.
    destruct (rearm now hasErr (lh_unitState <$> longhornReplicaStates s !! key));
      simpl. by rewrite lookup_insert_eq.
  - unfold updateLonghornEngineState.
    destruct (rearm now hasErr (lh_unitState <$> longhornEngineStates s !! key));
      simpl. by rewrite lookup_insert_eq.
  - unfold updateLonghornNodeState.
    destruct (rearm now hasErr (lh_unitState <$> longhornNodeStates s !! key));
      simpl. by rewrite lookup_insert_eq.
  - unfold updateLonghornBackupState.
    destruct (rearm now hasErr (lh_unitState <$> longhornBackupStates s !! key));
      simpl. by rewrite lookup_insert_eq.
Qed.

(** What [updateGitOpsState] stores for its key. *)
Lemma updateGitOpsState_entry (now : Time) (key : string) (hasErr : bool)
    (m rn rk rnm ns mt eh ah : string) (s : Stores) :
  go_unitState <$> gitOpsStates (updateGitOpsState now key hasErr m rn rk rnm ns mt eh ah s) !! key
  = Some (let '(fe, sent) :=
            match go_unitState <$> gitOpsStates s !! key with
            | None => (now, false)
            | Some prev =>
                if hasError prev then
                  if String.eqb (lastMessage prev) m
                  then (firstError prev, alertSent prev)
                  else (now, false)
                else if hasErr then (now, false) else (zeroTime, false)
            end in
          mkUnitState hasErr now m fe sent).
Proof.
  unfold updateGitOpsState.
  destruct (gitOpsStates s !! key) as [g |]; simpl.
  - destruct (hasError (go_unitState g)), hasErr,
      (String.eqb (lastMessage (go_unitState g)) m); simpl;
      by rewrite lookup_insert_eq.
  - by rewrite lookup_insert_eq.
Qed.

(** Recovery in the families other than GitOps: a healthy upsert over an
    existing entry zeroes [firstError] and clears [alertSent]. *)
Lemma healthy_upsert_clears_plain (now : Time) (c : upsertCall) (s : Stores) :
  upsertFamily c ≠ FGitOps → healthyUpsertClears now c s.
Proof.
  intros Hf He [prev Hprev]. rewrite (upsert_entry_plain now c s Hf).
  rewrite Hprev, He. simpl. eauto.
Qed.

(** C2, at the GitOps store.  The entry is in error with an alert sent; the
    healthy upsert of [processGitOpsMatch] (empty message) stores the clock
    reading, not the zero time, in [firstError]. *)
Theorem updateGitOpsState_recovery_keeps_time :
  let s := set_gitOpsStates
             {[ "infra/default/Deployment/web" :=
                  mkGitOpsState
                    (mkUnitState true 1000 "Resource missing: Deployment/web is missing from cluster" 1000 true)
                    "infra" "Deployment" "web" "default" "missing" "" "" ]}
             emptyStores in
  let c := UpsertGitOps "infra/default/Deployment/web" false ""
             "infra" "Deployment" "web" "default" "" "" "" in
  familyEntry FGitOps "infra/default/Deployment/web" (upsert 2000 c s)
    = Some (mkUnitState false 2000 "" 2000 false)
  ∧ ¬ healthyUpsertClears 2000 c s.
Proof.
  split; [reflexivity |].
  intros H. destruct (H eq_refl (mk_is_Some _ _ eq_refl)) as (st & Hst & Hfe & _).
  vm_compute in Hst. injection Hst as <-. discriminate Hfe.
Qed.

(** With an unchanged message text the healthy GitOps upsert keeps
    [alertSent] and [firstError] of the entry it replaces. *)
Example updateGitOpsState_recovery_same_message :
  let s := set_gitOpsStates
             {[ "k" := mkGitOpsState (mkUnitState true 1000 "" 1000 true)
                         "infra" "Deployment" "web" "default" "missing" "" "" ]}
             emptyStores in
  familyEntry FGitOps "k"
    (upsert 2000 (UpsertGitOps "k" false "" "infra" "Deployment" "web" "default" "" "" "") s)
  = Some (mkUnitState false 2000 "" 1000 true).
Proof. reflexivity. Qed.

(** C3 as stated fails: the first upsert of a healthy pod stores the clock
    reading in [firstError]. *)
Lemma first_upsert_counterexample :
  ¬ firstUpsertAsSpecified 1000 (UpsertPod (mkPod "default" "web-0") false "") emptyStores.
Proof.
  intros H. destruct (H eq_refl) as (st & Hst & Hfe & _).
  vm_compute in Hst. injection Hst as <-. discriminate Hfe.
Qed.

(** C3, amended.  For every family and every key without an entry, the
    first upsert inserts an entry whose [firstError] is the clock reading,
    whether or not the object is in error, and whose [alertSent] is
    false. *)
Theorem first_upsert_inserts (now : Time) (c : upsertCall) (s : Stores) :
  familyEntry (upsertFamily c) (upsertKey c) s = None →
  familyEntry (upsertFamily c) (upsertKey c) (upsert now c s)
  = Some (mkUnitState (upsertHasError c) now (upsertMessage c) now false).
Proof.
  intros Hnone.
  destruct (decide (upsertFamily c = FGitOps)) as [Hg | Hg].
  - destruct c; try discriminate Hg. simpl in *.
    rewrite updateGitOpsState_entry. by rewrite Hnone.
  - rewrite (upsert_entry_plain now c s Hg). by rewrite Hnone.
Qed.

Lemma first_upsert_inserts_witness :
  familyEntry FPod "default/web-0" emptyStores = None
  ∧ familyEntry FPod "default/web-0"
      (upsert 1000 (UpsertPod (mkPod "default" "web-0") false "") emptyStores)
    = Some (mkUnitState false 1000 "" 1000 false).
Proof.
  split; [reflexivity |].
  exact (first_upsert_inserts 1000 (UpsertPod (mkPod "default" "web-0") false "")
           emptyStores eq_refl).
Defined.

(** C5.  In the GitOps store, over an entry that is in error, an upsert
    that is still in error re-arms ([firstError] becomes the clock reading,
    [alertSent] false) when its message differs from the stored one, and
    keeps [firstError] and [alertSent] when the message is the same. *)
Theorem updateGitOpsState_rearm_on_message_change (now : Time) (key : string)
    (m rn rk rnm ns mt eh ah : string) (s : Stores) (prev : unitState) :
  familyEntry FGitOps key s = Some prev →
  hasError prev = true →
  ∃ st, familyEntry FGitOps key
          (upsert now (UpsertGitOps key true m rn rk rnm ns mt eh ah) s) = Some st
        ∧ hasError st = true
        ∧ (m ≠ lastMessage prev → firstError st = now ∧ alertSent st = false)
        ∧ (m = lastMessage prev →
           firstError st = firstError prev ∧ alertSent st = alertSent prev).
Proof.
  intros Hprev He. simpl in *. rewrite updateGitOpsState_entry, Hprev, He.
  destruct (String.eqb_spec (lastMessage prev) m) as [Heq | Hne];
    eexists; (split; [reflexivity |]); simpl; repeat split; congruence.
Qed.

Lemma updateGitOpsState_rearm_witness :
  familyEntry FGitOps "infra/default/Deployment/web" storesExample
    = Some (go_unitState gitOpsEntryExample)
  ∧ hasError (go_unitState gitOpsEntryExample) = true
  ∧ ∃ st, familyEntry FGitOps "infra/default/Deployment/web"
            (upsert 5000
               (UpsertGitOps "infra/default/Deployment/web" true
                  "Resource different: Deployment/web differs between Git and cluster"
                  "infra" "Deployment" "web" "default" "different" "" "")
               storesExample) = Some st
          ∧ hasError st = true
          ∧ ("Resource different: Deployment/web differs between Git and cluster"
               ≠ lastMessage (go_unitState gitOpsEntryExample) →
             firstError st = 5000 ∧ alertSent st = false)
          ∧ ("Resource different: Deployment/web differs between Git and cluster"
               = lastMessage (go_unitState gitOpsEntryExample) →
             firstError st = firstError (go_unitState gitOpsEntryExample)
             ∧ alertSent st = alertSent (go_unitState gitOpsEntryExample)).
Proof.
  split; [reflexivity |]. split; [reflexivity |].
  exact (updateGitOpsState_rearm_on_message_change 5000
           "infra/default/Deployment/web"
           "Resource different: Deployment/web differs between Git and cluster"
           "infra" "Deployment" "web" "default" "different" "" ""
           storesExample (go_unitState gitOpsEntryExample) eq_refl eq_refl).
Defined.

(** ** Properties of the webhook sink *)

(** The guard at the head of [sendWebhookMessage]. *)
Lemma sendWebhookMessage_guard (cfg : Config) (rt : Runtime) (now : Time)
    (alert : Alert) (w : World) :
  isLeader w = false → sendWebhookMessage cfg rt now alert w = w.
Proof.
  intros Hl. unfold sendWebhookMessage. by rewrite Hl.
Qed.

(** C8.  With the leader flag false when it is read, [sendWebhookMessage]
    hands no request to the HTTP client: it returns at the guard, before
    the payload is built, and leaves the process as it found it. *)
Theorem sendWebhookMessage_not_leader (cfg : Config) (rt : Runtime) (now : Time)
    (alert : Alert) (w : World) :
  isLeader w = false →
  sendWebhookMessage cfg rt now alert w = w
  ∧ posts (sendWebhookMessage cfg rt now alert w) = posts w.
Proof.
  intros Hl. by rewrite (sendWebhookMessage_guard cfg rt now alert w Hl).
Qed.

Lemma sendWebhookMessage_not_leader_witness :
  isLeader (mkWorld emptyStores false []) = false
  ∧ sendWebhookMessage cfgExample rtExample 1000 podFailureAlert
      (mkWorld emptyStores false []) = mkWorld emptyStores false []
  ∧ posts (sendWebhookMessage cfgExample rtExample 1000 podFailureAlert
             (mkWorld emptyStores false [])) = [].
Proof.
  split; [reflexivity |].
  exact (sendWebhookMessage_not_leader cfgExample rtExample 1000 podFailureAlert
           (mkWorld emptyStores false []) eq_refl).
Defined.

(** The leader with a URL that parses posts exactly the payload. *)
Lemma sendWebhookMessage_leader (cfg : Config) (rt : Runtime) (now : Time)
    (alert : Alert) (w : World) :
  isLeader w = true →
  rt_urlParses rt (WebhookUrl cfg) = true →
  posts (sendWebhookMessage cfg rt now alert w)
  = (posts w ++ [mkHttpRequest "POST" (WebhookUrl cfg) "application/json"
                   (jsonPayload alert (rt_formatRFC3339 rt now))])%list.
Proof.
  intros Hl Hu. unfold sendWebhookMessage. by rewrite Hl, Hu.
Qed.

(** The sink stores nothing. *)
Lemma sendWebhookMessage_stores (cfg : Config) (rt : Runtime) (now : Time)
    (alert : Alert) (w : World) :
  stores (sendWebhookMessage cfg rt now alert w) = stores w
  ∧ isLeader (sendWebhookMessage cfg rt now alert w) = isLeader w.
Proof.
  unfold sendWebhookMessage.
  destruct (isLeader w) eqn:Hl, (rt_urlParses rt (WebhookUrl cfg)); simpl; rewrite ?Hl; done.
Qed.

Lemma json_run_None (s : string) : Json.run s None = None.
Proof. induction s as [| c s IH]; simpl; [done | exact IH]. Qed.

Lemma json_run_app (s1 s2 : string) (st : option Json.state) :
  Json.run (s1 ++ s2) st = Json.run s2 (Json.run s1 st).
Proof.
  revert st. induction s1 as [| c s1 IH]; intros st; simpl; [done | apply IH].
Qed.

(** A text is not well formed once a prefix of it has driven the
    recogniser into the dead state. *)
Lemma json_dead_prefix (p s : string) :
  Json.run p (Some Json.initial) = None → Json.wellFormed (p ++ s) = false.
Proof.
  intros Hp. unfold Json.wellFormed. by rewrite json_run_app, Hp, json_run_None.
Qed.

(** The template itself is sound: with plain texts the payload is a JSON
    text. *)
Example jsonPayload_plain_wellFormed :
  Json.wellFormed (jsonPayload podFailureAlert "2026-10-30T12:00:00Z") = true.
Proof. vm_compute. reflexivity. Qed.

(** C10.  The payload is interpolated without escaping: for an alert with
    a double quote in its title, for one with a backslash in a field value
    and for one with a newline in its logs, the body that the leader posts
    is not a well-formed JSON text. *)
Theorem sendWebhookMessage_body_not_json (cfg : Config) (rt : Runtime) (now : Time)
    (w : World) (alert : Alert) :
  isLeader w = true →
  rt_urlParses rt (WebhookUrl cfg) = true →
  alert = quotedTitleAlert ∨ alert = backslashFieldAlert ∨ alert = newlineLogsAlert →
  hasSpecialText alert = true
  ∧ ∃ req, posts (sendWebhookMessage cfg rt now alert w) = (posts w ++ [req])%list
           ∧ req_body req = jsonPayload alert (rt_formatRFC3339 rt now)
           ∧ Json.wellFormed (req_body req) = false.
Proof.
  intros Hl Hu Ha. split.
  { destruct Ha as [-> | [-> | ->]]; reflexivity. }
  eexists. split; [by apply sendWebhookMessage_leader |].
  split; [reflexivity |]. simpl. unfold jsonPayload.
  apply json_dead_prefix.
  destruct Ha as [-> | [-> | ->]]; vm_compute; reflexivity.
Qed.

Lemma sendWebhookMessage_body_not_json_witness :
  isLeader (mkWorld emptyStores true []) = true
  ∧ rt_urlParses rtExample (WebhookUrl cfgExample) = true
  ∧ hasSpecialText newlineLogsAlert = true
  ∧ ∃ req, posts (sendWebhookMessage cfgExample rtExample 1000 newlineLogsAlert
                    (mkWorld emptyStores true [])) = ([] ++ [req])%list
           ∧ req_body req = jsonPayload newlineLogsAlert (rt_formatRFC3339 rtExample 1000)
           ∧ Json.wellFormed (req_body req) = false.
Proof.
  split; [reflexivity |]. split; [reflexivity |].
  exact (sendWebhookMessage_body_not_json cfgExample rtExample 1000
           (mkWorld emptyStores true []) newlineLogsAlert eq_refl eq_refl
           (or_intror (or_intror eq_refl))).
Defined.

(** ** Longhorn volume recovery *)

(** The verdict on some volumes: healthy, over the usage threshold (90
    percent used of 85 allowed), and short of capacity (less than 1 GiB
    left). *)
Example volumeVerdict_samples :
  volumeVerdict cfgExample rtExample "attached" "healthy" 10737418240 1073741824
    = (false, "", "")
  ∧ snd (volumeVerdict cfgExample rtExample "attached" "healthy" 100 90)
    = "usage_critical"
  ∧ volumeVerdict cfgExample rtExample "attached" "healthy" 2000000000 1500000000
    = (true, "Volume capacity critical: 500000000 bytes remaining", "capacity_critical")
  ∧ volumeVerdict cfgExample rtExample "migrating" "healthy" 0 0
    = (true, "Volume in unknown state: migrating", "unknown_state").
Proof. repeat split; vm_compute; reflexivity. Qed.

(** After the update of a healthy verdict the entry read by the recovery
    check is the healthy one, so the check sends nothing. *)
Lemma processLonghornVolumeStatus_healthy_silent (cfg : Config) (rt : Runtime)
    (tUpdate tGate tSend : Time) (name namespace state robustness : string)
    (capacity actualSize : Z) (w : World) :
  fst (fst (volumeVerdict cfg rt state robustness capacity actualSize)) = false →
  posts (processLonghornVolumeStatus cfg rt tUpdate tGate tSend name namespace
           state robustness capacity actualSize w) = posts w.
Proof.
  unfold processLonghornVolumeStatus.
  destruct (volumeVerdict cfg rt state robustness capacity actualSize)
    as [[hasErr msg] ty]; simpl. intros ->. simpl.
  unfold checkLonghornVolumeRecovery, on_stores, updateLonghornVolumeState; simpl.
  destruct (rearm tUpdate false _) as [fe sent] eqn:Hr; simpl.
  by rewrite lookup_insert_eq.
Qed.

(** C4, on the code.  The volume is in error with its alert sent and this
    replica leads; the healthy event (attached, healthy, no sizes) posts
    nothing, where the order described by the specification posts the
    recovery alert once. *)
Theorem processLonghornVolumeStatus_recovery_lost :
  posts (processLonghornVolumeStatus cfgExample rtExample 11000 11000 11000
           "vol-a" "longhorn-system" "attached" "healthy" 0 0 degradedVolumeWorld) = []
  ∧ posts (processLonghornVolumeHealthyAsSpecified cfgExample rtExample 11000 11000
             "vol-a" "longhorn-system" "attached" "healthy" 0 0 degradedVolumeWorld)
    = [mkHttpRequest "POST" (WebhookUrl cfgExample) "application/json"
         (jsonPayload (longhornVolumeRecoveryAlert "vol-a" "longhorn-system")
            "2026-10-30T12:00:00Z")].
Proof. split; vm_compute; reflexivity. Qed.

(** The scenario of a volume that degrades: with a zero interval the first
    event posts the volume alert, a second one posts nothing more. *)
Example processLonghornVolumeStatus_degraded_once :
  let w1 := processLonghornVolumeStatus cfgImmediate rtExample 1000 1000 1000
              "vol-a" "longhorn-system" "attached" "degraded" 0 0 leaderWorld in
  let w2 := processLonghornVolumeStatus cfgImmediate rtExample 2000 2000 2000
              "vol-a" "longhorn-system" "attached" "degraded" 0 0 w1 in
  map req_body (posts w1)
  = [jsonPayload
       (longhornVolumeAlert rtExample "vol-a" "longhorn-system" "attached" "degraded"
          0 0 "Volume is degraded" "degraded") "2026-10-30T12:00:00Z"]
  ∧ posts w2 = posts w1.
Proof. split; vm_compute; reflexivity. Qed.

(** A replica that does not lead posts nothing, whatever the event. *)
Lemma processLonghornVolumeStatus_not_leader (cfg : Config) (rt : Runtime)
    (tUpdate tGate tSend : Time) (name namespace state robustness : string)
    (capacity actualSize : Z) (w : World) :
  isLeader w = false →
  posts (processLonghornVolumeStatus cfg rt tUpdate tGate tSend name namespace
           state robustness capacity actualSize w) = posts w.
Proof.
  intros Hl. unfold processLonghornVolumeStatus.
  destruct (volumeVerdict cfg rt state robustness capacity actualSize)
    as [[hasErr msg] ty].
  set (w1 := on_stores _ w).
  assert (Hl1 : isLeader w1 = false) by exact Hl.
  assert (Hp1 : posts w1 = posts w) by reflexivity.
  destruct (hasErr && shouldSendLonghornAlert cfg tGate "volume" _ (stores w1)).
  - unfold on_stores, sendLonghornVolumeAlert; simpl.
    by rewrite (sendWebhookMessage_guard cfg rt tSend _ w1 Hl1).
  - destruct (negb hasErr); [| done].
    unfold checkLonghornVolumeRecovery.
    destruct (commaOk zeroLonghornUnitState _) as [prev ex].
    destruct (ex && _ && _); [| done].
    by rewrite (sendWebhookMessage_guard cfg rt tSend _ w1 Hl1).
Qed.

(** The scenario of a lost lease: the replica posts while it leads and
    stays silent on the next failure, after [OnStoppedLeading]. *)
Example leader_loss_silences_webhooks :
  let w1 := processLonghornVolumeStatus cfgImmediate rtExample 1000 1000 1000
              "vol-a" "longhorn-system" "attached" "degraded" 0 0 leaderWorld in
  let w2 := processLonghornVolumeStatus cfgImmediate rtExample 2000 2000 2000
              "vol-b" "longhorn-system" "attached" "faulted" 0 0
              (set_isLeader false w1) in
  length (posts w1) = 1%nat ∧ posts w2 = posts w1.
Proof. split; vm_compute; reflexivity. Qed.

(** ** Dry-run failures in the GitOps comparison *)

Lemma checkGitOpsRecovery_stores (cfg : Config) (rt : Runtime) (now : Time)
    (key rn rk rnm ns : string) (w : World) :
  stores (checkGitOpsRecovery cfg rt now key rn rk rnm ns w) = stores w.
Proof.
  unfold checkGitOpsRecovery.
  destruct (commaOk zeroGitOpsState _) as [prev ex].
  destruct (ex && _ && _); [apply sendWebhookMessage_stores | done].
Qed.

Lemma checkGitOpsRecovery_posts (cfg : Config) (rt : Runtime) (now : Time)
    (key rn rk rnm ns : string) (w : World) :
  posts (checkGitOpsRecovery cfg rt now key rn rk rnm ns w) = posts w
  ∨ posts (checkGitOpsRecovery cfg rt now key rn rk rnm ns w)
    = (posts w ++ [mkHttpRequest "POST" (WebhookUrl cfg) "application/json"
                     (jsonPayload (gitOpsRecoveryAlert rn rk rnm ns)
                        (rt_formatRFC3339 rt now))])%list.
Proof.
  unfold checkGitOpsRecovery.
  destruct (commaOk zeroGitOpsState _) as [prev ex].
  destruct (ex && _ && _); [| by left].
  unfold sendWebhookMessage.
  destruct (isLeader w); simpl; [| by left].
  destruct (rt_urlParses rt (WebhookUrl cfg)); simpl; [by right | by left].
Qed.

(** C7.  When the dry-run apply of an expected manifest fails, or its kind
    has no entry in the discovery cache, [resourcesAreDifferent] answers
    false.  A comparison whose kind is unknown returns an error and leaves
    the process as it was; the comparison of a manifest whose live object
    was fetched and whose dry-run failed takes the path of a match: the
    entry stored for the resource is healthy with no mismatch type, and the
    only request the call can post is the recovery alert. *)
Theorem dry_run_failure_treated_as_equal (cfg : Config) (rt : Runtime) (cl : Cluster)
    (tUpdate tGate tSend : Time) (repoState : gitOpsRepositoryState)
    (manifest actual : Object) (w : World) :
  (getGVRForKind cl (GetKind manifest) = None
   ∨ ∃ gvr, getGVRForKind cl (GetKind manifest) = Some gvr
            ∧ dryRunApply cl gvr manifest = None) →
  resourcesAreDifferent rt cl manifest actual = false
  ∧ (getGVRForKind cl (GetKind manifest) = None →
     compareManifestWithCluster cfg rt cl tUpdate tGate tSend repoState manifest w
     = (w, Some (ErrGVR (GetKind manifest))))
  ∧ ∀ gvr, getGVRForKind cl (GetKind manifest) = Some gvr →
           liveGet cl gvr manifest = GetOk actual →
           let key := gitOpsKey (rs_name repoState) (GetNamespace manifest)
                        (GetKind manifest) (GetName manifest) in
           let r := compareManifestWithCluster cfg rt cl tUpdate tGate tSend
                      repoState manifest w in
           r = (processGitOpsMatch cfg rt tUpdate tSend repoState manifest w, None)
           ∧ (∃ g, gitOpsStates (stores (fst r)) !! key = Some g
                   ∧ hasError (go_unitState g) = false
                   ∧ go_mismatchType g = "")
           ∧ (posts (fst r) = posts w
              ∨ posts (fst r)
                = (posts w ++ [mkHttpRequest "POST" (WebhookUrl cfg) "application/json"
                                 (jsonPayload
                                    (gitOpsRecoveryAlert (rs_name repoState)
                                       (GetKind manifest) (GetName manifest)
                                       (GetNamespace manifest))
                                    (rt_formatRFC3339 rt tSend))])%list).
Proof.
  intros Hfail.
  assert (Hsame : resourcesAreDifferent rt cl manifest actual = false).
  { unfold resourcesAreDifferent.
    destruct Hfail as [-> | (gvr & -> & ->)]; reflexivity. }
  split; [exact Hsame |]. split.
  { intros Hnone. unfold compareManifestWithCluster. by rewrite Hnone. }
  intros gvr Hgvr Hget key r.
  assert (Hr : r = (processGitOpsMatch cfg rt tUpdate tSend repoState manifest w, None)).
  { subst r. unfold compareManifestWithCluster. by rewrite Hgvr, Hget, Hsame. }
  split; [exact Hr |]. rewrite Hr. simpl. unfold processGitOpsMatch. fold key. split.
  - unfold on_stores, updateGitOpsState; simpl.
    destruct (commaOk zeroGitOpsState _) as [prev ex].
    destruct (negb ex || _ || _); [| destruct (ex && _)]; simpl;
      rewrite lookup_insert_eq; eauto.
  - unfold on_stores; simpl. apply checkGitOpsRecovery_posts.
Qed.

Lemma dry_run_failure_witness :
  (getGVRForKind refusingCluster (GetKind deploymentManifest) = None
   ∨ ∃ gvr, getGVRForKind refusingCluster (GetKind deploymentManifest) = Some gvr
            ∧ dryRunApply refusingCluster gvr deploymentManifest = None)
  ∧ resourcesAreDifferent rtExample refusingCluster deploymentManifest deploymentLive
    = false.
Proof.
  assert (H : getGVRForKind refusingCluster (GetKind deploymentManifest) = None
              ∨ ∃ gvr, getGVRForKind refusingCluster (GetKind deploymentManifest) = Some gvr
                       ∧ dryRunApply refusingCluster gvr deploymentManifest = None).
  { right. exists deploymentsGVR. split; reflexivity. }
  split; [exact H |].
  exact (proj1 (dry_run_failure_treated_as_equal cfgExample rtExample refusingCluster
                  1000 1000 1000 infraRepo deploymentManifest deploymentLive
                  leaderWorld H)).
Defined.

(** The same manifest against a cluster whose dry-run succeeds is reported
    as drift: the live object has five replicas where Git asks for three. *)
Example drift_is_detected :
  resourcesAreDifferent rtExample
    (mkCluster {[ "Deployment" := deploymentsGVR ]}
       (fun _ _ _ => GetOk deploymentLive)
       (fun _ _ _ obj => Some obj))
    deploymentManifest deploymentLive = true.
Proof. vm_compute. reflexivity. Qed.

(** The scenario of a missing resource: the first comparison records the
    mismatch and posts the alert; once the resource is applied the next
    comparison posts the recovery and stores a healthy entry. *)
Example missing_then_in_sync :
  let w1 := (compareManifestWithCluster cfgImmediate rtExample emptyCluster
               1000 1000 1000 infraRepo deploymentManifest leaderWorld).1 in
  let w2 := (compareManifestWithCluster cfgImmediate rtExample inSyncCluster
               2000 2000 2000 infraRepo deploymentManifest w1).1 in
  (go_mismatchType <$> gitOpsStates (stores w1) !! "infra/default/Deployment/web")
  = Some "missing"
  ∧ map req_body (posts w1)
    = [jsonPayload
         (gitOpsMismatchAlert "infra" (Some deploymentManifest) None "missing")
         "2026-10-30T12:00:00Z"]
  ∧ map req_body (posts w2)
    = [jsonPayload
         (gitOpsMismatchAlert "infra" (Some deploymentManifest) None "missing")
         "2026-10-30T12:00:00Z";
       jsonPayload (gitOpsRecoveryAlert "infra" "Deployment" "web" "default")
         "2026-10-30T12:00:00Z"]
  ∧ (go_unitState <$> gitOpsStates (stores w2) !! "infra/default/Deployment/web")
    = Some (mkUnitState false 2000 "" 2000 false).
Proof. repeat split; vm_compute; reflexivity. Qed.

(** ** Properties of the JSON encoding of string maps *)

Lemma append_cons (c : ascii) (s t : string) : String c s ++ t = String c (s ++ t).
Proof. reflexivity. Qed.

Lemma append_assoc (s t u : string) : (s ++ t) ++ u = s ++ (t ++ u).
Proof.
  induction s as [| c s IH]; [reflexivity |].
  rewrite !append_cons. by rewrite IH.
Qed.


Lemma decodeByte_quote (rest : string) : decodeByte (dq ++ rest) = None.
Proof. reflexivity. Qed.








(** ** Properties of [resourcesEqual] *)





Lemma hasMetadata_not (o : Object) :
  (∀ meta, NestedMap o ["metadata"] ≠ Found meta) → ¬ hasMetadata o.
Proof. intros H [meta Hm]. by apply (H meta). Qed.





(** ** Properties of the [.env.example] copier *)

(** Induction on a tree, with the hypothesis for every entry of a
    directory. *)
Lemma fsnode_induction (P : fsnode → Prop) :
  (∀ r d, P (File r d)) →
  (∀ w es, Forall (fun e => P e.2) es → P (Dir w es)) →
  ∀ n, P n.
Proof.
  intros HF HD.
  fix IH 1. intros [r d | w es]; [apply HF |].
  apply HD. induction es as [| [name child] es IHes]; constructor; [apply IH | exact IHes].
Qed.

Lemma walk_Dir (p : list string) (w : bool) (es : list (string * fsnode)) :
  walk p (Dir w es)
  = let '(entries', env, err) := visitEntries p w es (initialEnv es) in
    (Dir w (settleEntries env entries'), err).
Proof.
  cbn [walk].
  match goal with
  | |- context [?f es (initialEnv es)] =>
      assert (H : ∀ todo env, f todo env = visitEntries p w todo env)
  end.
  { induction todo as [| [name child] rest IH]; intros env; [reflexivity |].
    destruct child as [r d | w' sub]; cbn [visitEntries].
    - destruct (visitFile p w name r d env) as [env1 [e |]]; [reflexivity |].
      by rewrite IH.
    - destruct (walk (p ++ [name])%list (Dir w' sub)) as [child' [e |]]; [reflexivity |].
      by rewrite IH. }
  by rewrite H.
Qed.

Lemma walk_File (p : list string) (r : bool) (d : string) :
  walk p (File r d) = (File r d, None).
Proof. reflexivity. Qed.

(** The walk keeps a directory a directory, with its permission. *)
Lemma walk_Dir_shape (p : list string) (w : bool) (es : list (string * fsnode)) :
  ∃ es', (walk p (Dir w es)).1 = Dir w es'.
Proof.
  rewrite walk_Dir. destruct (visitEntries _ _ _ _) as [[es' env] e]. by eexists.
Qed.

Lemma visitFile_stable (p : list string) (w : bool) (name : string) (r : bool)
    (d : string) (env : envState) :
  env ≠ EnvAbsent → visitFile p w name r d env = (env, None).
Proof.
  intros H. unfold visitFile.
  destruct (negb (String.eqb name ".env.example")); [done |]. by destruct env.
Qed.

(** Once the sibling [.env] is there, the visit of a directory leaves the
    state alone. *)
Lemma visitEntries_stable (p : list string) (w : bool) (todo : list (string * fsnode))
    (env : envState) :
  env ≠ EnvAbsent → (visitEntries p w todo env).1.2 = env.
Proof.
  intros H. induction todo as [| [name child] rest IH]; [done |].
  destruct child as [r d | w' sub]; cbn [visitEntries].
  - rewrite visitFile_stable by done.
    destruct (visitEntries p w rest env) as [[rest' env'] e'] eqn:E. simpl in *. done.
  - destruct (walk (p ++ [name])%list (Dir w' sub)) as [child' [e |]]; [done |].
    destruct (visitEntries p w rest env) as [[rest' env'] e'] eqn:E. simpl in *. done.
Qed.

(** A second visit of the entries, started from the state in which the
    first one left the directory, changes nothing and ends as the first. *)
Lemma visitEntries_again (p : list string) (w : bool) (todo : list (string * fsnode))
    (env : envState) :
  Forall (fun e => walkIdempotent e.2) todo →
  let r := visitEntries p w todo env in
  visitEntries p w r.1.1 (settled r.1.2) = (r.1.1, settled r.1.2, r.2).
Proof.
  intros Hall. revert env.
  induction Hall as [| [name child] rest Hchild _ IH]; intros env; [done |].
  destruct child as [r d | w' sub]; cbn [visitEntries].
  - destruct (visitFile p w name r d env) as [env1 [e |]] eqn:Ev.
    + (* the callback failed: the state was absent and stays absent *)
      cbn [fst snd]. unfold visitFile in Ev.
      destruct (negb (String.eqb name ".env.example")) eqn:En; [discriminate Ev |].
      destruct env; try discriminate Ev.
      cbn [visitEntries]. unfold visitFile. rewrite En.
      destruct (negb r); [by injection Ev as <- <- |].
      destruct (negb w); [by injection Ev as <- <- | discriminate Ev].
    + specialize (IH env1).
      destruct (visitEntries p w rest env1) as [[rest' env'] e'] eqn:E.
      cbn [fst snd] in *. cbn [visitEntries].
      assert (Hv : visitFile p w name r d (settled env') = (settled env', None)).
      { unfold visitFile in *.
        destruct (negb (String.eqb name ".env.example")) eqn:En; [done |].
        destruct env.
        - destruct (negb r); [discriminate Ev |].
          destruct (negb w); [discriminate Ev |]. injection Ev as <-.
          pose proof (visitEntries_stable p w rest (EnvCopied d)) as Hs.
          rewrite E in Hs. cbn [fst snd] in Hs. by rewrite Hs.
        - injection Ev as <-.
          pose proof (visitEntries_stable p w rest EnvPresent) as Hs.
          rewrite E in Hs. cbn [fst snd] in Hs. by rewrite Hs.
        - injection Ev as <-.
          pose proof (visitEntries_stable p w rest (EnvCopied data)) as Hs.
          rewrite E in Hs. cbn [fst snd] in Hs. by rewrite Hs. }
      rewrite Hv, IH. done.
  - pose proof (Hchild (p ++ [name])%list) as Hc. cbn [snd] in Hc.
    destruct (walk_Dir_shape (p ++ [name])%list w' sub) as [sub' Hshape].
    destruct (walk (p ++ [name])%list (Dir w' sub)) as [child' [e |]] eqn:Ew;
      cbn [fst snd] in *; subst child'.
    + cbn [visitEntries]. rewrite Hc.
      destruct env; done.
    + specialize (IH env).
      destruct (visitEntries p w rest env) as [[rest' env'] e'] eqn:E.
      cbn [fst snd] in *. cbn [visitEntries]. rewrite Hc, IH. done.
Qed.

(** The visit keeps the names of the entries, in their order. *)
Lemma visitEntries_names (p : list string) (w : bool) (todo : list (string * fsnode))
    (env : envState) :
  map fst (visitEntries p w todo env).1.1 = map fst todo.
Proof.
  revert env. induction todo as [| [name child] rest IH]; intros env; [done |].
  destruct child as [r d | w' sub]; cbn [visitEntries].
  - destruct (visitFile p w name r d env) as [env1 [e |]]; [done |].
    specialize (IH env1).
    destruct (visitEntries p w rest env1) as [[rest' env'] e']. simpl in *. by rewrite IH.
  - destruct (walk (p ++ [name])%list (Dir w' sub)) as [child' [e |]]; [done |].
    specialize (IH env).
    destruct (visitEntries p w rest env) as [[rest' env'] e']. simpl in *. by rewrite IH.
Qed.

Lemma hasName_names (name : string) (l l' : list (string * fsnode)) :
  map fst l = map fst l' → hasName name l = hasName name l'.
Proof.
  revert l'. induction l as [| [k v] l IH]; intros [| [k' v'] l'] H; try done.
  injection H as -> H. unfold hasName in *. simpl. by rewrite (IH l' H).
Qed.

Lemma hasName_insertEntry (name : string) (n : fsnode) (l : list (string * fsnode)) :
  hasName name (insertEntry name n l) = true.
Proof.
  induction l as [| [k v] l IH]; simpl.
  - unfold hasName. simpl. by rewrite String.eqb_refl.
  - destruct (String.leb name k); unfold hasName in *; simpl.
    + by rewrite String.eqb_refl.
    + rewrite IH. apply orb_true_r.
Qed.

(** The state of a visit is [EnvPresent] only if it started so. *)
Lemma visitEntries_present (p : list string) (w : bool) (todo : list (string * fsnode))
    (env : envState) :
  (visitEntries p w todo env).1.2 = EnvPresent → env = EnvPresent.
Proof.
  destruct env as [| | data]; [| done |].
  - revert p. induction todo as [| [name child] rest IH]; intros p; [done |].
    destruct child as [r d | w' sub]; cbn [visitEntries].
    + unfold visitFile.
      destruct (negb (String.eqb name ".env.example")).
      * specialize (IH p).
        destruct (visitEntries p w rest EnvAbsent) as [[rest' env'] e']. exact IH.
      * destruct (negb r); [done |]. destruct (negb w); [done |].
        pose proof (visitEntries_stable p w rest (EnvCopied d)) as Hs.
        destruct (visitEntries p w rest (EnvCopied d)) as [[rest' env'] e'].
        simpl in *. rewrite Hs by done. done.
    + destruct (walk (p ++ [name])%list (Dir w' sub)) as [child' [e |]]; [done |].
      specialize (IH p).
      destruct (visitEntries p w rest EnvAbsent) as [[rest' env'] e']. exact IH.
  - rewrite visitEntries_stable by done. done.
Qed.

(** The state of a visit is [EnvAbsent] only if it started so. *)
Lemma visitEntries_absent (p : list string) (w : bool) (todo : list (string * fsnode))
    (env : envState) :
  (visitEntries p w todo env).1.2 = EnvAbsent → env = EnvAbsent.
Proof.
  destruct env as [| | data]; [done | |]; rewrite visitEntries_stable by done; done.
Qed.

Lemma visitEntries_File (p : list string) (w : bool) (name : string) (r : bool)
    (d : string) (rest : list (string * fsnode)) (env : envState) :
  visitEntries p w ((name, File r d) :: rest) env
  = let '(env1, err) := visitFile p w name r d env in
    match err with
    | Some e => ((name, File r d) :: rest, env1, Some e)
    | None =>
        let '(rest', env', err') := visitEntries p w rest env1 in
        ((name, File r d) :: rest', env', err')
    end.
Proof. reflexivity. Qed.

(** A plain file that joins a directory whose [.env] is there is passed
    over by the visit. *)
Lemma visitEntries_insert (p : list string) (w : bool) (l : list (string * fsnode))
    (env : envState) (d : string) (e : option copyError) :
  env ≠ EnvAbsent →
  visitEntries p w l env = (l, env, e) →
  visitEntries p w (insertEntry ".env" (File true d) l) env
  = (insertEntry ".env" (File true d) l, env, e).
Proof.
  intros Henv. revert e. induction l as [| [k v] l IH]; intros e H.
  - cbn [insertEntry visitEntries] in *. rewrite visitFile_stable by done.
    by injection H as <-.
  - cbn [insertEntry]. destruct (String.leb ".env" k).
    + rewrite visitEntries_File, visitFile_stable by done. by rewrite H.
    + destruct v as [r dv | w' sub]; cbn [visitEntries] in *.
      * rewrite visitFile_stable in * by done.
        destruct (visitEntries p w l env) as [[l' env'] e'] eqn:E.
        injection H as Hl <- <-. rewrite (IH e') by (by rewrite Hl). done.
      * destruct (walk (p ++ [k])%list (Dir w' sub)) as [child' [err |]] eqn:Ew.
        -- injection H as <- <-. done.
        -- destruct (visitEntries p w l env) as [[l' env'] e'] eqn:E.
           injection H as <- Hl <- <-. rewrite (IH e') by (by rewrite Hl). done.
Qed.

(** A second walk of the tree left by a first one changes nothing and
    ends with the same outcome. *)
Lemma walk_idempotent (n : fsnode) : walkIdempotent n.
Proof.
  induction n as [r d | w es IH] using fsnode_induction; intros p; [done |].
  rewrite walk_Dir.
  pose proof (visitEntries_again p w es (initialEnv es) IH) as Hagain.
  pose proof (visitEntries_names p w es (initialEnv es)) as Hnames.
  pose proof (visitEntries_present p w es (initialEnv es)) as Hpres.
  pose proof (visitEntries_absent p w es (initialEnv es)) as Habs.
  destruct (visitEntries p w es (initialEnv es)) as [[es' env] e] eqn:E.
  cbn [fst snd] in *. rewrite walk_Dir.
  assert (Hinit : initialEnv (settleEntries env es') = settled env).
  { unfold initialEnv. destruct env as [| | data]; cbn [settleEntries settled].
    - rewrite (hasName_names ".env" es' es Hnames).
      specialize (Habs eq_refl). unfold initialEnv in Habs.
      by destruct (hasName ".env" es).
    - rewrite (hasName_names ".env" es' es Hnames).
      specialize (Hpres eq_refl). unfold initialEnv in Hpres.
      by destruct (hasName ".env" es).
    - by rewrite hasName_insertEntry. }
  rewrite Hinit.
  destruct env as [| | data]; cbn [settleEntries settled] in *.
  - by rewrite Hagain.
  - by rewrite Hagain.
  - rewrite (visitEntries_insert p w es' EnvPresent data e) by done. done.
Qed.

Lemma hasName_mapGet (name : string) (l : list (string * fsnode)) :
  hasName name l = false ↔ mapGet name l = None.
Proof.
  unfold hasName. induction l as [| [k v] l IH]; simpl; [done |].
  destruct (String.eqb k name); simpl; [split; discriminate | exact IH].
Qed.

Lemma mapGet_insertEntry_ne (name k : string) (n : fsnode) (l : list (string * fsnode)) :
  k ≠ name → mapGet name (insertEntry k n l) = mapGet name l.
Proof.
  intros Hne. apply String.eqb_neq in Hne.
  induction l as [| [k' v] l IH]; simpl.
  - by rewrite Hne.
  - destruct (String.leb k k'); simpl.
    + by rewrite Hne.
    + by rewrite IH.
Qed.

Lemma mapGet_insertEntry_eq (k : string) (n : fsnode) (l : list (string * fsnode)) :
  mapGet k l = None → mapGet k (insertEntry k n l) = Some n.
Proof.
  induction l as [| [k' v] l IH]; simpl.
  - by rewrite String.eqb_refl.
  - destruct (String.eqb k' k) eqn:E; [discriminate |]. intros H.
    destruct (String.leb k k'); simpl.
    + by rewrite String.eqb_refl.
    + rewrite E. by apply IH.
Qed.

Lemma mapGet_Forall (P : fsnode → Prop) (name : string) (c : fsnode)
    (l : list (string * fsnode)) :
  Forall (fun e => P e.2) l → mapGet name l = Some c → P c.
Proof.
  induction 1 as [| [k v] l Hv _ IH]; simpl; [discriminate |].
  destruct (String.eqb k name); [by intros [= <-] | exact IH].
Qed.

(** When the walk of a directory ends with a copy, no [.env] was listed. *)
Lemma copied_was_absent (p : list string) (w : bool) (es : list (string * fsnode))
    (data : string) :
  (visitEntries p w es (initialEnv es)).1.2 = EnvCopied data → mapGet ".env" es = None.
Proof.
  intros H. apply hasName_mapGet. unfold initialEnv in H.
  destruct (hasName ".env" es); [| done].
  rewrite visitEntries_stable in H by done. discriminate H.
Qed.

(** The entry found under a name after the visit is the one found before,
    as it was or walked. *)
Lemma visitEntries_mapGet (p : list string) (w : bool) (todo : list (string * fsnode))
    (env : envState) (name : string) (c : fsnode) :
  mapGet name todo = Some c →
  mapGet name (visitEntries p w todo env).1.1 = Some c
  ∨ mapGet name (visitEntries p w todo env).1.1 = Some (walk (p ++ [name])%list c).1.
Proof.
  revert env. induction todo as [| [k v] rest IH]; intros env; [discriminate |].
  simpl mapGet at 1. destruct (String.eqb_spec k name) as [-> | Hne].
  - intros [= ->]. destruct c as [r d | w' sub]; cbn [visitEntries].
    + destruct (visitFile p w name r d env) as [env1 [e |]].
      * left. simpl. by rewrite String.eqb_refl.
      * destruct (visitEntries p w rest env1) as [[rest' env'] e'].
        left. simpl. by rewrite String.eqb_refl.
    + destruct (walk (p ++ [name])%list (Dir w' sub)) as [child' [e |]] eqn:Ew.
      * right. simpl. by rewrite String.eqb_refl.
      * destruct (visitEntries p w rest env) as [[rest' env'] e'].
        right. simpl. by rewrite String.eqb_refl.
  - intros Hc. apply String.eqb_neq in Hne.
    destruct v as [r d | w' sub]; cbn [visitEntries].
    + destruct (visitFile p w k r d env) as [env1 [e |]].
      * left. simpl. by rewrite Hne.
      * specialize (IH env1 Hc).
        destruct (visitEntries p w rest env1) as [[rest' env'] e'].
        simpl in *. by rewrite Hne.
    + destruct (walk (p ++ [k])%list (Dir w' sub)) as [child' [e |]].
      * left. simpl. by rewrite Hne.
      * specialize (IH env Hc).
        destruct (visitEntries p w rest env) as [[rest' env'] e'].
        simpl in *. by rewrite Hne.
Qed.

(** The same through the finished directory. *)
Lemma walk_Dir_mapGet (p : list string) (w : bool) (es : list (string * fsnode))
    (name : string) (c : fsnode) :
  mapGet name es = Some c →
  ∃ es', (walk p (Dir w es)).1 = Dir w es'
         ∧ (mapGet name es' = Some c
            ∨ mapGet name es' = Some (walk (p ++ [name])%list c).1).
Proof.
  intros Hc. rewrite walk_Dir.
  pose proof (visitEntries_mapGet p w es (initialEnv es) name c Hc) as Hget.
  pose proof (copied_was_absent p w es) as Habs.
  destruct (visitEntries p w es (initialEnv es)) as [[es' env] e].
  cbn [fst snd] in *. eexists. split; [reflexivity |].
  destruct env as [| | data]; cbn [settleEntries]; try exact Hget.
  rewrite mapGet_insertEntry_ne; [exact Hget |].
  intros <-. rewrite (Habs data eq_refl) in Hc. discriminate Hc.
Qed.

(** The walk overwrites no file. *)
Lemma walk_keeps_files (n : fsnode) :
  ∀ p q r d, lookupPath q n = Some (File r d) →
             lookupPath q (walk p n).1 = Some (File r d).
Proof.
  induction n as [r0 d0 | w es IH] using fsnode_induction; intros p q r d Hq.
  - exact Hq.
  - destruct q as [| name rest]; [discriminate Hq |].
    cbn [lookupPath] in Hq.
    destruct (mapGet name es) as [c |] eqn:Hc; [| discriminate Hq].
    destruct (walk_Dir_mapGet p w es name c Hc) as (es' & -> & [Hget | Hget]);
      cbn [lookupPath]; rewrite Hget; [exact Hq |].
    pose proof (mapGet_Forall
                  (fun n => ∀ p q r d, lookupPath q n = Some (File r d) →
                                       lookupPath q (walk p n).1 = Some (File r d))
                  name c es IH Hc) as Hwalked.
    by apply Hwalked.
Qed.

(** A visit that ends without error has walked every entry to its end. *)
Lemma visitEntries_success (p : list string) (w : bool) (todo : list (string * fsnode))
    (env : envState) (name : string) (c : fsnode) :
  (visitEntries p w todo env).2 = None →
  mapGet name todo = Some c →
  mapGet name (visitEntries p w todo env).1.1 = Some (walk (p ++ [name])%list c).1
  ∧ (walk (p ++ [name])%list c).2 = None.
Proof.
  revert env. induction todo as [| [k v] rest IH]; intros env Hok; [discriminate |].
  simpl mapGet at 1. destruct (String.eqb_spec k name) as [-> | Hne].
  - intros [= ->]. destruct c as [r d | w' sub]; cbn [visitEntries] in *.
    + destruct (visitFile p w name r d env) as [env1 [e |]]; [discriminate Hok |].
      destruct (visitEntries p w rest env1) as [[rest' env'] e'].
      simpl. by rewrite String.eqb_refl.
    + destruct (walk (p ++ [name])%list (Dir w' sub)) as [child' [e |]] eqn:Ew;
        [discriminate Hok |].
      destruct (visitEntries p w rest env) as [[rest' env'] e'].
      simpl. by rewrite String.eqb_refl.
  - intros Hc. apply String.eqb_neq in Hne.
    destruct v as [r d | w' sub]; cbn [visitEntries] in *.
    + destruct (visitFile p w k r d env) as [env1 [e |]]; [discriminate Hok |].
      specialize (IH env1).
      destruct (visitEntries p w rest env1) as [[rest' env'] e'].
      simpl in *. rewrite Hne. by apply IH.
    + destruct (walk (p ++ [k])%list (Dir w' sub)) as [child' [e |]];
        [discriminate Hok |].
      specialize (IH env).
      destruct (visitEntries p w rest env) as [[rest' env'] e'].
      simpl in *. rewrite Hne. by apply IH.
Qed.

(** A visit that starts without [.env] and ends without error has copied
    the listed [.env.example]. *)
Lemma visitEntries_copies (p : list string) (w : bool) (todo : list (string * fsnode))
    (r : bool) (d : string) :
  (visitEntries p w todo EnvAbsent).2 = None →
  mapGet ".env.example" todo = Some (File r d) →
  (visitEntries p w todo EnvAbsent).1.2 = EnvCopied d.
Proof.
  induction todo as [| [k v] rest IH]; intros Hok; [discriminate |].
  simpl mapGet at 1. destruct (String.eqb_spec k ".env.example") as [-> | Hne].
  - intros [= ->]. rewrite visitEntries_File in *.
    unfold visitFile in *. cbn [String.eqb Ascii.eqb Bool.eqb negb] in *.
    destruct (negb r); [discriminate Hok |].
    destruct (negb w); [discriminate Hok |].
    pose proof (visitEntries_stable p w rest (EnvCopied d)) as Hs.
    destruct (visitEntries p w rest (EnvCopied d)) as [[rest' env'] e'].
    simpl in *. by apply Hs.
  - intros Hc. apply String.eqb_neq in Hne.
    destruct v as [r' d' | w' sub]; cbn [visitEntries] in *.
    + unfold visitFile in *. rewrite Hne in *. cbn [negb] in *.
      destruct (visitEntries p w rest EnvAbsent) as [[rest' env'] e'].
      simpl in *. by apply IH.
    + destruct (walk (p ++ [k])%list (Dir w' sub)) as [child' [e |]];
        [discriminate Hok |].
      destruct (visitEntries p w rest EnvAbsent) as [[rest' env'] e'].
      simpl in *. by apply IH.
Qed.

(** A walk that ends without error has given every directory that lists
    an [.env.example] file and no [.env] a copy of it. *)
Lemma walk_copies (q : list string) :
  ∀ n p w es r d,
    (walk p n).2 = None →
    lookupPath q n = Some (Dir w es) →
    mapGet ".env.example" es = Some (File r d) →
    mapGet ".env" es = None →
    lookupPath (q ++ [".env"])%list (walk p n).1 = Some (File true d).
Proof.
  induction q as [| name rest IH]; intros n p w es r d Hok Hq Hex Henv.
  - injection Hq as ->. rewrite walk_Dir in *.
    pose proof (visitEntries_names p w es (initialEnv es)) as Hnames.
    assert (Hinit : initialEnv es = EnvAbsent).
    { unfold initialEnv. by rewrite (proj2 (hasName_mapGet ".env" es) Henv). }
    rewrite Hinit in *.
    pose proof (visitEntries_copies p w es r d) as Hcopy.
    destruct (visitEntries p w es EnvAbsent) as [[es' env] e].
    cbn [fst snd] in *. rewrite (Hcopy Hok Hex). cbn [settleEntries app lookupPath].
    rewrite mapGet_insertEntry_eq; [done |].
    apply hasName_mapGet. rewrite (hasName_names ".env" es' es Hnames).
    by apply hasName_mapGet.
  - destruct n as [r0 d0 | w0 es0]; [discriminate Hq |].
    cbn [lookupPath] in Hq.
    destruct (mapGet name es0) as [c |] eqn:Hc; [| discriminate Hq].
    rewrite walk_Dir in *.
    pose proof (visitEntries_success p w0 es0 (initialEnv es0) name c) as Hsucc.
    pose proof (copied_was_absent p w0 es0) as Habs.
    destruct (visitEntries p w0 es0 (initialEnv es0)) as [[es0' env] e].
    cbn [fst snd] in *. destruct (Hsucc Hok Hc) as [Hget Hcok].
    assert (Hget' : mapGet name (settleEntries env es0')
                    = Some (walk (p ++ [name])%list c).1).
    { destruct env as [| | data]; cbn [settleEntries]; try exact Hget.
      rewrite mapGet_insertEntry_ne; [exact Hget |].
      intros <-. rewrite (Habs data eq_refl) in Hc. discriminate Hc. }
    change ((name :: rest) ++ [".env"])%list with (name :: (rest ++ [".env"]))%list.
    cbn [lookupPath]. rewrite Hget'. by apply (IH c _ w es r d).
Qed.

(** C9.  A second run of [copyEnvExampleFiles] over the tree left by a
    first one changes nothing and ends with the same outcome; no file of
    the tree, an existing [.env] in particular, is overwritten; and a run
    without error gives every directory that lists an [.env.example] file
    and no [.env] a sibling [.env] with the contents of the example. *)
Theorem copyEnvExampleFiles_idempotent (rootPath : list string) (root : fsnode) :
  let run := copyEnvExampleFiles rootPath root in
  copyEnvExampleFiles rootPath run.1 = run
  ∧ (∀ q r d, lookupPath q root = Some (File r d) →
              lookupPath q run.1 = Some (File r d))
  ∧ (run.2 = None →
     ∀ q w es r d,
       lookupPath q root = Some (Dir w es) →
       mapGet ".env.example" es = Some (File r d) →
       mapGet ".env" es = None →
       lookupPath (q ++ [".env"])%list run.1 = Some (File true d)).
Proof.
  unfold copyEnvExampleFiles. cbn zeta. split; [| split].
  - pose proof (walk_idempotent root rootPath) as H.
    destruct (walk rootPath root) as [n e] eqn:E. exact H.
  - intros q r d. apply walk_keeps_files.
  - intros Hok q w es r d. by apply walk_copies.
Qed.

Example copyEnvExampleFiles_sample :
  copyEnvExampleFiles ["tmp"; "infra"] checkoutExample
  = (Dir true
       [ ("base", Dir true
            [ (".env", File true "TOKEN=changeme");
              (".env.example", File true "TOKEN=changeme");
              ("kustomization.yaml", File true "resources: []") ]);
         ("kustomization.yaml", File true "resources: [base, prod]");
         ("prod", Dir true
            [ (".env", File true "TOKEN=s3cret");
              (".env.example", File true "TOKEN=changeme");
              ("kustomization.yaml", File true "resources: []") ]) ],
     None).
Proof. vm_compute. reflexivity. Qed.

Lemma copyEnvExampleFiles_idempotent_witness :
  copyEnvExampleFiles ["tmp"; "infra"]
    (copyEnvExampleFiles ["tmp"; "infra"] checkoutExample).1
  = copyEnvExampleFiles ["tmp"; "infra"] checkoutExample
  ∧ lookupPath ["prod"; ".env"] (copyEnvExampleFiles ["tmp"; "infra"] checkoutExample).1
    = Some (File true "TOKEN=s3cret")
  ∧ lookupPath ["base"; ".env"] (copyEnvExampleFiles ["tmp"; "infra"] checkoutExample).1
    = Some (File true "TOKEN=changeme").
Proof.
  destruct (copyEnvExampleFiles_idempotent ["tmp"; "infra"] checkoutExample)
    as (Hagain & Hkeep & Hcopy).
  split; [exact Hagain |]. split.
  - apply Hkeep. reflexivity.
  - apply (Hcopy eq_refl ["base"] true
             [ (".env.example", File true "TOKEN=changeme");
               ("kustomization.yaml", File true "resources: []") ]
             true "TOKEN=changeme"); reflexivity.
Defined.

(** ** Properties of the marks *)

(** The gate of every family is closed on an entry whose alert is sent,
    and on a key without an entry. *)
Lemma alertGate_closed (cfg : Config) (now : Time) (f : family) (key : string)
    (s : Stores) :
  (∀ st, familyEntry f key s = Some st → hasError st = false ∨ alertSent st = true) →
  alertGate cfg now f key s = false.
Proof.
  intros H. destruct f as [| | | k |]; simpl in *.
  - unfold shouldSendAlert; simpl.
    destruct (podStates s !! key) as [st |]; simpl; [| done].
    by destruct (H st eq_refl) as [-> | ->]; simpl; rewrite ?orb_true_r.
  - unfold shouldSendAlert; simpl.
    destruct (nodeStates s !! key) as [st |]; simpl; [| done].
    by destruct (H st eq_refl) as [-> | ->]; simpl; rewrite ?orb_true_r.
  - unfold shouldSendAlert; simpl.
    destruct (nodeResourceStates s !! key) as [st |]; simpl in *; [| done].
    by destruct (H _ eq_refl) as [-> | ->]; simpl; rewrite ?orb_true_r.
  - unfold shouldSendLonghornAlert.
    destruct k; simpl in *;
      match goal with |- context [commaOk _ (?m !! key)] =>
        destruct (m !! key) as [st |] end; simpl in *; try done;
      by destruct (H _ eq_refl) as [-> | ->]; simpl; rewrite ?orb_true_r.
  - unfold shouldSendGitOpsAlert.
    destruct (gitOpsStates s !! key) as [st |]; simpl in *; [| done].
    by destruct (H _ eq_refl) as [-> | ->]; simpl; rewrite ?orb_true_r.
Qed.


(** What a mark leaves in the entries of the families. *)
Lemma markSent_entry (f f' : family) (key key' : string) (s : Stores) :
  familyEntry f' key' (markSent f key s)
  = if decide (f' = f ∧ key' = key) then withAlertSent <$> familyEntry f key s
    else familyEntry f' key' s.
Proof.
  destruct (decide (f' = f ∧ key' = key)) as [[-> ->] | Hd].
  - destruct f as [| | | k |]; simpl;
      [unfold markAlertSent | unfold markNodeAlertSent | unfold markNodeResourceAlertSent
      | destruct k; unfold markLonghornAlertSent; simpl; unfold markSentIn
      | unfold markGitOpsAlertSent];
      match goal with |- context [match ?m !! key with _ => _ end] =>
        destruct (m !! key) as [st |] eqn:Hst end; simpl;
      rewrite ?lookup_insert_eq, ?Hst; done.
  - assert (Hne : f' = f → key ≠ key') by (intros -> <-; by apply Hd).
    destruct f as [| | | k |]; simpl;
      [unfold markAlertSent | unfold markNodeAlertSent | unfold markNodeResourceAlertSent
      | destruct k; unfold markLonghornAlertSent; simpl; unfold markSentIn
      | unfold markGitOpsAlertSent];
      match goal with |- context [match ?m !! key with _ => _ end] =>
        destruct (m !! key) as [st |] eqn:Hst end; try done;
      destruct f' as [| | | k' |]; try done; try (destruct k'; done);
      simpl; try (destruct k'; simpl; try done);
      by rewrite lookup_insert_ne by (by apply Hne).
Qed.

Lemma markSent_absent (f : family) (key : string) (s : Stores) :
  familyEntry f key s = None → markSent f key s = s.
Proof.
  destruct f as [| | | k |]; simpl;
    [unfold markAlertSent | unfold markNodeAlertSent | unfold markNodeResourceAlertSent
    | destruct k; unfold markLonghornAlertSent; simpl; unfold markSentIn
    | unfold markGitOpsAlertSent];
    match goal with |- context [match ?m !! key with _ => _ end] =>
      destruct (m !! key) as [st |] eqn:Hst end; simpl; try done.
  all: by destruct s.
Qed.

(** X1.  Once the mark function of a family has run for a key, the gate
    of the family is closed for that key: at every clock reading and under
    every configuration it answers false, whether or not an entry
    exists. *)
Theorem markSent_closes_gate (cfg : Config) (now : Time) (f : family) (key : string)
    (s : Stores) :
  alertGate cfg now f key (markSent f key s) = false.
Proof.
  apply alertGate_closed. intros st. rewrite markSent_entry.
  rewrite decide_True by done.
  destruct (familyEntry f key s); simpl; [intros [= <-]; by right | done].
Qed.

(** The entries of the families are the [unitState] of their records. *)
Lemma familyRecord_state (f : family) (key : string) (s : Stores) :
  familyEntry f key s = recordState <$> familyRecord f key s.
Proof.
  destruct f as [| | | k |]; simpl;
    match goal with |- context [?m !! key] => by destruct (m !! key) end.
Qed.

(** The records of the families are all there is to the stores. *)
Lemma familyRecord_ext (s s' : Stores) :
  (∀ f key, familyRecord f key s = familyRecord f key s') → s = s'.
Proof.
  intros H. destruct s, s'. f_equal; apply map_eq; intros key.
  - specialize (H FPod key). simpl in H.
    destruct (_ !! key), (_ !! key); simpl in H; congruence.
  - specialize (H FNode key). simpl in H.
    destruct (_ !! key), (_ !! key); simpl in H; congruence.
  - specialize (H FNodeResource key). simpl in H.
    destruct (_ !! key), (_ !! key); simpl in H; congruence.
  - specialize (H (FLonghorn LVolume) key). simpl in H.
    destruct (_ !! key), (_ !! key); simpl in H; congruence.
  - specialize (H (FLonghorn LReplica) key). simpl in H.
    destruct (_ !! key), (_ !! key); simpl in H; congruence.
  - specialize (H (FLonghorn LEngine) key). simpl in H.
    destruct (_ !! key), (_ !! key); simpl in H; congruence.
  - specialize (H (FLonghorn LNode) key). simpl in H.
    destruct (_ !! key), (_ !! key); simpl in H; congruence.
  - specialize (H (FLonghorn LBackup) key). simpl in H.
    destruct (_ !! key), (_ !! key); simpl in H; congruence.
  - specialize (H FGitOps key). simpl in H.
    destruct (_ !! key), (_ !! key); simpl in H; congruence.
Qed.

(** What a mark leaves in the records of the families. *)
Lemma markSent_record (f f' : family) (key key' : string) (s : Stores) :
  familyRecord f' key' (markSent f key s)
  = if decide (f' = f ∧ key' = key) then recordSent <$> familyRecord f key s
    else familyRecord f' key' s.
Proof.
  destruct (decide (f' = f ∧ key' = key)) as [[-> ->] | Hd].
  - destruct f as [| | | k |]; simpl;
      [unfold markAlertSent | unfold markNodeAlertSent | unfold markNodeResourceAlertSent
      | destruct k; unfold markLonghornAlertSent; simpl; unfold markSentIn
      | unfold markGitOpsAlertSent];
      match goal with |- context [match ?m !! key with _ => _ end] =>
        destruct (m !! key) as [st |] eqn:Hst end; simpl;
      rewrite ?lookup_insert_eq, ?Hst; done.
  - assert (Hne : f' = f → key ≠ key') by (intros -> <-; by apply Hd).
    destruct f as [| | | k |]; simpl;
      [unfold markAlertSent | unfold markNodeAlertSent | unfold markNodeResourceAlertSent
      | destruct k; unfold markLonghornAlertSent; simpl; unfold markSentIn
      | unfold markGitOpsAlertSent];
      match goal with |- context [match ?m !! key with _ => _ end] =>
        destruct (m !! key) as [st |] eqn:Hst end; try done;
      destruct f' as [| | | k' |]; try done; try (destruct k'; done);
      simpl; try (destruct k'; simpl; try done);
      by rewrite lookup_insert_ne by (by apply Hne).
Qed.

(** X2.  A mark changes nothing but the [alertSent] flag of the entry of
    its key in its family: that entry keeps every other field, those
    around the [unitState] included; every other key and every other
    family holds what it held; and a key without an entry gets none (the
    stores are returned as they are). *)
Theorem markSent_frame (f f' : family) (key key' : string) (s : Stores) :
  familyRecord f' key' (markSent f key s)
  = (if decide (f' = f ∧ key' = key) then recordSent <$> familyRecord f key s
     else familyRecord f' key' s)
  ∧ (familyRecord f key s = None → markSent f key s = s).
Proof.
  split; [apply markSent_record |].
  intros Hnone. apply markSent_absent. by rewrite familyRecord_state, Hnone.
Qed.

Lemma markSent_frame_witness :
  familyRecord FGitOps "infra/default/Deployment/web"
    (markSent FGitOps "infra/default/Deployment/web" storesExample)
  = recordSent <$> familyRecord FGitOps "infra/default/Deployment/web" storesExample
  ∧ markSent (FLonghorn LReplica) "longhorn-system/r-1" storesExample = storesExample.
Proof.
  split.
  - exact (proj1 (markSent_frame FGitOps FGitOps "infra/default/Deployment/web"
                    "infra/default/Deployment/web" storesExample)).
  - exact (proj2 (markSent_frame (FLonghorn LReplica) FPod "longhorn-system/r-1"
                    "default/web-0" storesExample) eq_refl).
Defined.

(** X3.  While an error lasts no second alert is armed: over an entry that
    is in error with its alert sent, an upsert that is again in error
    leaves the gate closed at every later clock reading.  In the GitOps
    family this holds when the message is the stored one. *)
Theorem continuing_error_stays_silent (cfg : Config) (now now' : Time)
    (c : upsertCall) (s : Stores) (prev : unitState) :
  familyEntry (upsertFamily c) (upsertKey c) s = Some prev →
  hasError prev = true →
  alertSent prev = true →
  upsertHasError c = true →
  (upsertFamily c = FGitOps → upsertMessage c = lastMessage prev) →
  alertGate cfg now' (upsertFamily c) (upsertKey c) (upsert now c s) = false.
Proof.
  intros Hprev He Hs Hc Hmsg. apply alertGate_closed. intros st.
  destruct (decide (upsertFamily c = FGitOps)) as [Hg | Hg].
  - specialize (Hmsg Hg). destruct c; try discriminate Hg. simpl in *.
    rewrite updateGitOpsState_entry, Hprev, He, Hmsg, String.eqb_refl.
    intros [= <-]. by right.
  - rewrite (upsert_entry_plain now c s Hg), Hprev, Hc. simpl. rewrite He. simpl.
    intros [= <-]. by right.
Qed.

Lemma continuing_error_stays_silent_witness :
  familyEntry (FLonghorn LVolume) "longhorn-system/vol-a" (stores degradedVolumeWorld)
    = Some (mkUnitState true 1000 "Volume is degraded" 1000 true)
  ∧ alertGate cfgImmediate 5000 (FLonghorn LVolume) "longhorn-system/vol-a"
      (upsert 2000
         (UpsertLonghornVolume "longhorn-system/vol-a" true "Volume is faulted"
            "attached" "faulted" 0 0 "longhorn-system")
         (stores degradedVolumeWorld)) = false.
Proof.
  split; [reflexivity |].
  apply (continuing_error_stays_silent cfgImmediate 2000 5000
           (UpsertLonghornVolume "longhorn-system/vol-a" true "Volume is faulted"
              "attached" "faulted" 0 0 "longhorn-system")
           (stores degradedVolumeWorld)
           (mkUnitState true 1000 "Volume is degraded" 1000 true));
    [reflexivity | reflexivity | reflexivity | reflexivity | discriminate].
Defined.

(** ** Properties of the Longhorn pipelines *)

Lemma eventUpsert_family (cfg : Config) (rt : Runtime) (e : longhornEvent) :
  upsertFamily (eventUpsert cfg rt e) = FLonghorn (eventKind e)
  ∧ upsertKey (eventUpsert cfg rt e) = eventKey e
  ∧ upsertHasError (eventUpsert cfg rt e) = eventHasError cfg rt e.
Proof.
  destruct e; simpl.
  - by destruct (volumeVerdict cfg rt state robustness capacity actualSize) as [[h m] a].
  - by destruct (replicaVerdict currentState).
  - by destruct (engineVerdict currentState).
  - by destruct (longhornNodeVerdict conditions (false, "")).
  - by destruct (backupVerdict state).
Qed.

(** An erroring call is the upsert, the gate, the alert and the mark. *)
Lemma processLonghorn_error (cfg : Config) (rt : Runtime) (tUpdate tGate tSend : Time)
    (e : longhornEvent) (w : World) :
  eventHasError cfg rt e = true →
  processLonghorn cfg rt tUpdate tGate tSend e w
  = alertStep cfg rt tUpdate tGate tSend (eventUpsert cfg rt e) (eventAlert cfg rt e) w.
Proof.
  intros He. unfold alertStep. destruct e; simpl in *.
  - unfold processLonghornVolumeStatus.
    destruct (volumeVerdict cfg rt state robustness capacity actualSize) as [[h m] a].
    simpl in *. subst h. simpl.
    by destruct (shouldSendLonghornAlert _ _ _ _ _).
  - unfold processLonghornReplicaStatus.
    destruct (replicaVerdict currentState) as [h m]. simpl in *. subst h. simpl.
    by destruct (shouldSendLonghornAlert _ _ _ _ _).
  - unfold processLonghornEngineStatus.
    destruct (engineVerdict currentState) as [h m]. simpl in *. subst h. simpl.
    by destruct (shouldSendLonghornAlert _ _ _ _ _).
  - unfold processLonghornNodeStatus.
    destruct (longhornNodeVerdict conditions (false, "")) as [h m]. simpl in *. subst h. simpl.
    by destruct (shouldSendLonghornAlert _ _ _ _ _).
  - unfold processLonghornBackupStatus.
    destruct (backupVerdict state) as [h m]. simpl in *. subst h. simpl.
    by destruct (shouldSendLonghornAlert _ _ _ _ _).
Qed.

(** A healthy call stores a healthy entry and posts nothing: the recovery
    check reads the entry that the update has just written. *)
Lemma processLonghorn_healthy (cfg : Config) (rt : Runtime) (tUpdate tGate tSend : Time)
    (e : longhornEvent) (w : World) :
  eventHasError cfg rt e = false →
  processLonghorn cfg rt tUpdate tGate tSend e w
  = on_stores (upsert tUpdate (eventUpsert cfg rt e)) w.
Proof.
  intros He. destruct e; simpl in *.
  - unfold processLonghornVolumeStatus.
    destruct (volumeVerdict cfg rt state robustness capacity actualSize) as [[h m] a].
    simpl in *. subst h. simpl.
    unfold checkLonghornVolumeRecovery, updateLonghornVolumeState. simpl.
    destruct (rearm _ _ _). simpl. by rewrite lookup_insert_eq.
  - unfold processLonghornReplicaStatus.
    destruct (replicaVerdict currentState) as [h m]. simpl in *. subst h. simpl.
    unfold checkLonghornReplicaRecovery, updateLonghornReplicaState. simpl.
    destruct (rearm _ _ _). simpl. by rewrite lookup_insert_eq.
  - unfold processLonghornEngineStatus.
    destruct (engineVerdict currentState) as [h m]. simpl in *. subst h. simpl.
    unfold checkLonghornEngineRecovery, updateLonghornEngineState. simpl.
    destruct (rearm _ _ _). simpl. by rewrite lookup_insert_eq.
  - unfold processLonghornNodeStatus.
    destruct (longhornNodeVerdict conditions (false, "")) as [h m]. simpl in *. subst h. simpl.
    unfold checkLonghornNodeRecovery, updateLonghornNodeState. simpl.
    destruct (rearm _ _ _). simpl. by rewrite lookup_insert_eq.
  - unfold processLonghornBackupStatus.
    destruct (backupVerdict state) as [h m]. simpl in *. subst h. simpl.
    unfold checkLonghornBackupRecovery, updateLonghornBackupState. simpl.
    destruct (rearm _ _ _). simpl. rewrite lookup_insert_eq. simpl.
    by destruct (String.eqb state "Completed").
Qed.

(** The sink adds at most one request. *)
Lemma sendWebhookMessage_posts (cfg : Config) (rt : Runtime) (now : Time)
    (alert : Alert) (w : World) :
  posts (sendWebhookMessage cfg rt now alert w)
  = (posts w ++
     if isLeader w && rt_urlParses rt (WebhookUrl cfg)
     then [mkHttpRequest "POST" (WebhookUrl cfg) "application/json"
             (jsonPayload alert (rt_formatRFC3339 rt now))]
     else [])%list.
Proof.
  unfold sendWebhookMessage.
  destruct (isLeader w), (rt_urlParses rt (WebhookUrl cfg)); simpl;
    by rewrite ?app_nil_r.
Qed.

(** The entry that an erroring upsert leaves over an entry in error: the
    stored [firstError] and [alertSent], in the GitOps family when the
    message is the stored one. *)
Lemma upsert_entry_continuing (now : Time) (c : upsertCall) (s : Stores)
    (prev : unitState) :
  familyEntry (upsertFamily c) (upsertKey c) s = Some prev →
  hasError prev = true →
  upsertHasError c = true →
  (upsertFamily c = FGitOps → upsertMessage c = lastMessage prev) →
  familyEntry (upsertFamily c) (upsertKey c) (upsert now c s)
  = Some (mkUnitState true now (upsertMessage c) (firstError prev) (alertSent prev)).
Proof.
  intros Hprev He Hc Hmsg.
  destruct (decide (upsertFamily c = FGitOps)) as [Hg | Hg].
  - specialize (Hmsg Hg). destruct c; try discriminate Hg. simpl in *. subst hasErr.
    by rewrite updateGitOpsState_entry, Hprev, He, Hmsg, String.eqb_refl.
  - rewrite (upsert_entry_plain now c s Hg), Hprev, Hc. simpl. by rewrite He.
Qed.

(** An erroring upsert always leaves an entry in error. *)
Lemma upsert_entry_error (now : Time) (c : upsertCall) (s : Stores) :
  upsertHasError c = true →
  ∃ st, familyEntry (upsertFamily c) (upsertKey c) (upsert now c s) = Some st
        ∧ hasError st = true ∧ lastMessage st = upsertMessage c.
Proof.
  intros Hc.
  destruct (decide (upsertFamily c = FGitOps)) as [Hg | Hg].
  - destruct c; try discriminate Hg. simpl in *. subst hasErr.
    rewrite updateGitOpsState_entry.
    destruct (go_unitState <$> gitOpsStates s !! key) as [prev |]; simpl.
    + destruct (hasError prev), (String.eqb (lastMessage prev) errorMessage); eauto.
    + eauto.
  - rewrite (upsert_entry_plain now c s Hg), Hc.
    destruct (rearm now true _). eauto.
Qed.

(** One step over an entry whose alert is sent: no request, and the
    entry stays in error with its alert sent. *)
Lemma alertStep_silent (cfg : Config) (rt : Runtime) (tUpdate tGate tSend : Time)
    (c : upsertCall) (alert : Alert) (w : World) (prev : unitState) :
  familyEntry (upsertFamily c) (upsertKey c) (stores w) = Some prev →
  hasError prev = true →
  alertSent prev = true →
  upsertHasError c = true →
  (upsertFamily c = FGitOps → upsertMessage c = lastMessage prev) →
  let w' := alertStep cfg rt tUpdate tGate tSend c alert w in
  posts w' = posts w ∧ isLeader w' = isLeader w
  ∧ familyEntry (upsertFamily c) (upsertKey c) (stores w')
    = Some (mkUnitState true tUpdate (upsertMessage c) (firstError prev) true).
Proof.
  intros Hprev He Hs Hc Hmsg. unfold alertStep. simpl.
  pose proof (upsert_entry_continuing tUpdate c (stores w) prev Hprev He Hc Hmsg) as Hent.
  rewrite Hs in Hent.
  rewrite (alertGate_closed cfg tGate _ _ (upsert tUpdate c (stores w))).
  - by simpl.
  - intros st. rewrite Hent. intros [= <-]. by right.
Qed.

(** One step in general: at most one request, and after a request the
    entry is in error with its alert sent. *)
Lemma alertStep_cases (cfg : Config) (rt : Runtime) (tUpdate tGate tSend : Time)
    (c : upsertCall) (alert : Alert) (w : World) :
  upsertHasError c = true →
  let w' := alertStep cfg rt tUpdate tGate tSend c alert w in
  isLeader w' = isLeader w
  ∧ ((posts w' = posts w
      ∧ stores w' = upsert tUpdate c (stores w)
      ∧ alertGate cfg tGate (upsertFamily c) (upsertKey c) (stores w') = false)
     ∨ (alertGate cfg tGate (upsertFamily c) (upsertKey c)
          (upsert tUpdate c (stores w)) = true
        ∧ posts w'
          = (posts w ++
             if isLeader w && rt_urlParses rt (WebhookUrl cfg)
             then [mkHttpRequest "POST" (WebhookUrl cfg) "application/json"
                     (jsonPayload alert (rt_formatRFC3339 rt tSend))]
             else [])%list
        ∧ ∃ st, familyEntry (upsertFamily c) (upsertKey c) (stores w') = Some st
                ∧ hasError st = true ∧ alertSent st = true
                ∧ lastMessage st = upsertMessage c)).
Proof.
  intros Hc. unfold alertStep. simpl.
  destruct (alertGate cfg tGate (upsertFamily c) (upsertKey c)
              (upsert tUpdate c (stores w))) eqn:Hgate; simpl.
  - destruct (sendWebhookMessage_stores cfg rt tSend alert
                (on_stores (upsert tUpdate c) w)) as [Hst Hl].
    split; [by rewrite Hl |]. right. split; [done |].
    split; [by rewrite sendWebhookMessage_posts |].
    rewrite Hst. simpl. rewrite markSent_entry, decide_True by done.
    destruct (upsert_entry_error tUpdate c (stores w) Hc) as (st & -> & He & Hm).
    simpl. eexists. split; [done |]. by simpl.
  - split; [done |]. left. by rewrite Hgate.
Qed.

(** With the interval at 0 the gate of a family other than GitOps is open
    on every entry in error whose alert is not sent. *)
Lemma alertGate_open_immediate (cfg : Config) (now : Time) (f : family) (key : string)
    (s : Stores) (st : unitState) :
  Interval cfg = 0 →
  f ≠ FGitOps →
  familyEntry f key s = Some st →
  hasError st = true →
  alertSent st = false →
  alertGate cfg now f key s = true.
Proof.
  intros Hi Hf Hst He Hs. destruct f as [| | | k |]; simpl in *; try done.
  - unfold shouldSendAlert, dwellGate; simpl. by rewrite Hst, Hi; simpl; rewrite He, Hs.
  - unfold shouldSendAlert, dwellGate; simpl. by rewrite Hst, Hi; simpl; rewrite He, Hs.
  - unfold shouldSendAlert, dwellGate; simpl.
    destruct (nodeResourceStates s !! key) as [ns |]; simpl in *; [| done].
    injection Hst as <-. by rewrite Hi, He, Hs.
  - unfold shouldSendLonghornAlert, dwellGate.
    destruct k; simpl in *;
      match goal with |- context [commaOk _ (?m !! key)] =>
        destruct (m !! key) as [ls |] end; simpl in *; try done;
      injection Hst as <-; by rewrite Hi, He, Hs.
Qed.

Lemma processLonghornAll_sent (cfg : Config) (rt : Runtime) (k : longhornKind)
    (key : string) (calls : list (Time * Time * Time * longhornEvent)) :
  erroringCallsFor cfg rt k key calls →
  ∀ (w : World) (prev : unitState),
    familyEntry (FLonghorn k) key (stores w) = Some prev →
    hasError prev = true →
    alertSent prev = true →
    posts (processLonghornAll cfg rt calls w) = posts w.
Proof.
  induction 1 as [| [[[tU tG] tS] e] calls (Hk & Hkey & Herr) _ IH];
    intros w prev Hprev He Hs; simpl in *; [done |].
  rewrite (processLonghorn_error _ _ _ _ _ _ _ Herr).
  destruct (eventUpsert_family cfg rt e) as (Hf & Hkk & Hh).
  rewrite Hk in Hf. rewrite Hkey in Hkk. rewrite <- Hh in Herr.
  destruct (alertStep_silent cfg rt tU tG tS (eventUpsert cfg rt e) (eventAlert cfg rt e)
              w prev) as (Hp & _ & Hent); try done.
  { by rewrite Hf, Hkk. }
  { rewrite Hf. intros Hg. discriminate Hg. }
  rewrite Hf, Hkk in Hent.
  by rewrite (IH _ _ Hent eq_refl eq_refl).
Qed.

(** X5.  An error that lasts is reported at most once: over any run of
    calls of one Longhorn kind for one key, every call in error, the
    process functions hand at most one request to the HTTP client, whatever
    the clock readings, the configuration and the state before. *)
Theorem longhorn_error_alerts_at_most_once (cfg : Config) (rt : Runtime) (k : longhornKind)
    (key : string) (calls : list (Time * Time * Time * longhornEvent)) :
  erroringCallsFor cfg rt k key calls →
  ∀ w : World,
    ∃ extra, posts (processLonghornAll cfg rt calls w) = (posts w ++ extra)%list
             ∧ (length extra ≤ 1)%nat.
Proof.
  induction 1 as [| [[[tU tG] tS] e] calls (Hk & Hkey & Herr) Hrest IH];
    intros w; simpl in *.
  { exists []. split; [by rewrite app_nil_r | simpl; lia]. }
  rewrite (processLonghorn_error _ _ _ _ _ _ _ Herr).
  destruct (eventUpsert_family cfg rt e) as (Hf & Hkk & Hh).
  rewrite Hk in Hf. rewrite Hkey in Hkk. rewrite <- Hh in Herr.
  destruct (alertStep_cases cfg rt tU tG tS (eventUpsert cfg rt e) (eventAlert cfg rt e)
              w Herr) as (_ & [(Hp & _ & _) | (_ & Hp & st & Hst & He & Hs & _)]).
  - destruct (IH (alertStep cfg rt tU tG tS (eventUpsert cfg rt e) (eventAlert cfg rt e) w))
      as (extra & Hx & Hlen).
    exists extra. by rewrite Hx, Hp.
  - rewrite Hf, Hkk in Hst.
    rewrite (processLonghornAll_sent cfg rt k key calls Hrest _ st Hst He Hs), Hp.
    eexists. split; [done |]. destruct (_ && _); simpl; lia.
Qed.

Lemma longhorn_error_alerts_at_most_once_witness :
  let calls :=
    [ (1000, 1000, 1000, ReplicaStatus "r-1" "longhorn-system" "error");
      (2000, 2000, 2000, ReplicaStatus "r-1" "longhorn-system" "stopped");
      (3000, 3000, 3000, ReplicaStatus "r-1" "longhorn-system" "faulty") ] in
  erroringCallsFor cfgImmediate rtExample LReplica "longhorn-system/r-1" calls
  ∧ ∃ extra, posts (processLonghornAll cfgImmediate rtExample calls leaderWorld)
             = (posts leaderWorld ++ extra)%list
             ∧ (length extra ≤ 1)%nat.
Proof.
  assert (H : erroringCallsFor cfgImmediate rtExample LReplica "longhorn-system/r-1"
                [ (1000, 1000, 1000, ReplicaStatus "r-1" "longhorn-system" "error");
                  (2000, 2000, 2000, ReplicaStatus "r-1" "longhorn-system" "stopped");
                  (3000, 3000, 3000, ReplicaStatus "r-1" "longhorn-system" "faulty") ])
    by (repeat constructor).
  split; [exact H |].
  exact (longhorn_error_alerts_at_most_once cfgImmediate rtExample LReplica
           "longhorn-system/r-1" _ H leaderWorld).
Defined.

(** X4.  A call whose verdict is healthy hands no request to the HTTP
    client, whatever the entry it finds: the update runs before the
    recovery check, which then reads a healthy entry.  The entry left
    behind is healthy with [alertSent] false, so the alert that was sent
    is forgotten without a recovery message.  This holds for all five
    Longhorn kinds. *)
Theorem longhorn_healthy_call_posts_nothing (cfg : Config) (rt : Runtime)
    (tUpdate tGate tSend : Time) (e : longhornEvent) (w : World) :
  eventHasError cfg rt e = false →
  let w' := processLonghorn cfg rt tUpdate tGate tSend e w in
  posts w' = posts w
  ∧ ∃ st, familyEntry (FLonghorn (eventKind e)) (eventKey e) (stores w') = Some st
          ∧ hasError st = false ∧ alertSent st = false.
Proof.
  intros He. cbv zeta. rewrite (processLonghorn_healthy _ _ _ _ _ _ _ He).
  split; [done |]. unfold on_stores, set_stores. cbn [stores].
  destruct (eventUpsert_family cfg rt e) as (Hf & Hk & Hh).
  rewrite <- Hf, <- Hk, upsert_entry_plain by (rewrite Hf; discriminate).
  rewrite Hh, He.
  destruct (familyEntry _ _ (stores w)) as [prev |]; simpl; eauto.
Qed.

Lemma longhorn_healthy_call_posts_nothing_witness :
  eventHasError cfgExample rtExample (BackupStatus "b-1" "longhorn-system" "Completed") = false
  ∧ let w' := processLonghorn cfgExample rtExample 2000 2000 2000
                (BackupStatus "b-1" "longhorn-system" "Completed") failedBackupWorld in
    posts w' = posts failedBackupWorld
    ∧ ∃ st, familyEntry (FLonghorn LBackup) "longhorn-system/b-1" (stores w') = Some st
            ∧ hasError st = false ∧ alertSent st = false.
Proof.
  split; [reflexivity |].
  exact (longhorn_healthy_call_posts_nothing cfgExample rtExample 2000 2000 2000
           (BackupStatus "b-1" "longhorn-system" "Completed") failedBackupWorld eq_refl).
Defined.

(** X6.  With the interval at 0 an error is reported at once and once:
    on a leader whose webhook URL parses, a run of calls in error for one
    key that starts on a key without an entry, or on an entry that is not
    both in error and alerted, posts exactly the alert of the first call,
    stamped with the clock reading of that call. *)
Theorem longhorn_error_alerts_at_once (cfg : Config) (rt : Runtime) (k : longhornKind)
    (key : string) (tUpdate tGate tSend : Time) (e : longhornEvent)
    (rest : list (Time * Time * Time * longhornEvent)) (w : World) :
  Interval cfg = 0 →
  isLeader w = true →
  rt_urlParses rt (WebhookUrl cfg) = true →
  (∀ st, familyEntry (FLonghorn k) key (stores w) = Some st →
         hasError st = false ∨ alertSent st = false) →
  erroringCallsFor cfg rt k key ((tUpdate, tGate, tSend, e) :: rest) →
  posts (processLonghornAll cfg rt ((tUpdate, tGate, tSend, e) :: rest) w)
  = (posts w ++ [mkHttpRequest "POST" (WebhookUrl cfg) "application/json"
                   (jsonPayload (eventAlert cfg rt e) (rt_formatRFC3339 rt tSend))])%list.
Proof.
  intros Hi Hl Hu Hfresh Hcalls.
  apply Forall_cons in Hcalls as [(Hk & Hkey & Herr) Hrest]. cbn [snd processLonghornAll] in *.
  rewrite (processLonghorn_error _ _ _ _ _ _ _ Herr).
  destruct (eventUpsert_family cfg rt e) as (Hf & Hkk & Hh).
  rewrite Hk in Hf. rewrite Hkey in Hkk. rewrite <- Hh in Herr.
  assert (Hopen : alertGate cfg tGate (FLonghorn k) key
                    (upsert tUpdate (eventUpsert cfg rt e) (stores w)) = true).
  { apply (alertGate_open_immediate cfg tGate (FLonghorn k) key _
             (let '(fe, sent) := rearm tUpdate true (familyEntry (FLonghorn k) key (stores w)) in
              mkUnitState true tUpdate (upsertMessage (eventUpsert cfg rt e)) fe sent));
      [done | done | | |].
    - rewrite <- Hf, <- Hkk, upsert_entry_plain by (rewrite Hf; discriminate).
      by rewrite Herr.
    - by destruct (rearm _ _ _).
    - destruct (familyEntry (FLonghorn k) key (stores w)) as [prev |] eqn:Hprev; [| done].
      simpl. destruct (Hfresh prev eq_refl) as [He | Hs]; rewrite ?He; simpl; [done |].
      by destruct (hasError prev). }
  destruct (alertStep_cases cfg rt tUpdate tGate tSend (eventUpsert cfg rt e)
              (eventAlert cfg rt e) w Herr)
    as (_ & [(_ & Hst & Hclosed) | (_ & Hp & st & Hst & He & Hs & _)]).
  - rewrite Hst, Hf, Hkk in Hclosed. congruence.
  - rewrite Hf, Hkk in Hst.
    rewrite (processLonghornAll_sent cfg rt k key rest Hrest _ st Hst He Hs), Hp.
    by rewrite Hl, Hu.
Qed.

Lemma longhorn_error_alerts_at_once_witness :
  posts (processLonghornAll cfgImmediate rtExample
           [ (1000, 1000, 1000, EngineStatus "e-1" "longhorn-system" "error");
             (2000, 2000, 2000, EngineStatus "e-1" "longhorn-system" "error") ]
           leaderWorld)
  = [mkHttpRequest "POST" (WebhookUrl cfgImmediate) "application/json"
       (jsonPayload
          (eventAlert cfgImmediate rtExample (EngineStatus "e-1" "longhorn-system" "error"))
          (rt_formatRFC3339 rtExample 1000))].
Proof.
  apply (longhorn_error_alerts_at_once cfgImmediate rtExample LEngine "longhorn-system/e-1"
           1000 1000 1000 (EngineStatus "e-1" "longhorn-system" "error")
           [ (2000, 2000, 2000, EngineStatus "e-1" "longhorn-system" "error") ] leaderWorld);
    [reflexivity | reflexivity | reflexivity | | repeat constructor].
  intros st Hst. discriminate Hst.
Defined.

(** ** Properties of the Longhorn handlers *)

(** An upsert writes the entry of its key in its family and no other. *)
Lemma upsert_frame (now : Time) (c : upsertCall) (s : Stores) (f' : family)
    (key' : string) :
  ¬ (f' = upsertFamily c ∧ key' = upsertKey c) →
  familyRecord f' key' (upsert now c s) = familyRecord f' key' s.
Proof.
  intros Hd.
  assert (Hne : f' = upsertFamily c → upsertKey c ≠ key') by (intros -> <-; by apply Hd).
  destruct c; simpl in *.
  - unfold updatePodState.
    destruct (podStates s !! slashKey (pod_Namespace pod) (pod_Name pod)) as [prev |];
      [destruct (hasErr && negb (hasError prev)), (negb hasErr) |];
      destruct f' as [| | | k' |]; try done; try (destruct k'; done);
      simpl; by rewrite lookup_insert_ne by (by apply Hne).
  - unfold updateNodeState.
    destruct (nodeStates s !! node_Name node) as [prev |];
      [destruct (hasErr && negb (hasError prev)), (negb hasErr) |];
      destruct f' as [| | | k' |]; try done; try (destruct k'; done);
      simpl; by rewrite lookup_insert_ne by (by apply Hne).
  - unfold updateNodeResourceState. destruct (rearm _ _ _).
    destruct f' as [| | | k' |]; try done; try (destruct k'; done);
      simpl; by rewrite lookup_insert_ne by (by apply Hne).
  - unfold updateLonghornVolumeState. destruct (rearm _ _ _).
    destruct f' as [| | | k' |]; try done; try (destruct k'; try done);
      simpl; by rewrite lookup_insert_ne by (by apply Hne).
  - unfold updateLonghornReplicaState. destruct (rearm _ _ _).
    destruct f' as [| | | k' |]; try done; try (destruct k'; try done);
      simpl; by rewrite lookup_insert_ne by (by apply Hne).
  - unfold updateLonghornEngineState. destruct (rearm _ _ _).
    destruct f' as [| | | k' |]; try done; try (destruct k'; try done);
      simpl; by rewrite lookup_insert_ne by (by apply Hne).
  - unfold updateLonghornNodeState. destruct (rearm _ _ _).
    destruct f' as [| | | k' |]; try done; try (destruct k'; try done);
      simpl; by rewrite lookup_insert_ne by (by apply Hne).
  - unfold updateLonghornBackupState. destruct (rearm _ _ _).
    destruct f' as [| | | k' |]; try done; try (destruct k'; try done);
      simpl; by rewrite lookup_insert_ne by (by apply Hne).
  - unfold updateGitOpsState.
    destruct (commaOk zeroGitOpsState (gitOpsStates s !! key)) as [prevState exists_].
    match goal with |- context [let '(_, _) := ?b in _] => destruct b end.
    destruct f' as [| | | k' |]; try done; try (destruct k'; done);
      simpl; by rewrite lookup_insert_ne by (by apply Hne).
Qed.

(** A step writes the entry of its key in its family and no other. *)
Lemma alertStep_frame (cfg : Config) (rt : Runtime) (tUpdate tGate tSend : Time)
    (c : upsertCall) (alert : Alert) (w : World) (f' : family) (key' : string) :
  ¬ (f' = upsertFamily c ∧ key' = upsertKey c) →
  familyRecord f' key' (stores (alertStep cfg rt tUpdate tGate tSend c alert w))
  = familyRecord f' key' (stores w).
Proof.
  intros Hd. unfold alertStep. simpl.
  destruct (alertGate _ _ _ _ _); simpl.
  - rewrite markSent_record, decide_False by done.
    destruct (sendWebhookMessage_stores cfg rt tSend alert
                (on_stores (upsert tUpdate c) w)) as [-> _].
    simpl. by apply upsert_frame.
  - by apply upsert_frame.
Qed.

Lemma processLonghorn_frame (cfg : Config) (rt : Runtime) (tUpdate tGate tSend : Time)
    (e : longhornEvent) (w : World) (f' : family) (key' : string) :
  ¬ (f' = FLonghorn (eventKind e) ∧ key' = eventKey e) →
  familyRecord f' key' (stores (processLonghorn cfg rt tUpdate tGate tSend e w))
  = familyRecord f' key' (stores w).
Proof.
  intros Hd. destruct (eventUpsert_family cfg rt e) as (Hf & Hk & _).
  rewrite <- Hf, <- Hk in Hd.
  destruct (eventHasError cfg rt e) eqn:He.
  - rewrite (processLonghorn_error _ _ _ _ _ _ _ He). by apply alertStep_frame.
  - rewrite (processLonghorn_healthy _ _ _ _ _ _ _ He). simpl. by apply upsert_frame.
Qed.

(** X7.  A Longhorn handler touches the entry of its object and no
    other: the add and update handler of a kind leaves every entry but the
    one under the key of the object as it was, with all of its fields, in
    every family; the delete handler removes exactly that entry; and a
    value that is not an unstructured object (a tombstone) is ignored by
    both, so the entry of a deleted object then stays. *)
Theorem handleLonghorn_frame (k : longhornKind) (cfg : Config) (rt : Runtime)
    (tUpdate tGate tSend : Time) (u : Object) (w : World) (f' : family) (key' : string) :
  (¬ (f' = FLonghorn k ∧ key' = longhornObjectKey k u) →
   familyRecord f' key'
     (stores (handleLonghorn k cfg rt tUpdate tGate tSend (Unstructured u) w))
   = familyRecord f' key' (stores w))
  ∧ familyRecord f' key' (handleLonghornDelete k (Unstructured u) (stores w))
    = (if decide (f' = FLonghorn k ∧ key' = longhornObjectKey k u) then None
       else familyRecord f' key' (stores w))
  ∧ handleLonghorn k cfg rt tUpdate tGate tSend Foreign w = w
  ∧ handleLonghornDelete k Foreign (stores w) = stores w.
Proof.
  split; [| split; [| split]].
  - intros Hd. destruct k; simpl.
    + destruct (NestedMap u ["status"]) as [status | |]; try done.
      destruct (NestedMap u ["spec"]) as [spec | |]; try done.
      exact (processLonghorn_frame cfg rt tUpdate tGate tSend
               (VolumeStatus _ _ _ _ _ _) w f' key' Hd).
    + destruct (NestedMap u ["status"]) as [status | |]; try done.
      exact (processLonghorn_frame cfg rt tUpdate tGate tSend
               (ReplicaStatus _ _ _) w f' key' Hd).
    + destruct (NestedMap u ["status"]) as [status | |]; try done.
      exact (processLonghorn_frame cfg rt tUpdate tGate tSend
               (EngineStatus _ _ _) w f' key' Hd).
    + destruct (NestedMap u ["status"]) as [status | |]; try done.
      destruct (NestedSlice status ["conditions"]) as [conditions | |]; try done.
      exact (processLonghorn_frame cfg rt tUpdate tGate tSend
               (NodeConditions _ _) w f' key' Hd).
    + destruct (NestedMap u ["status"]) as [status | |]; try done.
      exact (processLonghorn_frame cfg rt tUpdate tGate tSend
               (BackupStatus _ _ _) w f' key' Hd).
  - destruct (decide (f' = FLonghorn k ∧ key' = longhornObjectKey k u)) as [[-> ->] | Hd].
    + destruct k; simpl; by rewrite lookup_delete_eq.
    + assert (Hne : f' = FLonghorn k → longhornObjectKey k u ≠ key')
        by (intros -> <-; by apply Hd).
      destruct k; destruct f' as [| | | k' |]; try done; try (destruct k'; try done);
        simpl; by rewrite lookup_delete_ne by (by apply Hne).
  - by destruct k.
  - by destruct k.
Qed.

Lemma handleLonghorn_frame_witness :
  familyRecord (FLonghorn LBackup) "longhorn-system/b-1"
    (stores (handleLonghorn LReplica cfgImmediate rtExample 2000 2000 2000
               (Unstructured replicaObject) failedBackupWorld))
  = familyRecord (FLonghorn LBackup) "longhorn-system/b-1" (stores failedBackupWorld).
Proof.
  apply (proj1 (handleLonghorn_frame LReplica cfgImmediate rtExample 2000 2000 2000
                  replicaObject failedBackupWorld (FLonghorn LBackup)
                  "longhorn-system/b-1")).
  intros [H _]. discriminate H.
Defined.

(** ** Properties of [parseSize] *)

Lemma digitOf_pretty_N_char (d : N) :
  (d < 10)%N → digitOf (pretty_N_char d) = Some (Z.of_N d).
Proof.
  intros Hd.
  assert (d = 0 ∨ d = 1 ∨ d = 2 ∨ d = 3 ∨ d = 4 ∨ d = 5 ∨ d = 6 ∨ d = 7 ∨ d = 8 ∨ d = 9)%N
    as H by lia.
  by repeat (destruct H as [-> | H]; [done |]); subst d.
Qed.

Lemma parseDigits_pretty_N_go (x : N) (s : string) :
  parseDigits (pretty_N_go x s) 0 = parseDigits s (Z.of_N x).
Proof.
  revert s. induction (N.lt_wf_0 x) as [x _ IH]. intros s.
  assert (x = 0 ∨ 0 < x)%N as [-> | Hpos] by lia.
  - by rewrite pretty_N_go_0.
  - rewrite pretty_N_go_step by done.
    rewrite IH by (by apply N.div_lt). simpl.
    rewrite digitOf_pretty_N_char by (by apply N.mod_lt).
    f_equal. rewrite (N.div_mod x 10) at 3 by done. lia.
Qed.

Lemma parseDigits_ge (s : string) (acc v : Z) :
  parseDigits s acc = Some v → 0 ≤ acc → acc ≤ v.
Proof.
  revert acc. induction s as [| c s IH]; intros acc; simpl.
  - intros [= <-]. lia.
  - unfold digitOf at 1.
    destruct ((48 <=? Z.of_N (N_of_ascii c)) && (Z.of_N (N_of_ascii c) <=? 57)) eqn:Hc;
      [| done].
    intros Hv Hacc. apply IH in Hv; lia.
Qed.

Lemma parseDigits_non_digit (p : string) (c : ascii) (q : string) (acc : Z) :
  digitOf c = None → parseDigits (p ++ String c q) acc = None.
Proof.
  intros Hc. revert acc. induction p as [| d p IH]; intros acc.
  - change (parseDigits (String c q) acc = None). simpl. by rewrite Hc.
  - change (parseDigits (String d (p ++ String c q)) acc = None). simpl.
    destruct (digitOf d); [apply IH | done].
Qed.

Lemma ParseInt10_pretty_pos (p : positive) :
  Z.pos p < 2 ^ 63 → ParseInt10 (pretty (Z.pos p)) = Some (Z.pos p).
Proof.
  intros Hr. unfold pretty, pretty_Z, pretty, pretty_positive, pretty, pretty_N.
  rewrite decide_False by done.
  pose proof (parseDigits_pretty_N_go (N.pos p) "") as Hpd. simpl in Hpd.
  destruct (pretty_N_go (N.pos p) "") as [| c rest] eqn:Hs; [done |].
  unfold ParseInt10.
  assert (Hdig : digitOf c ≠ None).
  { intros Hn. simpl in Hpd. by rewrite Hn in Hpd. }
  destruct (Ascii.eqb_spec c "+") as [-> | _]; [done |].
  destruct (Ascii.eqb_spec c "-") as [-> | _]; [done |].
  rewrite Hpd. destruct (Z.ltb_spec (Z.pos p) (2 ^ 63)); [done | lia].
Qed.

Lemma ParseInt10_pretty (n : Z) :
  - 2 ^ 63 ≤ n < 2 ^ 63 → ParseInt10 (pretty n) = Some n.
Proof.
  intros Hr. destruct n as [| p | p].
  - done.
  - apply ParseInt10_pretty_pos. lia.
  - unfold pretty, pretty_Z, pretty, pretty_positive, pretty, pretty_N.
    rewrite decide_False by done.
    change ("-" +:+ ?s) with (String "-" s).
    pose proof (parseDigits_pretty_N_go (N.pos p) "") as Hpd. simpl in Hpd.
    unfold ParseInt10. simpl.
    destruct (pretty_N_go (N.pos p) "") as [| c rest] eqn:Hs; [done |].
    rewrite Hpd. destruct (Z.leb_spec (Z.pos p) (2 ^ 63)); [done | lia].
Qed.

Lemma ParseInt10_range (s : string) (v : Z) :
  ParseInt10 s = Some v → - 2 ^ 63 ≤ v < 2 ^ 63.
Proof.
  unfold ParseInt10. destruct s as [| c rest]; [done |].
  destruct (Ascii.eqb c "+"); [| destruct (Ascii.eqb c "-")].
  - destruct rest as [| d rest]; [done |].
    destruct (parseDigits (String d rest) 0) as [un |] eqn:Hun; [| done].
    apply parseDigits_ge in Hun; [| lia].
    destruct (Z.ltb_spec un (2 ^ 63)); [intros [= <-]; lia | done].
  - destruct rest as [| d rest]; [done |].
    destruct (parseDigits (String d rest) 0) as [un |] eqn:Hun; [| done].
    apply parseDigits_ge in Hun; [| lia].
    destruct (Z.leb_spec un (2 ^ 63)); [intros [= <-]; lia | done].
  - destruct (parseDigits (String c rest) 0) as [un |] eqn:Hun; [| done].
    apply parseDigits_ge in Hun; [| lia].
    destruct (Z.ltb_spec un (2 ^ 63)); [intros [= <-]; lia | done].
Qed.

(** X8.  [parseSize] reads back every [int64] printed in decimal, never
    leaves the range of an [int64], and answers 0 for a text with a byte
    that is not a decimal digit anywhere after its first byte (a quantity
    with a unit suffix, for one). *)
Theorem parseSize_round_trip :
  (∀ n : Z, - 2 ^ 63 ≤ n < 2 ^ 63 → parseSize (pretty n) = n)
  ∧ (∀ s : string, - 2 ^ 63 ≤ parseSize s < 2 ^ 63)
  ∧ (∀ (b c : ascii) (p q : string),
       digitOf c = None → parseSize (String b (p ++ String c q)) = 0).
Proof.
  split; [| split].
  - intros n Hr. unfold parseSize. pose proof (ParseInt10_pretty n Hr) as Hp.
    destruct (String.eqb_spec (pretty n) "") as [Heq | _].
    { rewrite Heq in Hp. discriminate Hp. }
    by rewrite Hp.
  - intros s. unfold parseSize. destruct (String.eqb s ""); [lia |].
    destruct (ParseInt10 s) as [v |] eqn:Hv; [by apply (ParseInt10_range s) | lia].
  - intros b c p q Hc. unfold parseSize.
    destruct (String.eqb _ ""); [done |].
    unfold ParseInt10.
    destruct (Ascii.eqb b "+"); [| destruct (Ascii.eqb b "-")].
    + rewrite parseDigits_non_digit by done. by destruct (p ++ String c q).
    + rewrite parseDigits_non_digit by done. by destruct (p ++ String c q).
    + simpl. destruct (digitOf b); [| done].
      by rewrite parseDigits_non_digit.
Qed.

Lemma parseSize_round_trip_witness :
  parseSize (pretty 10737418240) = 10737418240
  ∧ parseSize "10Gi" = 0.
Proof.
  split.
  - apply (proj1 parseSize_round_trip). lia.
  - exact (proj2 (proj2 parseSize_round_trip) "1"%char "G"%char "0" "i" eq_refl).
Defined.

(** ** Properties of the pod pipeline *)

(** The verdict of one container status. *)
Lemma processContainerStatus_verdict (api : LogsAPI) (cfg : Config) (rt : Runtime)
    (t : containerClock) (pod : Pod) (container : ContainerStatus) (w : World) :
  (processContainerStatus api cfg rt t pod container w).2.1 = containerFailing container.
Proof.
  unfold processContainerStatus, containerFailing.
  destruct (cs_Terminated container) as [terminated |];
    [destruct (term_ExitCode terminated =? 0) |];
    destruct (cs_Waiting container); simpl; done.
Qed.

(** On a key without an entry, or on a healthy entry, a container status
    changes nothing. *)
Lemma processContainerStatus_quiet (api : LogsAPI) (cfg : Config) (rt : Runtime)
    (t : containerClock) (pod : Pod) (container : ContainerStatus) (w : World) :
  (∀ st, podStates (stores w) !! slashKey (pod_Namespace pod) (pod_Name pod) = Some st →
         hasError st = false) →
  (processContainerStatus api cfg rt t pod container w).1 = w.
Proof.
  intros Hq. unfold processContainerStatus.
  assert (Hgate : ∀ now, shouldSendAlert cfg now "pod"
                           (slashKey (pod_Namespace pod) (pod_Name pod)) (stores w) = false).
  { intros now. apply (alertGate_closed cfg now FPod). simpl. intros st Hst. left. eauto. }
  rewrite !Hgate.
  assert (Hrun : (let '(state, exists_) :=
                    commaOk zeroUnitState
                      (podStates (stores w) !! slashKey (pod_Namespace pod) (pod_Name pod)) in
                  if exists_ && hasError state && alertSent state
                  then handleRunningContainer cfg rt (tSendRunning t) pod container w
                  else w) = w).
  { destruct (podStates (stores w) !! _) as [st |] eqn:Hst; simpl; [| done].
    by rewrite (Hq st eq_refl). }
  destruct (cs_Terminated container) as [terminated |];
    [destruct (term_ExitCode terminated =? 0) |];
    destruct (cs_Waiting container); simpl; rewrite ?Hgate;
    destruct (cs_Running container); simpl; by rewrite ?Hrun.
Qed.

Lemma containersLoop_verdict (api : LogsAPI) (cfg : Config) (rt : Runtime)
    (clock : nat → containerClock) (pod : Pod) (containers : list ContainerStatus) :
  ∀ (i : nat) (acc : bool * string) (w : World),
    (containersLoop api cfg rt clock i pod containers acc w).2.1
    = acc.1 || existsb containerFailing containers.
Proof.
  induction containers as [| c rest IH]; intros i acc w; simpl.
  - by rewrite orb_false_r.
  - pose proof (processContainerStatus_verdict api cfg rt (clock i) pod c w) as Hv.
    destruct (processContainerStatus api cfg rt (clock i) pod c w) as [w1 [h m]].
    simpl in Hv. rewrite IH, <- Hv.
    destruct h; simpl; [by rewrite orb_true_r | done].
Qed.

Lemma containersLoop_quiet (api : LogsAPI) (cfg : Config) (rt : Runtime)
    (clock : nat → containerClock) (pod : Pod) (containers : list ContainerStatus)
    (w : World) :
  (∀ st, podStates (stores w) !! slashKey (pod_Namespace pod) (pod_Name pod) = Some st →
         hasError st = false) →
  ∀ (i : nat) (acc : bool * string),
    (containersLoop api cfg rt clock i pod containers acc w).1 = w.
Proof.
  intros Hq. induction containers as [| c rest IH]; intros i acc; simpl; [done |].
  pose proof (processContainerStatus_quiet api cfg rt (clock i) pod c w Hq) as Hw.
  destruct (processContainerStatus api cfg rt (clock i) pod c w) as [w1 [h m]].
  simpl in Hw. subst w1. apply IH.
Qed.

(** X9.  A pod is never reported by the event that first shows it, not
    even with the interval at 0: the gate runs before [updatePodState] has
    created the entry.  The event posts nothing and leaves an entry with
    [firstError] at the clock reading of the update and [alertSent] false,
    in error exactly when one of the container statuses is terminated
    with an exit code other than 0 or waiting. *)
Theorem handlePod_first_sight_silent (api : LogsAPI) (cfg : Config) (rt : Runtime)
    (clock : nat → containerClock) (tUpdate : Time) (pod : PodObject) (w : World) :
  podStates (stores w)
    !! slashKey (pod_Namespace (po_meta pod)) (pod_Name (po_meta pod)) = None →
  let w' := handlePod api cfg rt clock tUpdate (APod pod) w in
  posts w' = posts w
  ∧ ∃ m, podStates (stores w')
           !! slashKey (pod_Namespace (po_meta pod)) (pod_Name (po_meta pod))
         = Some (mkUnitState (existsb containerFailing (po_ContainerStatuses pod))
                   tUpdate m tUpdate false).
Proof.
  intros Hnone. simpl.
  assert (Hq : ∀ st, podStates (stores w)
                       !! slashKey (pod_Namespace (po_meta pod)) (pod_Name (po_meta pod))
                     = Some st → hasError st = false) by (intros st; by rewrite Hnone).
  pose proof (containersLoop_quiet api cfg rt clock (po_meta pod)
                (po_ContainerStatuses pod) w Hq 0%nat (false, "")) as Hw.
  pose proof (containersLoop_verdict api cfg rt clock (po_meta pod)
                (po_ContainerStatuses pod) 0%nat (false, "") w) as Hv.
  destruct (containersLoop api cfg rt clock 0 (po_meta pod) (po_ContainerStatuses pod)
              (false, "") w) as [w1 [h m]].
  simpl in *. subst w1 h. split; [done |].
  exists m. unfold updatePodState. rewrite Hnone. simpl. by rewrite lookup_insert_eq.
Qed.

Lemma handlePod_first_sight_silent_witness :
  let w' := handlePod noLogs cfgImmediate rtExample (clockAt 1000) 1000 (APod waitingPod)
              leaderWorld in
  posts w' = posts leaderWorld
  ∧ ∃ m, podStates (stores w') !! "default/web-0"
         = Some (mkUnitState true 1000 m 1000 false).
Proof.
  exact (handlePod_first_sight_silent noLogs cfgImmediate rtExample (clockAt 1000) 1000
           waitingPod leaderWorld eq_refl).
Defined.

(** After an alert and its mark the gate is closed. *)
Lemma gate_closed_after_alert (cfg : Config) (rt : Runtime) (now now' : Time)
    (alert : Alert) (f : family) (key : string) (w : World) :
  alertGate cfg now' f key
    (stores (on_stores (markSent f key) (sendWebhookMessage cfg rt now alert w))) = false.
Proof.
  apply alertGate_closed. intros st. simpl. rewrite markSent_entry, decide_True by done.
  destruct (familyEntry f key _); simpl; [intros [= <-]; by right | done].
Qed.

(** An open gate has found an entry in error whose alert is not sent. *)
Lemma alertGate_true_entry (cfg : Config) (now : Time) (f : family) (key : string)
    (s : Stores) :
  alertGate cfg now f key s = true →
  ∃ st, familyEntry f key s = Some st ∧ hasError st = true ∧ alertSent st = false.
Proof.
  intros Hg. destruct (familyEntry f key s) as [st |] eqn:Hst.
  - destruct (hasError st) eqn:He, (alertSent st) eqn:Hs; eauto;
      rewrite alertGate_closed in Hg; try done;
      intros st'; rewrite Hst; intros [= <-]; eauto.
  - rewrite alertGate_closed in Hg; [done |]. intros st'. by rewrite Hst.
Qed.

(** On an entry in error whose alert is sent, a container status posts
    the recovery message if [State.Running] is set, and nothing else. *)
Lemma processContainerStatus_alerted (api : LogsAPI) (cfg : Config) (rt : Runtime)
    (t : containerClock) (pod : Pod) (container : ContainerStatus) (w : World)
    (st : unitState) :
  podStates (stores w) !! slashKey (pod_Namespace pod) (pod_Name pod) = Some st →
  hasError st = true →
  alertSent st = true →
  (processContainerStatus api cfg rt t pod container w).1
  = if cs_Running container
    then sendWebhookMessage cfg rt (tSendRunning t) (podRecoveryAlert pod container) w
    else w.
Proof.
  intros Hst He Hs. unfold processContainerStatus.
  assert (Hgate : ∀ now, shouldSendAlert cfg now "pod"
                           (slashKey (pod_Namespace pod) (pod_Name pod)) (stores w) = false).
  { intros now. apply (alertGate_closed cfg now FPod). simpl. intros st'.
    rewrite Hst. intros [= <-]. by right. }
  assert (Hrun : (let '(state, exists_) :=
                    commaOk zeroUnitState
                      (podStates (stores w) !! slashKey (pod_Namespace pod) (pod_Name pod)) in
                  if exists_ && hasError state && alertSent state
                  then handleRunningContainer cfg rt (tSendRunning t) pod container w
                  else w)
                 = sendWebhookMessage cfg rt (tSendRunning t)
                     (podRecoveryAlert pod container) w).
  { rewrite Hst. simpl. rewrite He, Hs. simpl. unfold handleRunningContainer.
    rewrite Hst. simpl. by rewrite He. }
  destruct (cs_Terminated container) as [terminated |];
    [destruct (term_ExitCode terminated =? 0) |];
    destruct (cs_Waiting container); simpl; rewrite ?Hgate;
    destruct (cs_Running container); simpl; by rewrite ?Hrun.
Qed.

Lemma containersLoop_alerted (api : LogsAPI) (cfg : Config) (rt : Runtime)
    (clock : nat → containerClock) (pod : Pod) (st : unitState)
    (containers : list ContainerStatus) :
  hasError st = true →
  alertSent st = true →
  ∀ (i : nat) (acc : bool * string) (w : World),
    podStates (stores w) !! slashKey (pod_Namespace pod) (pod_Name pod) = Some st →
    let w' := (containersLoop api cfg rt clock i pod containers acc w).1 in
    stores w' = stores w ∧ isLeader w' = isLeader w
    ∧ posts w'
      = (posts w ++ if isLeader w && rt_urlParses rt (WebhookUrl cfg)
                    then recoveryRequests cfg rt clock i pod containers else [])%list.
Proof.
  intros He Hs. induction containers as [| c rest IH]; intros i acc w Hst; simpl.
  { repeat split. by destruct (_ && _); rewrite app_nil_r. }
  pose proof (processContainerStatus_alerted api cfg rt (clock i) pod c w st Hst He Hs) as Hw.
  destruct (processContainerStatus api cfg rt (clock i) pod c w) as [w1 [h m]].
  simpl in Hw. subst w1.
  set (w1 := if cs_Running c then _ else w).
  assert (H1 : stores w1 = stores w ∧ isLeader w1 = isLeader w
               ∧ posts w1 = (posts w ++ if isLeader w && rt_urlParses rt (WebhookUrl cfg)
                                        then (if cs_Running c then
                  [mkHttpRequest "POST" (WebhookUrl cfg) "application/json"
                     (jsonPayload (podRecoveryAlert pod c)
                        (rt_formatRFC3339 rt (tSendRunning (clock i))))] else [])
                                        else [])%list).
  { subst w1. destruct (cs_Running c).
    - destruct (sendWebhookMessage_stores cfg rt (tSendRunning (clock i))
                  (podRecoveryAlert pod c) w) as [-> ->].
      by rewrite sendWebhookMessage_posts.
    - repeat split. by destruct (_ && _); rewrite app_nil_r. }
  destruct H1 as (Hst1 & Hl1 & Hp1).
  destruct (IH (S i) (if h then (true, m) else acc) w1) as (Hst2 & Hl2 & Hp2).
  { by rewrite Hst1. }
  simpl in *. rewrite Hst2, Hl2, Hp2, Hst1, Hl1, Hp1.
  repeat split. rewrite <- app_assoc. by destruct (_ && _).
Qed.

(** X10.  On a pod whose entry is in error with the alert sent, an event
    posts one recovery message for every container status with
    [State.Running] set, in order and nothing else, also while another
    container of the pod still fails; the entry it leaves is in error
    with the alert still marked as sent exactly when a container fails. *)
Theorem handlePod_recovery_per_running_container (api : LogsAPI) (cfg : Config)
    (rt : Runtime) (clock : nat → containerClock) (tUpdate : Time) (pod : PodObject)
    (w : World) (st : unitState) :
  podStates (stores w)
    !! slashKey (pod_Namespace (po_meta pod)) (pod_Name (po_meta pod)) = Some st →
  hasError st = true →
  alertSent st = true →
  isLeader w = true →
  rt_urlParses rt (WebhookUrl cfg) = true →
  let w' := handlePod api cfg rt clock tUpdate (APod pod) w in
  let failing := existsb containerFailing (po_ContainerStatuses pod) in
  posts w'
  = (posts w ++ recoveryRequests cfg rt clock 0 (po_meta pod) (po_ContainerStatuses pod))%list
  ∧ ∃ m, podStates (stores w')
           !! slashKey (pod_Namespace (po_meta pod)) (pod_Name (po_meta pod))
         = Some (mkUnitState failing tUpdate m
                   (if failing then firstError st else zeroTime) failing).
Proof.
  intros Hst He Hs Hl Hu. simpl.
  destruct (containersLoop_alerted api cfg rt clock (po_meta pod) st
              (po_ContainerStatuses pod) He Hs 0%nat (false, "") w Hst)
    as (Hst1 & _ & Hp1).
  pose proof (containersLoop_verdict api cfg rt clock (po_meta pod)
                (po_ContainerStatuses pod) 0%nat (false, "") w) as Hv.
  destruct (containersLoop api cfg rt clock 0 (po_meta pod) (po_ContainerStatuses pod)
              (false, "") w) as [w1 [h m]].
  simpl in *. subst h. rewrite Hl, Hu in Hp1. split; [done |].
  exists m. unfold updatePodState. rewrite Hst1, Hst. simpl. rewrite He.
  destruct (existsb containerFailing (po_ContainerStatuses pod)); simpl;
    rewrite lookup_insert_eq; by rewrite ?Hs.
Qed.

Lemma handlePod_recovery_per_running_container_witness :
  let w' := handlePod noLogs cfgImmediate rtExample (clockAt 2000) 2000 (APod sidecarPod)
              alertedPodWorld in
  posts w'
  = [mkHttpRequest "POST" (WebhookUrl cfgImmediate) "application/json"
       (jsonPayload (podRecoveryAlert (mkPod "default" "web-0")
                       (mkContainerStatus "proxy" None None true))
          (rt_formatRFC3339 rtExample 2000))]
  ∧ ∃ m, podStates (stores w') !! "default/web-0"
         = Some (mkUnitState true 2000 m 1000 true).
Proof.
  exact (handlePod_recovery_per_running_container noLogs cfgImmediate rtExample
           (clockAt 2000) 2000 sidecarPod alertedPodWorld
           (mkUnitState true 1000 "Container web has failed" 1000 true)
           eq_refl eq_refl eq_refl eq_refl eq_refl).
Defined.

(** A container status whose [State.Running] is nil changes nothing, or
    finds the gate open and sends one alert with its mark. *)
Lemma processContainerStatus_cases (api : LogsAPI) (cfg : Config) (rt : Runtime)
    (t : containerClock) (pod : Pod) (container : ContainerStatus) (w : World) :
  cs_Running container = false →
  let key := slashKey (pod_Namespace pod) (pod_Name pod) in
  let w' := (processContainerStatus api cfg rt t pod container w).1 in
  w' = w
  ∨ ∃ now alert,
      (∃ now', alertGate cfg now' FPod key (stores w) = true)
      ∧ w' = on_stores (markSent FPod key) (sendWebhookMessage cfg rt now alert w).
Proof.
  intros Hr. cbv zeta. unfold processContainerStatus. rewrite Hr.
  set (key := slashKey (pod_Namespace pod) (pod_Name pod)).
  pose proof (fun now now' alert =>
                gate_closed_after_alert cfg rt now now' alert FPod key w) as Hclosed.
  cbn [alertGate markSent] in Hclosed |- *.
  destruct (cs_Terminated container) as [terminated |] eqn:Ht;
    [destruct (term_ExitCode terminated =? 0) |]; cbn [negb fst snd].
  - destruct (cs_Waiting container) as [waiting |] eqn:Hw; cbn [fst]; [| by left].
    destruct (shouldSendAlert cfg (tGateWaiting t) "pod" key (stores w)) eqn:Hg;
      [| by left].
    right. unfold handleWaitingContainer. rewrite Hw. eauto 6.
  - destruct (shouldSendAlert cfg (tGateTerminated t) "pod" key (stores w)) eqn:Hg.
    + unfold handleTerminatedContainer. rewrite Ht.
      destruct (cs_Waiting container) as [waiting |] eqn:Hw; cbn [fst].
      * rewrite Hclosed. right. eauto 6.
      * right. eauto 6.
    + destruct (cs_Waiting container) as [waiting |] eqn:Hw; cbn [fst]; [| by left].
      destruct (shouldSendAlert cfg (tGateWaiting t) "pod" key (stores w)) eqn:Hg';
        [| by left].
      right. unfold handleWaitingContainer. rewrite Hw. eauto 6.
  - destruct (cs_Waiting container) as [waiting |] eqn:Hw; cbn [fst]; [| by left].
    destruct (shouldSendAlert cfg (tGateWaiting t) "pod" key (stores w)) eqn:Hg;
      [| by left].
    right. unfold handleWaitingContainer. rewrite Hw. eauto 6.
Qed.

(** With the interval at 0, a failing container status on an entry in
    error whose alert is not sent does send. *)
Lemma processContainerStatus_fires (api : LogsAPI) (cfg : Config) (rt : Runtime)
    (t : containerClock) (pod : Pod) (container : ContainerStatus) (w : World)
    (st : unitState) :
  Interval cfg = 0 →
  cs_Running container = false →
  containerFailing container = true →
  let key := slashKey (pod_Namespace pod) (pod_Name pod) in
  podStates (stores w) !! key = Some st →
  hasError st = true →
  alertSent st = false →
  ∃ now alert,
    (processContainerStatus api cfg rt t pod container w).1
    = on_stores (markSent FPod key) (sendWebhookMessage cfg rt now alert w).
Proof.
  intros Hi Hr Hf key Hst He Hs. unfold processContainerStatus. rewrite Hr. fold key.
  pose proof (fun now now' alert =>
                gate_closed_after_alert cfg rt now now' alert FPod key w) as Hclosed.
  assert (Hopen : ∀ now, alertGate cfg now FPod key (stores w) = true).
  { intros now. by apply (alertGate_open_immediate cfg now FPod key (stores w) st). }
  cbn [alertGate markSent] in Hclosed, Hopen |- *.
  unfold containerFailing in Hf.
  destruct (cs_Terminated container) as [terminated |] eqn:Ht;
    [destruct (term_ExitCode terminated =? 0) |]; cbn [negb orb fst snd] in *.
  - destruct (cs_Waiting container) as [waiting |] eqn:Hw; [| done]. cbn [fst].
    rewrite Hopen. unfold handleWaitingContainer. rewrite Hw. eauto.
  - rewrite Hopen. unfold handleTerminatedContainer. rewrite Ht.
    destruct (cs_Waiting container) as [waiting |] eqn:Hw; cbn [fst].
    + rewrite Hclosed. eauto.
    + eauto.
  - destruct (cs_Waiting container) as [waiting |] eqn:Hw; [| done]. cbn [fst].
    rewrite Hopen. unfold handleWaitingContainer. rewrite Hw. eauto.
Qed.

(** The entry under the key after an alert and its mark. *)
Lemma entry_after_alert (cfg : Config) (rt : Runtime) (now : Time) (alert : Alert)
    (f : family) (key : string) (w : World) (st : unitState) :
  familyEntry f key (stores w) = Some st →
  familyEntry f key
    (stores (on_stores (markSent f key) (sendWebhookMessage cfg rt now alert w)))
  = Some (withAlertSent st).
Proof.
  intros Hst. simpl. rewrite markSent_entry, decide_True by done.
  destruct (sendWebhookMessage_stores cfg rt now alert w) as [-> _]. by rewrite Hst.
Qed.

Lemma containersLoop_norun_alerted (api : LogsAPI) (cfg : Config) (rt : Runtime)
    (clock : nat → containerClock) (pod : Pod) (st : unitState)
    (containers : list ContainerStatus) :
  hasError st = true →
  alertSent st = true →
  existsb cs_Running containers = false →
  ∀ (i : nat) (acc : bool * string) (w : World),
    podStates (stores w) !! slashKey (pod_Namespace pod) (pod_Name pod) = Some st →
    (containersLoop api cfg rt clock i pod containers acc w).1 = w.
Proof.
  intros He Hs. induction containers as [| c rest IH]; intros Hrun i acc w Hst;
    simpl in *; [done |].
  apply orb_false_iff in Hrun as [Hc Hrest].
  pose proof (processContainerStatus_alerted api cfg rt (clock i) pod c w st Hst He Hs) as Hw.
  rewrite Hc in Hw.
  destruct (processContainerStatus api cfg rt (clock i) pod c w) as [w1 [h m]].
  simpl in Hw. subst w1. by apply IH.
Qed.

(** The loop over statuses none of which runs: nothing changes, or one
    alert is sent with its mark. *)
Lemma containersLoop_cases (api : LogsAPI) (cfg : Config) (rt : Runtime)
    (clock : nat → containerClock) (pod : Pod) (containers : list ContainerStatus) :
  existsb cs_Running containers = false →
  ∀ (i : nat) (acc : bool * string) (w : World),
    let key := slashKey (pod_Namespace pod) (pod_Name pod) in
    let w' := (containersLoop api cfg rt clock i pod containers acc w).1 in
    w' = w
    ∨ ∃ now alert,
        (∃ now', alertGate cfg now' FPod key (stores w) = true)
        ∧ w' = on_stores (markSent FPod key) (sendWebhookMessage cfg rt now alert w).
Proof.
  induction containers as [| c rest IH]; intros Hrun i acc w; simpl in *; [by left |].
  apply orb_false_iff in Hrun as [Hc Hrest].
  pose proof (processContainerStatus_cases api cfg rt (clock i) pod c w Hc) as Hcases.
  destruct (processContainerStatus api cfg rt (clock i) pod c w) as [w1 [h m]].
  simpl in Hcases. destruct Hcases as [-> | (now & alert & [now' Hg] & ->)].
  - by apply IH.
  - right. exists now, alert. split; [eauto |].
    destruct (alertGate_true_entry cfg now' FPod _ (stores w) Hg) as (st & Hst & He & Hs).
    apply (containersLoop_norun_alerted api cfg rt clock pod (withAlertSent st));
      [done | done | done |].
    exact (entry_after_alert cfg rt now alert FPod _ w st Hst).
Qed.

(** An event of a failing pod none of whose containers runs is the
    update in error, after at most one alert with its mark. *)
Lemma handlePod_failing_cases (api : LogsAPI) (cfg : Config) (rt : Runtime)
    (clock : nat → containerClock) (tUpdate : Time) (pod : PodObject) (w : World) :
  existsb containerFailing (po_ContainerStatuses pod) = true →
  existsb cs_Running (po_ContainerStatuses pod) = false →
  let key := slashKey (pod_Namespace (po_meta pod)) (pod_Name (po_meta pod)) in
  ∃ m w1,
    handlePod api cfg rt clock tUpdate (APod pod) w
    = on_stores (upsert tUpdate (UpsertPod (po_meta pod) true m)) w1
    ∧ (w1 = w
       ∨ ∃ now alert,
           (∃ now', alertGate cfg now' FPod key (stores w) = true)
           ∧ w1 = on_stores (markSent FPod key) (sendWebhookMessage cfg rt now alert w)).
Proof.
  intros Hf Hr key. unfold handlePod.
  pose proof (containersLoop_cases api cfg rt clock (po_meta pod)
                (po_ContainerStatuses pod) Hr 0%nat (false, "") w) as Hcases.
  pose proof (containersLoop_verdict api cfg rt clock (po_meta pod)
                (po_ContainerStatuses pod) 0%nat (false, "") w) as Hv.
  destruct (containersLoop api cfg rt clock 0 (po_meta pod) (po_ContainerStatuses pod)
              (false, "") w) as [w1 [h m]].
  cbn [fst snd orb] in *. rewrite Hf in Hv. subst h.
  exists m, w1. split; [done |]. exact Hcases.
Qed.

Lemma handlePods_alerted (api : LogsAPI) (cfg : Config) (rt : Runtime) (pod : Pod)
    (events : list ((nat → containerClock) * Time * PodObject)) :
  failingEventsOf pod events →
  ∀ (w : World) (st : unitState),
    podStates (stores w) !! slashKey (pod_Namespace pod) (pod_Name pod) = Some st →
    hasError st = true →
    alertSent st = true →
    posts (handlePods api cfg rt events w) = posts w.
Proof.
  induction 1 as [| [[clock tU] p] events (Hp & Hf & Hr) _ IH]; intros w st Hst He Hs;
    cbn [handlePods snd] in *; [done |].
  subst pod.
  destruct (handlePod_failing_cases api cfg rt clock tU p w Hf Hr)
    as (m & w1 & -> & [-> | (now & alert & [now' Hg] & ->)]).
  - assert (Hent : familyEntry FPod
                     (slashKey (pod_Namespace (po_meta p)) (pod_Name (po_meta p)))
                     (upsert tU (UpsertPod (po_meta p) true m) (stores w))
                   = Some (mkUnitState true tU m (firstError st) (alertSent st))).
    { apply (upsert_entry_continuing tU (UpsertPod (po_meta p) true m) (stores w) st);
        [done | done | done | discriminate]. }
    rewrite Hs in Hent.
    by rewrite (IH (on_stores (upsert tU (UpsertPod (po_meta p) true m)) w) _ Hent
                  eq_refl eq_refl).
  - destruct (alertGate_true_entry cfg now' FPod _ (stores w) Hg) as (st' & Hst' & _ & Hs').
    cbn [familyEntry] in Hst'. congruence.
Qed.

(** The entry of a failing pod after an alert, its mark and the update of
    the event. *)
Lemma pod_entry_after_alert_update (cfg : Config) (rt : Runtime) (now tUpdate : Time)
    (alert : Alert) (pod : Pod) (m : string) (w : World) (st : unitState) :
  podStates (stores w) !! slashKey (pod_Namespace pod) (pod_Name pod) = Some st →
  hasError st = true →
  ∃ st', podStates
           (stores (on_stores (upsert tUpdate (UpsertPod pod true m))
                      (on_stores (markSent FPod (slashKey (pod_Namespace pod) (pod_Name pod)))
                         (sendWebhookMessage cfg rt now alert w))))
           !! slashKey (pod_Namespace pod) (pod_Name pod) = Some st'
         ∧ hasError st' = true ∧ alertSent st' = true.
Proof.
  intros Hst He.
  pose proof (entry_after_alert cfg rt now alert FPod
                (slashKey (pod_Namespace pod) (pod_Name pod)) w st Hst) as Hmark.
  eexists. split; [| split].
  - apply (upsert_entry_continuing tUpdate (UpsertPod pod true m) _ (withAlertSent st));
      [exact Hmark | done | done | discriminate].
  - done.
  - done.
Qed.

(** X11.  A pod that keeps failing is reported at most once: over any
    run of events of one pod, each with a failing container and none
    with a running one, at most one request is handed to the HTTP client,
    whatever the clock readings, the configuration and the state
    before. *)
Theorem pod_failure_alerts_at_most_once (api : LogsAPI) (cfg : Config) (rt : Runtime)
    (pod : Pod) (events : list ((nat → containerClock) * Time * PodObject)) :
  failingEventsOf pod events →
  ∀ w : World,
    ∃ extra, posts (handlePods api cfg rt events w) = (posts w ++ extra)%list
             ∧ (length extra ≤ 1)%nat.
Proof.
  induction 1 as [| [[clock tU] p] events (Hp & Hf & Hr) Hrest IH]; intros w;
    cbn [handlePods snd] in *.
  { exists []. split; [by rewrite app_nil_r | simpl; lia]. }
  subst pod.
  destruct (handlePod_failing_cases api cfg rt clock tU p w Hf Hr)
    as (m & w1 & -> & [-> | (now & alert & [now' Hg] & ->)]).
  - destruct (IH (on_stores (upsert tU (UpsertPod (po_meta p) true m)) w))
      as (extra & Hx & Hlen).
    exists extra. by rewrite Hx.
  - destruct (alertGate_true_entry cfg now' FPod _ (stores w) Hg) as (st & Hst & He & _).
    destruct (pod_entry_after_alert_update cfg rt now tU alert (po_meta p) m w st Hst He)
      as (st' & Hst' & He' & Hs').
    rewrite (handlePods_alerted api cfg rt (po_meta p) events Hrest _ st' Hst' He' Hs').
    cbn [posts on_stores set_stores]. rewrite sendWebhookMessage_posts.
    eexists. split; [done |]. destruct (_ && _); simpl; lia.
Qed.

Lemma pod_failure_alerts_at_most_once_witness :
  let events := [ (clockAt 1000, 1000, waitingPod); (clockAt 2000, 2000, waitingPod);
                  (clockAt 3000, 3000, waitingPod) ] in
  failingEventsOf (mkPod "default" "web-0") events
  ∧ ∃ extra, posts (handlePods noLogs cfgImmediate rtExample events leaderWorld)
             = (posts leaderWorld ++ extra)%list
             ∧ (length extra ≤ 1)%nat.
Proof.
  assert (H : failingEventsOf (mkPod "default" "web-0")
                [ (clockAt 1000, 1000, waitingPod); (clockAt 2000, 2000, waitingPod);
                  (clockAt 3000, 3000, waitingPod) ]) by (repeat constructor).
  split; [exact H |].
  exact (pod_failure_alerts_at_most_once noLogs cfgImmediate rtExample
           (mkPod "default" "web-0") _ H leaderWorld).
Defined.

Lemma containersLoop_fires (api : LogsAPI) (cfg : Config) (rt : Runtime)
    (clock : nat → containerClock) (pod : Pod) (st : unitState)
    (containers : list ContainerStatus) :
  Interval cfg = 0 →
  hasError st = true →
  alertSent st = false →
  existsb cs_Running containers = false →
  existsb containerFailing containers = true →
  ∀ (i : nat) (acc : bool * string) (w : World),
    podStates (stores w) !! slashKey (pod_Namespace pod) (pod_Name pod) = Some st →
    ∃ now alert,
      (containersLoop api cfg rt clock i pod containers acc w).1
      = on_stores (markSent FPod (slashKey (pod_Namespace pod) (pod_Name pod)))
          (sendWebhookMessage cfg rt now alert w).
Proof.
  intros Hi He Hs. induction containers as [| c rest IH]; intros Hrun Hfail i acc w Hst;
    simpl in *; [done |].
  apply orb_false_iff in Hrun as [Hc Hrest].
  destruct (containerFailing c) eqn:Hfc.
  - destruct (processContainerStatus_fires api cfg rt (clock i) pod c w st Hi Hc Hfc
                Hst He Hs) as (now & alert & Hw).
    destruct (processContainerStatus api cfg rt (clock i) pod c w) as [w1 [h m]].
    simpl in Hw. subst w1. exists now, alert.
    apply (containersLoop_norun_alerted api cfg rt clock pod (withAlertSent st));
      [done | done | done |].
    exact (entry_after_alert cfg rt now alert FPod _ w st Hst).
  - assert (Hsame : (processContainerStatus api cfg rt (clock i) pod c w).1 = w).
    { unfold processContainerStatus, containerFailing in *. rewrite Hc.
      destruct (cs_Terminated c) as [terminated |];
        [destruct (term_ExitCode terminated =? 0) |];
        destruct (cs_Waiting c); simpl in *; done. }
    destruct (processContainerStatus api cfg rt (clock i) pod c w) as [w1 [h m]].
    simpl in Hsame. subst w1. by apply IH.
Qed.

(** X12.  With the interval at 0 a failing pod is reported by the second
    event that shows it failing, not by the first: on a leader whose
    webhook URL parses, a run of events of a pod without an entry, each
    with a failing container and none with a running one, posts nothing
    at its first event and exactly one request in all once a second
    event has come. *)
Theorem pod_failure_alerts_at_second_event (api : LogsAPI) (cfg : Config) (rt : Runtime)
    (pod : Pod) (clock1 clock2 : nat → containerClock) (tUpdate1 tUpdate2 : Time)
    (p1 p2 : PodObject) (rest : list ((nat → containerClock) * Time * PodObject))
    (w : World) :
  Interval cfg = 0 →
  isLeader w = true →
  rt_urlParses rt (WebhookUrl cfg) = true →
  podStates (stores w) !! slashKey (pod_Namespace pod) (pod_Name pod) = None →
  failingEventsOf pod ((clock1, tUpdate1, p1) :: (clock2, tUpdate2, p2) :: rest) →
  posts (handlePod api cfg rt clock1 tUpdate1 (APod p1) w) = posts w
  ∧ ∃ req, posts (handlePods api cfg rt
                    ((clock1, tUpdate1, p1) :: (clock2, tUpdate2, p2) :: rest) w)
           = (posts w ++ [req])%list.
Proof.
  intros Hi Hl Hu Hnone Hev.
  apply Forall_cons in Hev as [(Hp1 & Hf1 & Hr1) Hev].
  apply Forall_cons in Hev as [(Hp2 & Hf2 & Hr2) Hrest].
  cbn [snd] in *. subst pod.
  assert (Hq : ∀ st, podStates (stores w)
                       !! slashKey (pod_Namespace (po_meta p1)) (pod_Name (po_meta p1))
                     = Some st → hasError st = false) by (intros st; by rewrite Hnone).
  assert (H1 : ∃ m, handlePod api cfg rt clock1 tUpdate1 (APod p1) w
                    = on_stores (upsert tUpdate1 (UpsertPod (po_meta p1) true m)) w).
  { unfold handlePod.
    pose proof (containersLoop_quiet api cfg rt clock1 (po_meta p1)
                  (po_ContainerStatuses p1) w Hq 0%nat (false, "")) as Hw.
    pose proof (containersLoop_verdict api cfg rt clock1 (po_meta p1)
                  (po_ContainerStatuses p1) 0%nat (false, "") w) as Hv.
    destruct (containersLoop api cfg rt clock1 0 (po_meta p1) (po_ContainerStatuses p1)
                (false, "") w) as [w1 [h m]].
    cbn [fst snd orb] in *. rewrite Hf1 in Hv. subst w1 h. by exists m. }
  destruct H1 as [m1 H1]. split; [by rewrite H1 |].
  cbn [handlePods]. rewrite H1.
  set (w1 := on_stores (upsert tUpdate1 (UpsertPod (po_meta p1) true m1)) w).
  assert (Hst1 : podStates (stores w1)
                   !! slashKey (pod_Namespace (po_meta p2)) (pod_Name (po_meta p2))
                 = Some (mkUnitState true tUpdate1 m1 tUpdate1 false)).
  { rewrite Hp2. subst w1. simpl. unfold updatePodState. rewrite Hnone. simpl.
    by rewrite lookup_insert_eq. }
  assert (H2 : ∃ m now alert,
             handlePod api cfg rt clock2 tUpdate2 (APod p2) w1
             = on_stores (upsert tUpdate2 (UpsertPod (po_meta p2) true m))
                 (on_stores (markSent FPod
                               (slashKey (pod_Namespace (po_meta p2)) (pod_Name (po_meta p2))))
                    (sendWebhookMessage cfg rt now alert w1))).
  { unfold handlePod.
    destruct (containersLoop_fires api cfg rt clock2 (po_meta p2)
                (mkUnitState true tUpdate1 m1 tUpdate1 false)
                (po_ContainerStatuses p2) Hi eq_refl eq_refl Hr2 Hf2 0%nat (false, "") w1
                Hst1) as (now & alert & Hw).
    pose proof (containersLoop_verdict api cfg rt clock2 (po_meta p2)
                  (po_ContainerStatuses p2) 0%nat (false, "") w1) as Hv.
    destruct (containersLoop api cfg rt clock2 0 (po_meta p2) (po_ContainerStatuses p2)
                (false, "") w1) as [w2 [h m]].
    cbn [fst snd orb] in *. rewrite Hf2 in Hv. subst w2 h. by exists m, now, alert. }
  destruct H2 as (m2 & now & alert & H2). rewrite H2.
  destruct (pod_entry_after_alert_update cfg rt now tUpdate2 alert (po_meta p2) m2 w1
              (mkUnitState true tUpdate1 m1 tUpdate1 false) Hst1 eq_refl)
    as (st' & Hst' & He' & Hs').
  rewrite <- Hp2 in Hrest.
  rewrite (handlePods_alerted api cfg rt (po_meta p2) rest Hrest _ st' Hst' He' Hs').
  cbn [posts on_stores set_stores]. rewrite sendWebhookMessage_posts.
  subst w1. cbn [posts isLeader on_stores set_stores]. rewrite Hl, Hu. eauto.
Qed.

Lemma pod_failure_alerts_at_second_event_witness :
  posts (handlePod noLogs cfgImmediate rtExample (clockAt 1000) 1000 (APod waitingPod)
           leaderWorld) = posts leaderWorld
  ∧ ∃ req, posts (handlePods noLogs cfgImmediate rtExample
                    [ (clockAt 1000, 1000, waitingPod); (clockAt 2000, 2000, waitingPod);
                      (clockAt 3000, 3000, waitingPod) ] leaderWorld)
           = (posts leaderWorld ++ [req])%list.
Proof.
  apply (pod_failure_alerts_at_second_event noLogs cfgImmediate rtExample
           (mkPod "default" "web-0") (clockAt 1000) (clockAt 2000) 1000 2000
           waitingPod waitingPod [ (clockAt 3000, 3000, waitingPod) ] leaderWorld);
    [reflexivity | reflexivity | reflexivity | reflexivity | repeat constructor].
Defined.

(** ** Properties of the node pipeline *)

Lemma afterAtMostOneAlert_posts (cfg : Config) (rt : Runtime) (f : family) (key : string)
    (w0 w : World) :
  afterAtMostOneAlert cfg rt f key w0 w →
  ∃ extra, posts w = (posts w0 ++ extra)%list ∧ (length extra ≤ 1)%nat.
Proof.
  intros [-> | (now & alert & ->)].
  - exists []. split; [by rewrite app_nil_r | simpl; lia].
  - cbn [posts on_stores set_stores]. rewrite sendWebhookMessage_posts.
    eexists. split; [done |]. destruct (_ && _); simpl; lia.
Qed.

(** The block of one condition keeps "at most one alert". *)
Lemma nodeAlertIfDue_keeps (cfg : Config) (rt : Runtime) (tGate tSend : Time)
    (node : NodeObject) (cond : NodeCondition) (w0 w : World) :
  afterAtMostOneAlert cfg rt FNode (node_Name (no_meta node)) w0 w →
  afterAtMostOneAlert cfg rt FNode (node_Name (no_meta node)) w0
    (nodeAlertIfDue cfg rt tGate tSend node cond w).
Proof.
  intros [-> | (now & alert & ->)]; unfold nodeAlertIfDue.
  - destruct (shouldSendAlert _ _ _ _ _); [right | by left].
    exists tSend, (nodeConditionAlert node cond). reflexivity.
  - pose proof (gate_closed_after_alert cfg rt now tGate alert FNode
                  (node_Name (no_meta node)) w0) as Hc.
    cbn [alertGate] in Hc. rewrite Hc. right. eauto.
Qed.

Lemma readyUnhealthy_not_true (cond : option NodeCondition) :
  readyUnhealthy cond = true → conditionTrue cond = false.
Proof.
  destruct cond as [c |]; simpl; [| done].
  destruct (String.eqb_spec (cond_Status c) "True") as [-> | _]; [done | done].
Qed.

Lemma conditionTrue_not_false (cond : option NodeCondition) :
  conditionTrue cond = true → nilOrFalse cond = false.
Proof.
  destruct cond as [c |]; simpl; [| done].
  destruct (String.eqb_spec (cond_Status c) "True") as [-> | _]; [done | done].
Qed.

(** The verdict of [processNodeStatus]. *)
Lemma processNodeStatus_one_verdict (cfg : Config) (rt : Runtime) (t : nodeClock)
    (node : NodeObject) (w : World) :
  (processNodeStatus cfg rt t node w).2.1 = nodeUnhealthy node.
Proof.
  unfold processNodeStatus, nodeUnhealthy.
  destruct (getNodeCondition node "Ready") as [r |];
    [destruct (readyUnhealthy (Some r)) |];
    (destruct (getNodeCondition node "MemoryPressure") as [m |];
     [destruct (conditionTrue (Some m)) |]);
    (destruct (getNodeCondition node "DiskPressure") as [d |];
     [destruct (conditionTrue (Some d)) |]); done.
Qed.

(** X13.  [processNodeStatus] hands at most one request to the HTTP
    client per call, also when all three conditions are unhealthy: the
    mark after the first alert closes the gate for the later conditions,
    and the recovery branch excludes every unhealthy condition.  Its
    verdict is an error exactly when [Ready] is [False] or [Unknown] or a
    pressure condition is [True]. *)
Theorem processNodeStatus_one_post (cfg : Config) (rt : Runtime) (t : nodeClock)
    (node : NodeObject) (w : World) :
  (processNodeStatus cfg rt t node w).2.1 = nodeUnhealthy node
  ∧ ∃ extra, posts (processNodeStatus cfg rt t node w).1 = (posts w ++ extra)%list
             ∧ (length extra ≤ 1)%nat.
Proof.
  unfold processNodeStatus, nodeUnhealthy.
  set (key := node_Name (no_meta node)).
  set (r := getNodeCondition node "Ready").
  set (m := getNodeCondition node "MemoryPressure").
  set (d := getNodeCondition node "DiskPressure").
  assert (H0 : afterAtMostOneAlert cfg rt FNode key w w) by (by left).
  set (b1 := match r with
             | Some cond =>
                 if readyUnhealthy r
                 then (nodeAlertIfDue cfg rt (tGateReady t) (tSendReady t) node cond w,
                       (true, "Node not Ready"))
                 else (w, (false, ""))
             | None => (w, (false, ""))
             end).
  assert (H1 : afterAtMostOneAlert cfg rt FNode key w b1.1
               ∧ b1.2.1 = readyUnhealthy r
               ∧ (readyUnhealthy r = false → b1.1 = w)).
  { subst b1. destruct r as [cond |] eqn:Hr; [| done].
    destruct (readyUnhealthy (Some cond)); [| done].
    split; [by apply nodeAlertIfDue_keeps | done]. }
  destruct b1 as [w1 [h1 m1]]. cbn [fst snd] in H1. destruct H1 as (H1 & Hv1 & Hs1).
  set (b2 := match m with
             | Some cond =>
                 if conditionTrue m
                 then (nodeAlertIfDue cfg rt (tGateMemory t) (tSendMemory t) node cond w1,
                       (true, "Node under MemoryPressure"))
                 else (w1, (h1, m1))
             | None => (w1, (h1, m1))
             end).
  assert (H2 : afterAtMostOneAlert cfg rt FNode key w b2.1
               ∧ b2.2.1 = h1 || conditionTrue m
               ∧ (conditionTrue m = false → b2.1 = w1)).
  { subst b2. destruct m as [cond |] eqn:Hm; [| by rewrite orb_false_r].
    destruct (conditionTrue (Some cond)); [| by rewrite orb_false_r].
    split; [by apply nodeAlertIfDue_keeps |]. by rewrite orb_true_r. }
  destruct b2 as [w2 [h2 m2]]. cbn [fst snd] in H2. destruct H2 as (H2 & Hv2 & Hs2).
  set (b3 := match d with
             | Some cond =>
                 if conditionTrue d
                 then (nodeAlertIfDue cfg rt (tGateDisk t) (tSendDisk t) node cond w2,
                       (true, "Node under DiskPressure"))
                 else (w2, (h2, m2))
             | None => (w2, (h2, m2))
             end).
  assert (H3 : afterAtMostOneAlert cfg rt FNode key w b3.1
               ∧ b3.2.1 = h2 || conditionTrue d
               ∧ (conditionTrue d = false → b3.1 = w2)).
  { subst b3. destruct d as [cond |] eqn:Hd; [| by rewrite orb_false_r].
    destruct (conditionTrue (Some cond)); [| by rewrite orb_false_r].
    split; [by apply nodeAlertIfDue_keeps |]. by rewrite orb_true_r. }
  destruct b3 as [w3 [h3 m3]]. cbn [fst snd] in H3 |- *. destruct H3 as (H3 & Hv3 & Hs3).
  split; [by rewrite Hv3, Hv2, Hv1 |].
  destruct (conditionTrue r && nilOrFalse m && nilOrFalse d) eqn:Hrec.
  - apply andb_true_iff in Hrec as [Hrec Hd']. apply andb_true_iff in Hrec as [Hr' Hm'].
    assert (readyUnhealthy r = false) as Hr0.
    { destruct (readyUnhealthy r) eqn:E; [| done].
      apply readyUnhealthy_not_true in E. congruence. }
    assert (conditionTrue m = false) as Hm0.
    { destruct (conditionTrue m) eqn:E; [| done].
      apply conditionTrue_not_false in E. congruence. }
    assert (conditionTrue d = false) as Hd0.
    { destruct (conditionTrue d) eqn:E; [| done].
      apply conditionTrue_not_false in E. congruence. }
    rewrite (Hs3 Hd0), (Hs2 Hm0), (Hs1 Hr0).
    destruct (commaOk zeroUnitState (nodeStates (stores w) !! key)) as [state exists_].
    destruct (exists_ && hasError state && alertSent state).
    + unfold handleNodeRecovery. rewrite sendWebhookMessage_posts.
      eexists. split; [done |]. destruct (_ && _); simpl; lia.
    + exists []. split; [by rewrite app_nil_r | simpl; lia].
  - by apply (afterAtMostOneAlert_posts cfg rt FNode key).
Qed.

(** On a key without an entry the block of a condition changes
    nothing. *)
Lemma nodeAlertIfDue_absent (cfg : Config) (rt : Runtime) (tGate tSend : Time)
    (node : NodeObject) (cond : NodeCondition) (w : World) :
  nodeStates (stores w) !! node_Name (no_meta node) = None →
  nodeAlertIfDue cfg rt tGate tSend node cond w = w.
Proof.
  intros Hnone. unfold nodeAlertIfDue.
  pose proof (alertGate_closed cfg tGate FNode (node_Name (no_meta node)) (stores w)) as Hc.
  cbn [alertGate familyEntry] in Hc. rewrite Hc; [done |].
  intros st. by rewrite Hnone.
Qed.

Lemma processNodeStatus_absent (cfg : Config) (rt : Runtime) (t : nodeClock)
    (node : NodeObject) (w : World) :
  nodeStates (stores w) !! node_Name (no_meta node) = None →
  (processNodeStatus cfg rt t node w).1 = w.
Proof.
  intros Hnone. unfold processNodeStatus.
  destruct (getNodeCondition node "Ready") as [r |];
    [destruct (readyUnhealthy (Some r)) |];
    rewrite ?nodeAlertIfDue_absent by done;
    (destruct (getNodeCondition node "MemoryPressure") as [m |];
     [destruct (conditionTrue (Some m)) |]);
    rewrite ?nodeAlertIfDue_absent by done;
    (destruct (getNodeCondition node "DiskPressure") as [d |];
     [destruct (conditionTrue (Some d)) |]);
    rewrite ?nodeAlertIfDue_absent by done;
    cbn [fst]; rewrite Hnone; cbn [commaOk andb];
    by destruct (_ && _ && _).
Qed.

(** X14.  A node is never reported by the event that first shows it,
    whatever its conditions and its CPU requests and even with the
    interval at 0: the gates of [processNodeStatus] and of
    [processNodeResourceUsage] run before the entries are created.  The
    node entry left has [firstError] at the clock reading of the update
    and [alertSent] false, in error exactly when the node is
    unhealthy. *)
Theorem handleNode_first_sight_silent (nm : NodeMonitoringConfig) (api : NodesAPI)
    (cfg : Config) (rt : Runtime) (t : nodeClock) (tUpdate : Time) (tr : resourceClock)
    (node : NodeObject) (w : World) :
  nodeStates (stores w) !! node_Name (no_meta node) = None →
  nodeResourceStates (stores w) !! node_Name (no_meta node) = None →
  let w' := handleNode nm api cfg rt t tUpdate tr (ANode node) w in
  posts w' = posts w
  ∧ ∃ m, nodeStates (stores w') !! node_Name (no_meta node)
         = Some (mkUnitState (nodeUnhealthy node) tUpdate m tUpdate false).
Proof.
  intros Hnone Hres. cbv zeta. unfold handleNode.
  pose proof (processNodeStatus_absent cfg rt t node w Hnone) as Hw.
  pose proof (processNodeStatus_one_verdict cfg rt t node w) as Hv.
  destruct (processNodeStatus cfg rt t node w) as [w1 [h m]].
  cbn [fst snd] in *. subst w1 h.
  set (w1 := on_stores (updateNodeState tUpdate (no_meta node) (nodeUnhealthy node) m) w).
  assert (Hent : nodeStates (stores w1) !! node_Name (no_meta node)
                 = Some (mkUnitState (nodeUnhealthy node) tUpdate m tUpdate false)).
  { subst w1. simpl. unfold updateNodeState. rewrite Hnone. simpl.
    by rewrite lookup_insert_eq. }
  assert (Hres1 : nodeResourceStates (stores w1) !! node_Name (no_meta node) = None).
  { subst w1. simpl. unfold updateNodeState. rewrite Hnone.
    by destruct (stores w). }
  assert (Hp1 : posts w1 = posts w) by done.
  unfold processNodeResourceUsage.
  destruct (nm_Enabled nm); cbn [negb]; [| eauto].
  destruct (calculateNodeResourceUsage api (node_Name (no_meta node)))
    as [[cap req] |]; [| eauto].
  pose proof (alertGate_closed cfg (tGateCPU tr) FNodeResource (node_Name (no_meta node))
                (stores w1)) as Hc.
  cbn [alertGate familyEntry] in Hc. rewrite Hc by (intros st; by rewrite Hres1).
  rewrite andb_false_r. rewrite Hres1.
  split.
  - by destruct (negb _).
  - exists m. destruct (negb _); simpl; unfold updateNodeResourceState;
      destruct (rearm _ _ _); simpl; exact Hent.
Qed.

Lemma handleNode_first_sight_silent_witness :
  let w' := handleNode nodeMonitoringDefault smallNodeAPI cfgImmediate rtExample
              (nodeClockAt 1000) 1000 (resourceClockAt 1000) (ANode sickNode) leaderWorld in
  posts w' = posts leaderWorld
  ∧ ∃ m, nodeStates (stores w') !! "n1" = Some (mkUnitState true 1000 m 1000 false).
Proof.
  exact (handleNode_first_sight_silent nodeMonitoringDefault smallNodeAPI cfgImmediate
           rtExample (nodeClockAt 1000) 1000 (resourceClockAt 1000) sickNode leaderWorld
           eq_refl eq_refl).
Defined.

(** ** Properties of the node resource calculator *)

(** X15.  The CPU recovery is checked before the update, so it is sent:
    on a leader whose webhook URL parses, a call that finds the usage at
    or below the threshold over an entry in error with its alert sent
    posts exactly one recovery message, provided the usage stored in the
    entry is above the threshold in force now; if the threshold has been
    raised above the stored usage, nothing is posted.  Either way the
    entry is left healthy with [firstError] zero and [alertSent]
    false. *)
Theorem processNodeResourceUsage_recovery (nm : NodeMonitoringConfig) (api : NodesAPI)
    (cfg : Config) (rt : Runtime) (t : resourceClock) (nodeName : string) (w : World)
    (prev : nodeResourceState) (cpuCapacity cpuRequests : Z) :
  nm_Enabled nm = true →
  calculateNodeResourceUsage api nodeName = Some (cpuCapacity, cpuRequests) →
  let cpuUsagePercent :=
    if 0 <? cpuCapacity then usagePercentOf cpuCapacity cpuRequests else 0%float in
  PrimFloat.ltb (nm_CPUThresholdPercent nm) cpuUsagePercent = false →
  nodeResourceStates (stores w) !! nodeName = Some prev →
  hasError (nr_unitState prev) = true →
  alertSent (nr_unitState prev) = true →
  isLeader w = true →
  rt_urlParses rt (WebhookUrl cfg) = true →
  let w' := processNodeResourceUsage nm api cfg rt t nodeName w in
  posts w'
  = (posts w ++
     if PrimFloat.ltb (nm_CPUThresholdPercent nm) (nr_cpuUsagePercent prev)
     then [mkHttpRequest "POST" (WebhookUrl cfg) "application/json"
             (jsonPayload (nodeCPURecoveryAlert rt nodeName cpuUsagePercent)
                (rt_formatRFC3339 rt (tSendCPURecovery t)))]
     else [])%list
  ∧ nodeResourceStates (stores w') !! nodeName
    = Some (mkNodeResourceState (mkUnitState false (tUpdateCPU t) "" zeroTime false)
              cpuCapacity cpuRequests cpuUsagePercent nodeName).
Proof.
  intros Hen Hcalc pct Hok Hprev He Hs Hl Hu. cbv zeta.
  unfold processNodeResourceUsage. rewrite Hen, Hcalc. cbn [negb]. fold pct.
  rewrite Hok. cbn [andb negb]. rewrite Hprev. cbv beta iota. rewrite He, Hs. cbn [andb].
  destruct (PrimFloat.ltb (nm_CPUThresholdPercent nm) (nr_cpuUsagePercent prev)).
  - destruct (sendWebhookMessage_stores cfg rt (tSendCPURecovery t)
                (nodeCPURecoveryAlert rt nodeName pct) w) as [Hst _].
    split.
    + cbn [posts on_stores set_stores]. rewrite sendWebhookMessage_posts.
      by rewrite Hl, Hu.
    + cbn [stores on_stores set_stores]. rewrite Hst.
      unfold updateNodeResourceState. rewrite Hprev. simpl.
      by rewrite lookup_insert_eq.
  - split; [by rewrite app_nil_r |].
    cbn [stores on_stores set_stores].
    unfold updateNodeResourceState. rewrite Hprev. simpl.
    by rewrite lookup_insert_eq.
Qed.

Lemma processNodeResourceUsage_recovery_witness :
  let w' := processNodeResourceUsage nodeMonitoringDefault smallNodeAPI cfgImmediate
              rtExample (resourceClockAt 2000) "n1" busyNodeWorld in
  posts w'
  = [mkHttpRequest "POST" (WebhookUrl cfgImmediate) "application/json"
       (jsonPayload (nodeCPURecoveryAlert rtExample "n1" 25%float)
          (rt_formatRFC3339 rtExample 2000))]
  ∧ nodeResourceStates (stores w') !! "n1"
    = Some (mkNodeResourceState (mkUnitState false 2000 "" zeroTime false)
              4000 1000 25%float "n1").
Proof.
  exact (processNodeResourceUsage_recovery nodeMonitoringDefault smallNodeAPI cfgImmediate
           rtExample (resourceClockAt 2000) "n1" busyNodeWorld
           (mkNodeResourceState
              (mkUnitState true 1000 "CPU usage 90.0% exceeds threshold 80.0%" 1000 true)
              4000 3600 90%float "n1")
           4000 1000 eq_refl eq_refl eq_refl eq_refl eq_refl eq_refl eq_refl eq_refl).
Defined.

(** ** Properties of runs of GitOps verdicts *)

(** A mismatch is the upsert, the gate, the alert and the mark. *)
Lemma processGitOpsMismatch_step (cfg : Config) (rt : Runtime) (tUpdate tGate tSend : Time)
    (repoState : gitOpsRepositoryState) (expected : Object) (actual : option Object)
    (mismatchType : string) (w : World) :
  processGitOpsMismatch cfg rt tUpdate tGate tSend repoState expected actual mismatchType w
  = alertStep cfg rt tUpdate tGate tSend
      (mismatchUpsert repoState expected actual mismatchType)
      (gitOpsMismatchAlert (rs_name repoState) (Some expected) actual mismatchType) w.
Proof. reflexivity. Qed.

(** The message of a missing or a drifted resource does not depend on
    the live object. *)
Lemma mismatchMessage_actual (expected : Object) (actual actual' : option Object)
    (mismatchType : string) :
  mismatchType = "missing" ∨ mismatchType = "different" →
  mismatchMessage expected actual mismatchType
  = mismatchMessage expected actual' mismatchType.
Proof. by intros [-> | ->]. Qed.

Lemma processGitOpsMismatches_sent (cfg : Config) (rt : Runtime)
    (repoState : gitOpsRepositoryState) (expected : Object) (mismatchType : string)
    (calls : list (Time * Time * Time * option Object)) :
  mismatchType = "missing" ∨ mismatchType = "different" →
  ∀ (w : World) (st : gitOpsState),
    gitOpsStates (stores w)
      !! gitOpsKey (rs_name repoState) (GetNamespace expected) (GetKind expected)
           (GetName expected) = Some st →
    hasError (go_unitState st) = true →
    alertSent (go_unitState st) = true →
    lastMessage (go_unitState st) = mismatchMessage expected None mismatchType →
    posts (processGitOpsMismatches cfg rt repoState expected mismatchType calls w) = posts w.
Proof.
  intros Hty. induction calls as [| [[[tU tG] tS] actual] calls IH];
    intros w st Hst He Hs Hm; cbn [processGitOpsMismatches]; [done |].
  rewrite processGitOpsMismatch_step.
  destruct (alertStep_silent cfg rt tU tG tS
              (mismatchUpsert repoState expected actual mismatchType)
              (gitOpsMismatchAlert (rs_name repoState) (Some expected) actual mismatchType)
              w (go_unitState st)) as (Hp & _ & Hent); try done.
  { cbn [upsertFamily upsertKey mismatchUpsert familyEntry]. by rewrite Hst. }
  { intros _. cbn [upsertMessage mismatchUpsert]. rewrite Hm.
    by apply mismatchMessage_actual. }
  cbn [upsertFamily upsertKey upsertMessage mismatchUpsert familyEntry] in Hent.
  set (w1 := alertStep _ _ _ _ _ _ _ _) in *.
  destruct (gitOpsStates (stores w1) !! _) as [st1 |] eqn:Hst1; [| done].
  simpl in Hent. injection Hent as Hent.
  rewrite (IH w1 st1 Hst1); [done | by rewrite Hent | by rewrite Hent |].
  rewrite Hent. simpl. by apply mismatchMessage_actual.
Qed.

(** X16.  A mismatch that lasts is reported at most once: over any run
    of [processGitOpsMismatch] calls for one manifest of one repository,
    all of them with the type [missing] or all with the type [different],
    at most one request is handed to the HTTP client, whatever the clock
    readings, the live objects, the configuration and the state
    before. *)
Theorem gitops_mismatch_alerts_at_most_once (cfg : Config) (rt : Runtime)
    (repoState : gitOpsRepositoryState) (expected : Object) (mismatchType : string)
    (calls : list (Time * Time * Time * option Object)) :
  mismatchType = "missing" ∨ mismatchType = "different" →
  ∀ w : World,
    ∃ extra,
      posts (processGitOpsMismatches cfg rt repoState expected mismatchType calls w)
      = (posts w ++ extra)%list
      ∧ (length extra ≤ 1)%nat.
Proof.
  intros Hty. induction calls as [| [[[tU tG] tS] actual] calls IH]; intros w;
    cbn [processGitOpsMismatches].
  { exists []. split; [by rewrite app_nil_r | simpl; lia]. }
  rewrite processGitOpsMismatch_step.
  destruct (alertStep_cases cfg rt tU tG tS
              (mismatchUpsert repoState expected actual mismatchType)
              (gitOpsMismatchAlert (rs_name repoState) (Some expected) actual mismatchType)
              w eq_refl) as (_ & [(Hp & _ & _) | (_ & Hp & st & Hst & He & Hs & Hm)]).
  - destruct (IH (alertStep cfg rt tU tG tS
                    (mismatchUpsert repoState expected actual mismatchType)
                    (gitOpsMismatchAlert (rs_name repoState) (Some expected) actual
                       mismatchType) w)) as (extra & Hx & Hlen).
    exists extra. by rewrite Hx, Hp.
  - cbn [upsertFamily upsertKey upsertMessage mismatchUpsert familyEntry] in Hst, Hm.
    set (w1 := alertStep _ _ _ _ _ _ _ _) in *.
    destruct (gitOpsStates (stores w1) !! _) as [st1 |] eqn:Hst1; [| done].
    simpl in Hst. injection Hst as Hst.
    rewrite (processGitOpsMismatches_sent cfg rt repoState expected mismatchType calls
               Hty w1 st1 Hst1); rewrite ?Hst; try done.
    + rewrite Hp. eexists. split; [done |]. destruct (_ && _); simpl; lia.
    + rewrite Hm. by apply mismatchMessage_actual.
Qed.

Lemma gitops_mismatch_alerts_at_most_once_witness :
  ∃ extra,
    posts (processGitOpsMismatches cfgImmediate rtExample infraRepo deploymentManifest
             "missing"
             [ (1000, 1000, 1000, None); (2000, 2000, 2000, None);
               (3000, 3000, 3000, None) ] leaderWorld)
    = (posts leaderWorld ++ extra)%list
    ∧ (length extra ≤ 1)%nat.
Proof.
  exact (gitops_mismatch_alerts_at_most_once cfgImmediate rtExample infraRepo
           deploymentManifest "missing"
           [ (1000, 1000, 1000, None); (2000, 2000, 2000, None); (3000, 3000, 3000, None) ]
           (or_introl eq_refl) leaderWorld).
Defined.

(** X17.  The GitOps recovery is sent, and sent once: on a leader whose
    webhook URL parses, [processGitOpsMatch] over an entry in error with
    its alert sent posts exactly the recovery message and leaves the
    entry healthy, and a further [processGitOpsMatch] for the manifest
    posts nothing. *)
Theorem gitops_recovery_sent_once (cfg : Config) (rt : Runtime)
    (tUpdate tSend tUpdate' tSend' : Time) (repoState : gitOpsRepositoryState)
    (manifest : Object) (w : World) (st : gitOpsState) :
  let key := gitOpsKey (rs_name repoState) (GetNamespace manifest) (GetKind manifest)
               (GetName manifest) in
  gitOpsStates (stores w) !! key = Some st →
  hasError (go_unitState st) = true →
  alertSent (go_unitState st) = true →
  isLeader w = true →
  rt_urlParses rt (WebhookUrl cfg) = true →
  let w1 := processGitOpsMatch cfg rt tUpdate tSend repoState manifest w in
  let w2 := processGitOpsMatch cfg rt tUpdate' tSend' repoState manifest w1 in
  posts w1
  = (posts w ++ [mkHttpRequest "POST" (WebhookUrl cfg) "application/json"
                   (jsonPayload
                      (gitOpsRecoveryAlert (rs_name repoState) (GetKind manifest)
                         (GetName manifest) (GetNamespace manifest))
                      (rt_formatRFC3339 rt tSend))])%list
  ∧ (∃ st1, familyEntry FGitOps key (stores w1) = Some st1 ∧ hasError st1 = false)
  ∧ posts w2 = posts w1.
Proof.
  intros key Hst He Hs Hl Hu w1 w2.
  assert (Hw1 : w1 = on_stores
                       (updateGitOpsState tUpdate key false "" (rs_name repoState)
                          (GetKind manifest) (GetName manifest) (GetNamespace manifest)
                          "" "" "")
                       (sendWebhookMessage cfg rt tSend
                          (gitOpsRecoveryAlert (rs_name repoState) (GetKind manifest)
                             (GetName manifest) (GetNamespace manifest)) w)).
  { subst w1. unfold processGitOpsMatch, checkGitOpsRecovery. fold key.
    rewrite Hst. simpl. by rewrite He, Hs. }
  assert (Hent : ∃ st1, familyEntry FGitOps key (stores w1) = Some st1
                        ∧ hasError st1 = false).
  { rewrite Hw1. cbn [stores on_stores set_stores familyEntry].
    rewrite updateGitOpsState_entry. eexists. split; [reflexivity |].
    match goal with |- context [let '(_, _) := ?X in _] => by destruct X end. }
  split; [| split; [exact Hent |]].
  - rewrite Hw1. cbn [posts on_stores set_stores]. rewrite sendWebhookMessage_posts.
    by rewrite Hl, Hu.
  - destruct Hent as (st1 & Hst1 & He1). subst w2.
    unfold processGitOpsMatch, checkGitOpsRecovery. fold key.
    cbn [familyEntry] in Hst1.
    destruct (gitOpsStates (stores w1) !! key) as [g1 |]; [| done].
    simpl in Hst1. injection Hst1 as <-. simpl. by rewrite He1.
Qed.

Lemma gitops_recovery_sent_once_witness :
  let w1 := processGitOpsMatch cfgImmediate rtExample 2000 2000 infraRepo
              deploymentManifest missingAlertedWorld in
  let w2 := processGitOpsMatch cfgImmediate rtExample 3000 3000 infraRepo
              deploymentManifest w1 in
  posts w1
  = [mkHttpRequest "POST" (WebhookUrl cfgImmediate) "application/json"
       (jsonPayload (gitOpsRecoveryAlert "infra" "Deployment" "web" "default")
          (rt_formatRFC3339 rtExample 2000))]
  ∧ (∃ st1, familyEntry FGitOps "infra/default/Deployment/web" (stores w1) = Some st1
            ∧ hasError st1 = false)
  ∧ posts w2 = posts w1.
Proof.
  exact (gitops_recovery_sent_once cfgImmediate rtExample 2000 2000 3000 3000 infraRepo
           deploymentManifest missingAlertedWorld
           (mkGitOpsState
              (mkUnitState true 1000
                 "Resource missing: Deployment/web is missing from cluster" 1000 true)
              "infra" "Deployment" "web" "default" "missing" "" "")
           eq_refl eq_refl eq_refl eq_refl eq_refl).
Defined.

(** ** Properties of the resource filter and of the discovery cache *)

Lemma existsb_eqb_In (k : string) (l : list string) :
  existsb (fun x => String.eqb k x) l = true ↔ In k l.
Proof.
  rewrite existsb_exists. split.
  - intros (x & Hin & Heq). apply String.eqb_eq in Heq. by subst.
  - intros Hin. exists k. by rewrite String.eqb_refl.
Qed.

Lemma listed_or_empty (k : string) (l : list string) :
  (0 <? length l)%nat && negb (existsb (fun x => String.eqb k x) l) = false
  ↔ l = [] ∨ In k l.
Proof.
  destruct l as [| x l]; [by split; [left | ] |].
  cbn [length Nat.ltb Nat.leb andb].
  rewrite negb_false_iff, existsb_eqb_In. split; [by right | by intros [? | ?]].
Qed.

Lemma denied_iff (k : string) (l : list string) :
  (0 <? length l)%nat && existsb (fun x => String.eqb k x) l = false ↔ ¬ In k l.
Proof.
  destruct l as [| x l]; [by split; [intros _ [] |] |].
  cbn [length Nat.ltb Nat.leb andb].
  rewrite <- existsb_eqb_In. by destruct (existsb _ _).
Qed.

(** X18.  [shouldFilterResource] keeps a manifest exactly when its kind
    and its namespace are on neither denylist and each allowlist is empty
    or lists it; a denylist so wins over an allowlist.  With a namespace
    allowlist that does not hold the empty name, every manifest without a
    namespace, so every cluster-scoped one, is filtered out. *)
Theorem shouldFilterResource_kept (filters : GitOpsFilters) (obj : Object) :
  (shouldFilterResource filters obj = false
   ↔ ¬ In (GetKind obj) (gf_Kinds (Denylist filters))
     ∧ ¬ In (GetNamespace obj) (gf_Namespaces (Denylist filters))
     ∧ (gf_Kinds (Allowlist filters) = [] ∨ In (GetKind obj) (gf_Kinds (Allowlist filters)))
     ∧ (gf_Namespaces (Allowlist filters) = []
        ∨ In (GetNamespace obj) (gf_Namespaces (Allowlist filters))))
  ∧ (GetNamespace obj = "" →
     gf_Namespaces (Allowlist filters) ≠ [] →
     ¬ In "" (gf_Namespaces (Allowlist filters)) →
     shouldFilterResource filters obj = true).
Proof.
  assert (Hiff : shouldFilterResource filters obj = false
   ↔ ¬ In (GetKind obj) (gf_Kinds (Denylist filters))
     ∧ ¬ In (GetNamespace obj) (gf_Namespaces (Denylist filters))
     ∧ (gf_Kinds (Allowlist filters) = [] ∨ In (GetKind obj) (gf_Kinds (Allowlist filters)))
     ∧ (gf_Namespaces (Allowlist filters) = []
        ∨ In (GetNamespace obj) (gf_Namespaces (Allowlist filters)))).
  { rewrite <- !denied_iff, <- !listed_or_empty. unfold shouldFilterResource.
    destruct (_ && existsb _ (gf_Kinds (Denylist filters))); [by split; [| intros [? _]] |].
    destruct (_ && existsb _ (gf_Namespaces (Denylist filters)));
      [by split; [| intros (_ & ? & _)] |].
    destruct (_ && negb (existsb _ (gf_Kinds (Allowlist filters))));
      [by split; [| intros (_ & _ & ? & _)] |].
    destruct (_ && negb (existsb _ (gf_Namespaces (Allowlist filters))));
      [by split; [| intros (_ & _ & _ & ?)] | done]. }
  split; [exact Hiff |].
  intros Hns Hne Hnot. apply not_false_iff_true. intros E.
  apply Hiff in E as (_ & _ & _ & [? | Hin]); [done |]. rewrite Hns in Hin. done.
Qed.

Lemma shouldFilterResource_kept_witness :
  shouldFilterResource filtersExample clusterRoleManifest = true.
Proof.
  apply (proj2 (shouldFilterResource_kept filtersExample clusterRoleManifest));
    [reflexivity | discriminate |].
  intros [H | [H | []]]; discriminate H.
Defined.

Lemma mapGet_app_last {A : Type} (k : string) (l : list (string * A)) (kv : string * A) :
  mapGet k (l ++ [kv])%list
  = match mapGet k l with
    | Some v => Some v
    | None => if String.eqb kv.1 k then Some kv.2 else None
    end.
Proof.
  induction l as [| [k0 v0] l IH]; simpl.
  - by destruct kv.
  - by destruct (String.eqb k0 k).
Qed.

(** A run of cache writes: the last write of a key is the one read. *)
Lemma fold_insert_lookup (l : list (string * GroupVersionResource))
    (cache : gmap string GroupVersionResource) (k : string) :
  fold_left (fun c kv => <[kv.1 := kv.2]> c) l cache !! k
  = match mapGet k (rev l) with
    | Some v => Some v
    | None => cache !! k
    end.
Proof.
  revert cache. induction l as [| kv l IH]; intros cache; simpl; [done |].
  rewrite IH, mapGet_app_last.
  destruct (mapGet k (rev l)); [done |].
  destruct (String.eqb_spec kv.1 k) as [<- | Hne].
  - by rewrite lookup_insert_eq.
  - by rewrite lookup_insert_ne.
Qed.

Lemma cacheResources_writes (gv : string * string) (resources : list APIResource)
    (cache : gmap string GroupVersionResource) :
  cacheResources gv resources cache
  = fold_left (fun c kv => <[kv.1 := kv.2]> c)
      (flat_map (fun r => if containsSlash (ar_Name r) then []
                          else [(ar_Kind r, mkGVR gv.1 gv.2 (ar_Name r))]) resources)
      cache.
Proof.
  unfold cacheResources. revert cache.
  induction resources as [| r resources IH]; intros cache; simpl; [done |].
  rewrite fold_left_app, IH. by destruct (containsSlash (ar_Name r)).
Qed.

Lemma initializeGVRCache_writes (parseGroupVersion : string → option (string * string))
    (apiResourceLists : list (option APIResourceList))
    (cache : gmap string GroupVersionResource) :
  initializeGVRCache parseGroupVersion apiResourceLists cache
  = fold_left (fun c kv => <[kv.1 := kv.2]> c)
      (discovered parseGroupVersion apiResourceLists) cache.
Proof.
  unfold initializeGVRCache, discovered. revert cache.
  induction apiResourceLists as [| l lists IH]; intros cache; simpl; [done |].
  rewrite fold_left_app, IH. destruct l as [l |]; [| done].
  destruct (parseGroupVersion (rl_GroupVersion l)) as [gv |]; [| done].
  by rewrite cacheResources_writes.
Qed.

(** X19.  After [initializeGVRCache] has filled the empty cache,
    [getGVRForKind] answers for a kind with the group, version and
    resource of the last resource of that kind that discovery listed,
    subresources and lists with an unparsable group version left out; so
    a kind served by several groups resolves to the one listed last, and
    a kind that discovery does not list is unknown. *)
Theorem getGVRForKind_last_listed (parseGroupVersion : string → option (string * string))
    (apiResourceLists : list (option APIResourceList))
    (get : GroupVersionResource → option string → string → getResult)
    (apply : GroupVersionResource → option string → string → Object → option Object)
    (kind : string) :
  let cl := mkCluster (initializeGVRCache parseGroupVersion apiResourceLists ∅) get apply in
  getGVRForKind cl kind = mapGet kind (rev (discovered parseGroupVersion apiResourceLists))
  ∧ (getGVRForKind cl kind = None
     ↔ ¬ In kind (map fst (discovered parseGroupVersion apiResourceLists))).
Proof.
  cbv zeta. unfold getGVRForKind. cbn [gvrCache].
  rewrite initializeGVRCache_writes, fold_insert_lookup.
  assert (Heq : match mapGet kind (rev (discovered parseGroupVersion apiResourceLists)) with
                | Some v => Some v
                | None => (∅ : gmap string GroupVersionResource) !! kind
                end = mapGet kind (rev (discovered parseGroupVersion apiResourceLists))).
  { by destruct (mapGet _ _). }
  rewrite Heq. split; [done |].
  generalize (discovered parseGroupVersion apiResourceLists). intros l.
  rewrite in_map_iff. split.
  - intros Hnone ([k v] & Hk & Hin). simpl in Hk. subst k.
    apply in_rev in Hin. revert Hnone Hin. generalize (rev l). clear.
    induction l as [| [k0 v0] l IH]; simpl; [done |].
    destruct (String.eqb_spec k0 kind) as [-> | Hne]; [done |].
    intros Hnone [[= -> ->] | Hin]; [done | by apply IH].
  - intros Hnot. destruct (mapGet kind (rev l)) as [v |] eqn:Hget; [| done].
    exfalso. apply Hnot. exists (kind, v). split; [done |].
    apply in_rev. revert Hget. generalize (rev l). clear.
    induction l as [| [k0 v0] l IH]; simpl; [done |].
    destruct (String.eqb_spec k0 kind) as [-> | Hne].
    + intros [= ->]. by left.
    + intros Hget. right. by apply IH.
Qed.

(** ** Properties of the comparison of a repository *)

(** The manifests collected are the converted resources that the filter
    keeps. *)
Lemma collectManifests_In (filters : GitOpsFilters) (resources : list (option Object))
    (m : Object) :
  In m (collectManifests filters resources)
  ↔ In (Some m) resources ∧ shouldFilterResource filters m = false.
Proof.
  induction resources as [| [obj |] rest IH]; simpl.
  - tauto.
  - destruct (shouldFilterResource filters obj) eqn:Hf; simpl; rewrite IH; split.
    + intros [? ?]. tauto.
    + intros [[[= ->] | ?] ?]; [congruence | tauto].
    + intros [-> | [? ?]]; tauto.
    + intros [[[= ->] | ?] ?]; tauto.
  - rewrite IH. split; [tauto |]. intros [[[=] | ?] ?]. tauto.
Qed.

(** One comparison writes the GitOps entry of its manifest and no other
    entry, and leaves the leader flag. *)
Lemma compareManifestWithCluster_frame (cfg : Config) (rt : Runtime) (cl : Cluster)
    (tUpdate tGate tSend : Time) (repoState : gitOpsRepositoryState) (manifest : Object)
    (w : World) (f' : family) (key' : string) :
  ¬ (f' = FGitOps ∧ key' = manifestKey repoState manifest) →
  let w' := (compareManifestWithCluster cfg rt cl tUpdate tGate tSend repoState
               manifest w).1 in
  familyRecord f' key' (stores w') = familyRecord f' key' (stores w).
Proof.
  intros Hd. cbv zeta. unfold compareManifestWithCluster.
  destruct (getGVRForKind cl (GetKind manifest)) as [gvr |]; [| done].
  destruct (liveGet cl gvr manifest) as [live | |]; [| | done].
  - destruct (resourcesAreDifferent rt cl manifest live); cbn [fst].
    + rewrite processGitOpsMismatch_step. by apply alertStep_frame.
    + unfold processGitOpsMatch. cbn [stores on_stores set_stores].
      rewrite checkGitOpsRecovery_stores.
      exact (upsert_frame tUpdate
               (UpsertGitOps (manifestKey repoState manifest) false "" (rs_name repoState)
                  (GetKind manifest) (GetName manifest) (GetNamespace manifest) "" "" "")
               (stores w) f' key' Hd).
  - cbn [fst]. rewrite processGitOpsMismatch_step. by apply alertStep_frame.
Qed.

Lemma compareLoop_frame (cfg : Config) (rt : Runtime) (cl : Cluster)
    (clock : nat → Time * Time * Time) (repoState : gitOpsRepositoryState)
    (manifests : list Object) (f' : family) (key' : string) :
  (f' = FGitOps → ∀ m, In m manifests → manifestKey repoState m ≠ key') →
  ∀ (i : nat) (w : World),
    familyRecord f' key' (stores (compareLoop cfg rt cl clock i repoState manifests w))
    = familyRecord f' key' (stores w).
Proof.
  induction manifests as [| m rest IH]; intros Hk i w; simpl; [done |].
  destruct (clock i) as [[tU tG] tS].
  pose proof (compareManifestWithCluster_frame cfg rt cl tU tG tS repoState m w f' key')
    as Hf.
  destruct (compareManifestWithCluster cfg rt cl tU tG tS repoState m w) as [w1 err].
  cbn [fst] in Hf. rewrite IH.
  - apply Hf. intros [-> ->]. by apply (Hk eq_refl m); [left |].
  - intros Hg m' Hin. apply (Hk Hg). by right.
Qed.

(** X20.  [compareManifests] compares what the filter keeps and nothing
    else: every manifest it compares is a resource of the Kustomize
    result that [shouldFilterResource] does not reject; the state entries
    of all other keys, and of all other families, are left as they were,
    with all of their fields;
    and when the generation fails (no configuration for the repository,
    no kustomization file, or a failed Kustomize run) the error is
    returned with the process unchanged. *)
Theorem compareManifests_compares_what_is_kept (repositories : list RepositoryConfig)
    (filters : GitOpsFilters) (kustomize : Kustomizer) (cfg : Config) (rt : Runtime)
    (cl : Cluster) (clock : nat → Time * Time * Time) (repoState : gitOpsRepositoryState)
    (checkout : option fsnode) (w : World) :
  let generated :=
    generateKustomizeManifests repositories filters kustomize repoState checkout in
  let result :=
    compareManifests repositories filters kustomize cfg rt cl clock repoState checkout w in
  (∀ manifests m, generated.2 = inr manifests → In m manifests →
     shouldFilterResource filters m = false
     ∧ ∃ helmCommand tree resources,
         kustomize helmCommand tree = Some resources ∧ In (Some m) resources)
  ∧ (∀ err, generated.2 = inl err → result = (generated.1, w, Some err))
  ∧ (∀ (f' : family) (key' : string),
       (f' = FGitOps → ∀ manifests m, generated.2 = inr manifests → In m manifests →
                       manifestKey repoState m ≠ key') →
       familyRecord f' key' (stores result.1.2) = familyRecord f' key' (stores w)).
Proof.
  cbv zeta. unfold compareManifests.
  split; [| split].
  - intros manifests m Hgen Hin. unfold generateKustomizeManifests in Hgen.
    destruct (find _ repositories) as [repoConfig |]; [| done].
    destruct checkout as [tree |]; [| done].
    destruct (hasKustomization (Some tree)); [| done].
    match type of Hgen with context [kustomize ?h ?t] =>
      destruct (kustomize h t) as [resources |] eqn:Hrun end; [| done].
    cbn [snd] in Hgen. injection Hgen as <-.
    apply collectManifests_In in Hin as [Hin Hkept]. eauto 6.
  - intros err Hgen.
    destruct (generateKustomizeManifests repositories filters kustomize repoState checkout)
      as [checkout' [e | manifests]]; cbn [fst snd] in *; congruence.
  - intros f' key' Hk.
    destruct (generateKustomizeManifests repositories filters kustomize repoState checkout)
      as [checkout' [e | manifests]]; cbn [fst snd] in *; [done |].
    apply compareLoop_frame. intros Hg m Hin. by apply (Hk Hg manifests).
Qed.

Lemma compareManifests_compares_what_is_kept_witness :
  familyRecord FGitOps "infra/default/Secret/db"
    (stores (compareManifests repositoriesExample filtersExample kustomizeExample
               cfgImmediate rtExample emptyCluster (fun _ => (2000, 2000, 2000)) infraRepo
               (Some checkoutExample) secretEntryWorld).1.2)
  = familyRecord FGitOps "infra/default/Secret/db" (stores secretEntryWorld).
Proof.
  apply (proj2 (proj2 (compareManifests_compares_what_is_kept repositoriesExample
                         filtersExample kustomizeExample cfgImmediate rtExample
                         emptyCluster (fun _ => (2000, 2000, 2000)) infraRepo
                         (Some checkoutExample) secretEntryWorld))).
  intros _ manifests m Hgen Hin. vm_compute in Hgen. injection Hgen as <-.
  destruct Hin as [<- | []]. vm_compute. discriminate.
Defined.

(** ** Properties of the registration of the repositories *)

Lemma minutes_positive (n : Z) : 0 < n ≤ maxMinutes → 0 < minutes n.
Proof.
  unfold maxMinutes, minutes. intros Hn.
  rewrite (wrap64_small n) by (unfold minDuration, maxDuration; lia).
  rewrite wrap64_small by (unfold minDuration, maxDuration, Minute; lia).
  unfold Minute. lia.
Qed.

Lemma chosenSyncMinutes_positive (repositoryMinutes globalMinutes : Z) :
  repositoryMinutes ≤ maxMinutes → globalMinutes ≤ maxMinutes →
  0 < chosenSyncMinutes repositoryMinutes globalMinutes ≤ maxMinutes.
Proof.
  unfold chosenSyncMinutes, maxMinutes. intros Hr Hg.
  destruct (Z.ltb_spec 0 repositoryMinutes); [lia |].
  destruct (Z.ltb_spec 0 globalMinutes); lia.
Qed.

(** The registry holds, under a name, the state of the last configured
    repository of that name that is not skipped. *)
Lemma registerRepositories_last (joinPath : string → string → string) (tempDir : string)
    (globalSync : Z) (repositories : list RepositoryConfig) :
  ∀ name entry,
    registerRepositories joinPath tempDir globalSync repositories ∅ !! name = Some entry →
    wellRegistered joinPath tempDir globalSync repositories name entry.
Proof.
  unfold registerRepositories.
  induction repositories as [| repo rest IH] using rev_ind; intros name entry; [done |].
  rewrite fold_left_app. cbn [fold_left].
  match goal with |- context [fold_left ?step rest ?init] =>
    set (registry := fold_left step rest init) in * end.
  assert (Hskip : registry !! name = Some entry →
                  (rc_Name repo = name → rc_URL repo = "") →
                  wellRegistered joinPath tempDir globalSync (rest ++ [repo])%list name entry).
  { intros Hent Hnot.
    destruct (IH name entry Hent)
      as (Hn & Hname & Hu & Hp & Hb & Hl & before & r & after & -> & Hafter & Hr).
    repeat (split; [done |]).
    exists before, r, (after ++ [repo])%list. split; [by rewrite <- app_assoc |].
    split; [| exact Hr].
    intros later [Hin | [<- | []]]%in_app_or; [by apply Hafter | done]. }
  destruct (String.eqb_spec (rc_Name repo) "") as [Hn | Hn].
  { cbn [orb]. intros Hent. apply Hskip; [done |]. intros <-.
    by destruct (IH _ _ Hent) as [Hne _]. }
  destruct (String.eqb_spec (rc_URL repo) "") as [Hu | Hu].
  { cbn [orb]. intros Hent. by apply Hskip. }
  cbn [orb].
  destruct (decide (rc_Name repo = name)) as [<- | Hne].
  2: { rewrite lookup_insert_ne by done. intros Hent. by apply Hskip. }
  rewrite lookup_insert_eq. intros [= <-].
  unfold wellRegistered. cbn [fst snd rs_name rs_url rs_path rs_branch rs_localPath].
  assert (Hmin : (if (if rc_SyncIntervalMinutes repo <=? 0 then globalSync
                      else rc_SyncIntervalMinutes repo) <=? 0
                  then 5
                  else if rc_SyncIntervalMinutes repo <=? 0 then globalSync
                       else rc_SyncIntervalMinutes repo)
                 = chosenSyncMinutes (rc_SyncIntervalMinutes repo) globalSync).
  { unfold chosenSyncMinutes.
    destruct (Z.leb_spec (rc_SyncIntervalMinutes repo) 0),
             (Z.ltb_spec 0 (rc_SyncIntervalMinutes repo)); try lia.
    - destruct (Z.leb_spec globalSync 0), (Z.ltb_spec 0 globalSync); lia.
    - destruct (Z.leb_spec (rc_SyncIntervalMinutes repo) 0); lia. }
  rewrite Hmin.
  repeat (split; [try done |]).
  - by destruct (String.eqb_spec (rc_Path repo) "").
  - by destruct (String.eqb_spec (rc_Branch repo) "").
  - exists rest, repo, []. repeat split; try done.
    + destruct (String.eqb_spec (rc_Path repo) ""), (decide (rc_Path repo = "")); done.
    + destruct (String.eqb_spec (rc_Branch repo) ""), (decide (rc_Branch repo = "")); done.
    + intros Hr Hg. apply minutes_positive. by apply chosenSyncMinutes_positive.
Qed.

Lemma registerRepositories_registers (joinPath : string → string → string)
    (tempDir : string) (globalSync : Z) (repositories : list RepositoryConfig)
    (repo : RepositoryConfig) :
  In repo repositories →
  rc_Name repo ≠ "" →
  rc_URL repo ≠ "" →
  ∀ registry : gmap string (gitOpsRepositoryState * Duration),
    is_Some (registerRepositories joinPath tempDir globalSync repositories registry
               !! rc_Name repo).
Proof.
  intros Hin Hn Hu. unfold registerRepositories.
  assert (Hkeep : ∀ (l : list RepositoryConfig)
                    (registry : gmap string (gitOpsRepositoryState * Duration)),
             is_Some (registry !! rc_Name repo) →
             is_Some (fold_left
                        (fun registry repo =>
                           if String.eqb (rc_Name repo) "" || String.eqb (rc_URL repo) ""
                           then registry
                           else
                             <[rc_Name repo :=
                                 (mkRepoState (rc_Name repo) (rc_URL repo)
                                    (if String.eqb (rc_Path repo) "" then "."
                                     else rc_Path repo)
                                    (if String.eqb (rc_Branch repo) "" then "main"
                                     else rc_Branch repo)
                                    (joinPath tempDir (rc_Name repo)),
                                  minutes
                                    (if (if rc_SyncIntervalMinutes repo <=? 0
                                         then globalSync
                                         else rc_SyncIntervalMinutes repo) <=? 0
                                     then 5
                                     else if rc_SyncIntervalMinutes repo <=? 0
                                          then globalSync
                                          else rc_SyncIntervalMinutes repo))]> registry)
                        l registry !! rc_Name repo)).
  { induction l as [| r l IHl]; intros registry Hsome; simpl; [done |].
    apply IHl. destruct (_ || _); [done |].
    destruct (decide (rc_Name r = rc_Name repo)) as [-> | Hne].
    - rewrite lookup_insert_eq. eauto.
    - by rewrite lookup_insert_ne. }
  induction repositories as [| r rest IH]; intros registry; simpl; [done |].
  destruct Hin as [-> | Hin]; [| by apply IH].
  apply Hkeep.
  destruct (String.eqb_spec (rc_Name repo) "") as [? | _]; [done |].
  destruct (String.eqb_spec (rc_URL repo) "") as [? | _]; [done |].
  cbn [orb]. rewrite lookup_insert_eq. eauto.
Qed.

(** X21.  Every state that [setupGitOpsMonitoring] registers in the empty
    registry is keyed by its repository name and is the state of the last
    configured repository of that name that has a URL: it has that name
    and URL, the path of the repository or "." if that is empty, its
    branch or "main" if that is empty, the clone directory
    [filepath.Join(tempDir, name)], and as sync interval the minutes of
    the repository if above 0, else the global minutes if above 0, else 5
    minutes; name, URL, path and branch are not empty and, while the
    configured minutes fit a duration, the sync interval is above 0, so
    that the ticker of its monitor can be made.  A repository without a
    name or a URL is left out, every other one is registered; and with
    monitoring disabled, or without repositories, nothing is
    registered. *)
Theorem setupGitOpsMonitoring_registry (enabled : bool) (mkdirTemp : option string)
    (joinPath : string → string → string) (globalSync : Z)
    (repositories : list RepositoryConfig)
    (registry : gmap string (gitOpsRepositoryState * Duration)) :
  setupGitOpsMonitoring enabled mkdirTemp joinPath globalSync repositories ∅ = Some registry →
  (∀ name entry, registry !! name = Some entry →
     ∃ tempDir, mkdirTemp = Some tempDir
                ∧ wellRegistered joinPath tempDir globalSync repositories name entry)
  ∧ (enabled = true →
     ∀ repo, In repo repositories → rc_Name repo ≠ "" → rc_URL repo ≠ "" →
             is_Some (registry !! rc_Name repo))
  ∧ (enabled = false ∨ repositories = [] → registry = ∅).
Proof.
  unfold setupGitOpsMonitoring. intros Hsetup.
  destruct enabled; cbn [negb] in Hsetup.
  2: { injection Hsetup as <-. repeat split; try done. }
  destruct repositories as [| r rest] eqn:Hrepos.
  { injection Hsetup as <-. repeat split; try done. }
  rewrite <- Hrepos in *. assert (Hlen : (length repositories =? 0)%nat = false) by by subst.
  rewrite Hlen in Hsetup.
  destruct mkdirTemp as [tempDir |]; [| done]. injection Hsetup as <-.
  split; [| split].
  - intros name entry Hent. exists tempDir. split; [done |].
    by apply registerRepositories_last.
  - intros _ repo Hin Hn Hu. by apply registerRepositories_registers.
  - intros [? | ?]; [done | congruence].
Qed.

Lemma setupGitOpsMonitoring_registry_witness :
  ∃ tempDir,
    Some "/tmp/sun-gitops-1" = Some tempDir
    ∧ wellRegistered (fun a b => a ++ "/" ++ b) tempDir 5 repositoriesExample "infra"
        (mkRepoState "infra" "https://git.example/infra.git" "apps/web" "main"
           "/tmp/sun-gitops-1/infra", 300000000000).
Proof.
  exact (proj1 (setupGitOpsMonitoring_registry true (Some "/tmp/sun-gitops-1")
                  (fun a b => a ++ "/" ++ b) 5 repositoriesExample
                  (registerRepositories (fun a b => a ++ "/" ++ b) "/tmp/sun-gitops-1" 5
                     repositoriesExample ∅) eq_refl)
           "infra"
           (mkRepoState "infra" "https://git.example/infra.git" "apps/web" "main"
              "/tmp/sun-gitops-1/infra", 300000000000)
           eq_refl).
Defined.

(** ** The payload of plain alerts *)

(** Inside a string the recogniser reads a plain text and stays. *)
Lemma json_run_plain (s : string) (key : bool) (stack : list Json.container) :
  plainText s = true →
  Json.run s (Some (Json.mkState (Json.MString key) stack))
  = Some (Json.mkState (Json.MString key) stack).
Proof.
  induction s as [| c s IH]; simpl; [done |].
  intros H. apply andb_true_iff in H as [H Hrest].
  apply andb_true_iff in H as [H H92]. apply andb_true_iff in H as [H H34].
  apply andb_true_iff in H as [H32 H127].
  assert (Hstep : Json.step c (Json.mkState (Json.MString key) stack)
                  = Some (Json.mkState (Json.MString key) stack)).
  { unfold Json.step, Json.isByte, Json.code. cbn [Json.st_mode Json.st_stack].
    apply negb_true_iff in H34, H92. rewrite H34, H92.
    apply N.leb_le in H32. by destruct (N.ltb_spec (N_of_ascii c) 32); [lia |]. }
  rewrite Hstep. by apply IH.
Qed.

Lemma fieldsLoop_text (fields : list Field) :
  ∀ (i : nat) (acc : string), fieldsLoop i fields acc = acc ++ fieldsText i fields.
Proof.
  induction fields as [| f rest IH]; intros i acc; simpl.
  - clear. induction acc as [| c acc IH]; [done |].
    rewrite append_cons. by rewrite <- IH.
  - rewrite IH. destruct (0 <? i)%nat; rewrite !append_assoc; reflexivity.
Qed.

Lemma fieldsText_cons (i : nat) (f : Field) (rest : list Field) :
  fieldsText i (f :: rest)
  = (if (0 <? i)%nat then "," else "")
    ++ fieldOpen ++ Name f ++ fieldMid ++ Value f ++ fieldClose (Inline f)
    ++ fieldsText (S i) rest.
Proof. cbn [fieldsText]. destruct (0 <? i)%nat, (Inline f); reflexivity. Qed.

(** The text of the fields from index [i] on, read inside the array:
    before the first field the array has just been opened, after a field
    a value is complete. *)
Lemma json_run_fieldsText (stack : list Json.container) (fields : list Field) :
  forallb plainField fields = true →
  ∀ i : nat,
    Json.run (fieldsText i fields)
      (Some (Json.mkState (if (0 <? i)%nat then Json.MAfter else Json.MArrayFirst)
               (Json.InArray :: stack)))
    = Some (Json.mkState
              (match fields with
               | [] => if (0 <? i)%nat then Json.MAfter else Json.MArrayFirst
               | _ => Json.MAfter
               end)
              (Json.InArray :: stack)).
Proof.
  induction fields as [| f rest IH]; intros Hplain i; [done |].
  cbn [forallb] in Hplain. apply andb_true_iff in Hplain as [Hf Hrest].
  apply andb_true_iff in Hf as [Hn Hv].
  rewrite fieldsText_cons, !json_run_app.
  specialize (IH Hrest (S i)). cbn [Nat.ltb Nat.leb] in IH.
  assert (Hend : Json.run (fieldsText (S i) rest)
                   (Some (Json.mkState Json.MAfter (Json.InArray :: stack)))
                 = Some (Json.mkState Json.MAfter (Json.InArray :: stack))).
  { rewrite IH. by destruct rest. }
  etrans; [| exact Hend]. f_equal.
  assert (Hopen : Json.run fieldOpen
                    (Json.run (if (0 <? i)%nat then "," else "")
                       (Some (Json.mkState
                                (if (0 <? i)%nat then Json.MAfter else Json.MArrayFirst)
                                (Json.InArray :: stack))))
                  = Some (Json.mkState (Json.MString false)
                            (Json.InObject :: Json.InArray :: stack)))
    by (by destruct (0 <? i)%nat).
  rewrite Hopen, (json_run_plain _ _ _ Hn).
  assert (Hmid : Json.run fieldMid
                   (Some (Json.mkState (Json.MString false)
                            (Json.InObject :: Json.InArray :: stack)))
                 = Some (Json.mkState (Json.MString false)
                           (Json.InObject :: Json.InArray :: stack))) by done.
  rewrite Hmid, (json_run_plain _ _ _ Hv).
  by destruct (Inline f).
Qed.

Lemma dropLast_bracket (s : string) : dropLast (s ++ "]") = s.
Proof.
  induction s as [| c s IH]; [done |].
  rewrite append_cons. cbn [dropLast]. rewrite IH.
  destruct s; reflexivity.
Qed.

Lemma fieldsJSON_text (alert : Alert) :
  fieldsJSON alert
  = if negb (String.eqb (Logs alert) "")
    then "[" ++ fieldsText 0 (Fields alert) ++ logsOpen ++ Logs alert ++ logsClose
    else "[" ++ fieldsText 0 (Fields alert) ++ "]".
Proof.
  unfold fieldsJSON. rewrite fieldsLoop_text, append_assoc.
  destruct (negb (String.eqb (Logs alert) "")); [| reflexivity].
  rewrite <- (append_assoc "[" (fieldsText 0 (Fields alert)) "]"), dropLast_bracket.
  rewrite !append_assoc. reflexivity.
Qed.

(** The fields of a plain alert are a JSON array, unless the alert has
    logs and no field. *)
Lemma json_run_fieldsJSON (alert : Alert) (stack : list Json.container) :
  forallb plainField (Fields alert) = true →
  plainText (Logs alert) = true →
  Fields alert ≠ [] ∨ Logs alert = "" →
  Json.run (fieldsJSON alert) (Some (Json.mkState Json.MValue stack))
  = Some (Json.mkState Json.MAfter stack).
Proof.
  intros Hf Hl Hshape. rewrite fieldsJSON_text.
  pose proof (json_run_fieldsText stack (Fields alert) Hf 0%nat) as Hrun.
  cbn [Nat.ltb Nat.leb] in Hrun.
  destruct (String.eqb_spec (Logs alert) "") as [Hempty | Hlogs]; cbn [negb].
  - rewrite !json_run_app.
    change (Json.run "[" (Some (Json.mkState Json.MValue stack)))
      with (Some (Json.mkState Json.MArrayFirst (Json.InArray :: stack))).
    rewrite Hrun. by destruct (Fields alert).
  - destruct Hshape as [Hne | ?]; [| done].
    rewrite !json_run_app.
    change (Json.run "[" (Some (Json.mkState Json.MValue stack)))
      with (Some (Json.mkState Json.MArrayFirst (Json.InArray :: stack))).
    rewrite Hrun. destruct (Fields alert) as [| f rest]; [done |].
    change (Json.run logsOpen (Some (Json.mkState Json.MAfter (Json.InArray :: stack))))
      with (Some (Json.mkState (Json.MString false)
                    (Json.InObject :: Json.InArray :: stack))).
    by rewrite (json_run_plain _ _ _ Hl).
Qed.

Lemma jsonPayload_text (alert : Alert) (stamp : string) :
  jsonPayload alert stamp
  = let green := existsb isSuccessField (Fields alert) in
    payloadOpen ++ (if green then emojiGreen else emojiRed) ++ " " ++ Title alert
    ++ payloadAfterTitle ++ Description alert
    ++ payloadAfterDescription (if green then 65280 else 16711680)
    ++ fieldsJSON alert ++ payloadAfterFields ++ stamp ++ payloadTail.
Proof.
  unfold jsonPayload, payloadHead. cbv zeta.
  destruct (existsb isSuccessField (Fields alert)); rewrite !append_assoc; reflexivity.
Qed.

(** X22.  The payload template is sound for texts that need no escaping:
    when the title, the description, the names and values of the fields,
    the logs and the timestamp are printable ASCII without double quote
    and backslash, the body that [sendWebhookMessage] builds is a
    well-formed JSON text, provided the alert has a field or no logs.  An
    alert with logs and no field gives a body that is not well formed,
    since the logs are spliced in after the opening bracket with a
    leading comma. *)
Theorem jsonPayload_plain_is_json (alert : Alert) (stamp : string) :
  plainAlert alert = true →
  plainText stamp = true →
  (Fields alert ≠ [] ∨ Logs alert = "" →
   Json.wellFormed (jsonPayload alert stamp) = true)
  ∧ (Fields alert = [] → Logs alert ≠ "" →
     Json.wellFormed (jsonPayload alert stamp) = false).
Proof.
  intros Hplain Hstamp. unfold plainAlert in Hplain.
  apply andb_true_iff in Hplain as [Hplain Hlogs].
  apply andb_true_iff in Hplain as [Hplain Hfields].
  apply andb_true_iff in Hplain as [Htitle Hdesc].
  set (stack := [Json.InObject; Json.InArray; Json.InObject]).
  assert (Hhead : Json.run (Description alert)
            (Json.run payloadAfterTitle
               (Json.run (Title alert)
                  (Json.run " "
                     (Json.run (if existsb isSuccessField (Fields alert)
                                then emojiGreen else emojiRed)
                        (Json.run payloadOpen (Some Json.initial))))))
          = Some (Json.mkState (Json.MString false) stack)).
  { assert (H1 : Json.run " "
                   (Json.run (if existsb isSuccessField (Fields alert)
                              then emojiGreen else emojiRed)
                      (Json.run payloadOpen (Some Json.initial)))
                 = Some (Json.mkState (Json.MString false) stack))
      by (by destruct (existsb isSuccessField (Fields alert))).
    rewrite H1, (json_run_plain _ _ _ Htitle).
    change (Json.run payloadAfterTitle (Some (Json.mkState (Json.MString false) stack)))
      with (Some (Json.mkState (Json.MString false) stack)).
    by rewrite (json_run_plain _ _ _ Hdesc). }
  assert (Hcolor : Json.run (payloadAfterDescription
                               (if existsb isSuccessField (Fields alert)
                                then 65280 else 16711680))
                     (Some (Json.mkState (Json.MString false) stack))
                   = Some (Json.mkState Json.MValue stack))
    by (by destruct (existsb isSuccessField (Fields alert))).
  split.
  - intros Hshape. unfold Json.wellFormed. rewrite jsonPayload_text. cbv zeta.
    rewrite !json_run_app, Hhead, Hcolor.
    rewrite (json_run_fieldsJSON alert stack Hfields Hlogs Hshape).
    change (Json.run payloadAfterFields (Some (Json.mkState Json.MAfter stack)))
      with (Some (Json.mkState (Json.MString false) stack)).
    by rewrite (json_run_plain _ _ _ Hstamp).
  - intros Hnone Hsome. unfold Json.wellFormed. rewrite jsonPayload_text. cbv zeta.
    rewrite !json_run_app, Hhead, Hcolor, fieldsJSON_text, Hnone.
    destruct (String.eqb_spec (Logs alert) "") as [? | _]; [done |]. cbn [negb fieldsText].
    rewrite !json_run_app.
    change (Json.run logsOpen
              (Json.run "" (Json.run "[" (Some (Json.mkState Json.MValue stack)))))
      with (@None Json.state).
    by rewrite !json_run_None.
Qed.

Lemma jsonPayload_plain_is_json_witness :
  Json.wellFormed (jsonPayload podFailureAlert "2026-10-30T12:00:00Z") = true
  ∧ Json.wellFormed (jsonPayload logsOnlyAlert "2026-10-30T12:00:00Z") = false.
Proof.
  split.
  - apply (proj1 (jsonPayload_plain_is_json podFailureAlert "2026-10-30T12:00:00Z"
                    eq_refl eq_refl)).
    left. discriminate.
  - apply (proj2 (jsonPayload_plain_is_json logsOnlyAlert "2026-10-30T12:00:00Z"
                    eq_refl eq_refl)); [reflexivity | discriminate].
Defined.
